(** * hello_drmprime: the decode pipeline of [hello_drmprime.c]

    A shallow embedding of [get_hw_format], [decode_write], [usage] and
    [main] of hello_drmprime.c, and the properties of the playback
    controller, the frame dispatcher and the format negotiation proved (or
    refuted) on it.

    The program is a client of libavformat, libavcodec, libavutil, libc and
    of drmprime_out.  Their answers are inputs of the model: every call
    whose result the program branches on takes that result from a record
    describing the environment, and every call with an outside effect is
    written to a trace of events. *)

From Stdlib Require Import ZArith List String Ascii Bool Lia.
Import ListNotations.
Open Scope string_scope.
Open Scope list_scope.
Open Scope Z_scope.

(** ** Machine integers *)

(** [long] is 64 bits wide (LP64); [--x] on a [long] is written with its
    two's-complement wrap-around. *)
Definition LONG_BITS : Z := 64.
Definition LONG_MAX : Z := 2 ^ (LONG_BITS - 1) - 1.
Definition LONG_MIN : Z := - 2 ^ (LONG_BITS - 1).

Definition wrap_long (x : Z) : Z :=
  (x + 2 ^ (LONG_BITS - 1)) mod 2 ^ LONG_BITS - 2 ^ (LONG_BITS - 1).

Definition long_dec (x : Z) : Z := wrap_long (x - 1).

(** [int] is 32 bits wide; the conversion of a [size_t] to [int], as in
    [ret = fwrite(...)], keeps the low 32 bits. *)
Definition int_of_size_t (x : Z) : Z :=
  (x + 2 ^ 31) mod 2 ^ 32 - 2 ^ 31.

(** ** Constants of the libav headers and of errno.h *)

(** [AVERROR(e)] is [-e]; [EAGAIN] is 11 and [ENOMEM] 12 on Linux. *)
Definition AVERROR (e : Z) : Z := - e.
Definition EAGAIN : Z := 11.
Definition ENOMEM : Z := 12.
(** [AVERROR_EOF] is [FFERRTAG('E','O','F',' ')], the negated little-endian
    tag. *)
Definition AVERROR_EOF : Z :=
  - (69 + Z.shiftl 79 8 + Z.shiftl 70 16 + Z.shiftl 32 24).
Definition AV_PIX_FMT_NONE : Z := -1.
Definition AV_HWDEVICE_TYPE_NONE : Z := 0.
Definition AV_CODEC_HW_CONFIG_METHOD_HW_DEVICE_CTX : Z := 1.

(** ** Data *)

(** The fields of an [AVFrame] the program reads. *)
Record AVFrame := mkFrame {
  format : Z;
  width : Z;
  height : Z
}.

(** [get_hw_format]: the callback the codec calls with the formats it
    offers.  [pix_fmts] is the memory the pointer walks over; the walk ends
    at the first [-1].  An array without the terminator makes the C loop read
    past its end, which is [None] here. *)
Fixpoint get_hw_format (hw_pix_fmt : Z) (pix_fmts : list Z) : option Z :=
  match pix_fmts with
  | [] => None
  | p :: rest =>
      if p =? -1 then Some AV_PIX_FMT_NONE
      else if p =? hw_pix_fmt then Some p
      else get_hw_format hw_pix_fmt rest
  end.

(** One answer of the decoder to [avcodec_receive_frame], with the answers
    of the library calls made while the frame it carries is dumped. *)
Record received := mkReceived {
  receive_ret : Z;        (* avcodec_receive_frame *)
  frame : AVFrame;        (* the frame filled in when receive_ret >= 0 *)
  transfer_ret : Z;       (* av_hwframe_transfer_data *)
  sw_frame : AVFrame;     (* the frame the transfer fills in *)
  malloc_ok : bool;       (* av_malloc(size) != NULL *)
  copy_ret : Z;           (* av_image_copy_to_buffer *)
  fwrite_ret : Z          (* fwrite: the number of items written, a size_t *)
}.

(** A packet, with the decoder's answer to it: what [avcodec_send_packet]
    returns and the output the decoder queues once it has taken the packet.
    [data_null] marks the flush packet ([data = NULL], [size = 0]). *)
Record AVPacket := mkPacket {
  stream_index : Z;
  data_null : bool;
  send_ret : Z;
  decoded : list received
}.

(** The decoder behind an [AVCodecContext]: its queue of output not yet
    received, and whether the flush packet has been sent. *)
Record AVCodecContext := mkCtx {
  pending : list received;
  draining : bool
}.

Record AVCodecHWConfig := mkHWConfig {
  pix_fmt : Z;
  methods : Z;
  device_type : Z
}.

(** A decoder: [hw_configs] is the array [avcodec_get_hw_config] indexes,
    which answers NULL past its end. *)
Record AVCodec := mkCodec {
  id : Z;
  name : string;
  hw_configs : list AVCodecHWConfig
}.

(** The file-scope variables of hello_drmprime.c ([hw_device_ctx] is never
    assigned and stays NULL), and the answers the allocator will give:
    [frame_allocs] holds, per turn of the loop of [decode_write], whether its
    two [av_frame_alloc] calls succeed; past its end they do. *)
Record state := mkState {
  hw_pix_fmt : Z;
  output_file : bool;          (* false: NULL *)
  frames : Z;
  frame_allocs : list bool
}.

Definition set_frames (f : Z) (st : state) : state :=
  mkState (hw_pix_fmt st) (output_file st) f (frame_allocs st).
Definition set_hw_pix_fmt (p : Z) (st : state) : state :=
  mkState p (output_file st) (frames st) (frame_allocs st).
Definition set_output_file (b : bool) (st : state) : state :=
  mkState (hw_pix_fmt st) b (frames st) (frame_allocs st).
Definition set_frame_allocs (l : list bool) (st : state) : state :=
  mkState (hw_pix_fmt st) (output_file st) (frames st) l.

(** What the program does to the outside, in order. *)
Inductive event :=
| EvStderr (msg : string)            (* fprintf(stderr, msg, ...) *)
| EvOutNew                           (* drmprime_out_new *)
| EvFopen (path : string)            (* fopen(path, "w+") succeeded *)
| EvOpenInput (url : option string)  (* avformat_open_input *)
| EvHwDeviceCreate                   (* av_hwdevice_ctx_create succeeded *)
| EvCodecOpen                        (* avcodec_open2 succeeded *)
| EvDisplay (f : AVFrame)            (* drmprime_out_display *)
| EvFwrite (size written : Z)        (* fwrite(buffer, 1, size, output_file) *)
| EvFclose                           (* fclose(output_file) *)
| EvFreeContext                      (* avcodec_free_context *)
| EvCloseInput                       (* avformat_close_input *)
| EvBufferUnref                      (* av_buffer_unref(&hw_device_ctx) *)
| EvOutDelete.                       (* drmprime_out_delete *)

(** ** The decoder's send/receive interface *)

Definition avcodec_send_packet (avctx : AVCodecContext) (packet : AVPacket)
  : Z * AVCodecContext :=
  if send_ret packet <? 0 then (send_ret packet, avctx)
  else (send_ret packet,
        mkCtx (pending avctx ++ decoded packet)
              (draining avctx || data_null packet)).

(** With nothing queued the decoder asks for input, or reports the end of
    the stream once it is draining. *)
Definition avcodec_receive_frame (drain : bool) (q : list received)
  : Z * option received * list received :=
  match q with
  | [] => (if drain then AVERROR_EOF else AVERROR EAGAIN, None, [])
  | r :: q' => (receive_ret r, Some r, q')
  end.

Definition av_frame_alloc (st : state) : bool * state :=
  match frame_allocs st with
  | [] => (true, st)
  | b :: l => (b, set_frame_allocs l st)
  end.

(** ** Control flow of [main] *)

(** A stretch of [main]: it goes on with a value, or leaves [main] with
    [return code]; either way it has produced events. *)
Inductive step (A : Type) :=
| Go (a : A) (evs : list event)
| Leave (code : Z) (evs : list event).
Arguments Go {A} a evs.
Arguments Leave {A} code evs.

Definition bind {A B : Type} (m : step A) (k : A -> step B) : step B :=
  match m with
  | Go a evs =>
      match k a with
      | Go b evs' => Go b (evs ++ evs')
      | Leave code evs' => Leave code (evs ++ evs')
      end
  | Leave code evs => Leave code evs
  end.

Definition emit (evs : list event) : step unit := Go tt evs.

(** [if (c) { fprintf(stderr, ...); return code; }] *)
Definition leave_if (c : bool) (code : Z) (evs : list event) : step unit :=
  if c then Leave code evs else Go tt [].

Declare Scope step_scope.
Delimit Scope step_scope with step.
Notation "x <- m ;; k" := (bind m (fun x => k))
  (at level 61, m at next level, right associativity) : step_scope.
Notation "' p <- m ;; k" := (bind m (fun p => k))
  (at level 61, p pattern, m at next level, right associativity) : step_scope.
Notation "m ;;; k" := (bind m (fun _ => k))
  (at level 61, right associativity) : step_scope.

(** How the process ends.  [Undefined] stands for the dereference of a NULL
    [argv] entry; [OutOfFuel] is not a behaviour of the program but of the
    bound the model puts on the number of passes. *)
Inductive exit_status :=
| Returned (code : Z)    (* return code; from main *)
| Exited (code : Z)      (* exit(code) *)
| Undefined
| OutOfFuel.

(** A run of [main]: what happened before the label [loopy], the events of
    each pass that was started, and what happened after the last pass. *)
Record run := mkRun {
  status : exit_status;
  prologue : list event;
  passes : list (list event);
  epilogue : list event
}.

Definition trace (r : run) : list event :=
  prologue r ++ List.concat (passes r) ++ epilogue r.

(** The command line as [main] leaves it in its locals. *)
Record options := mkOptions {
  loop_count : Z;
  frame_count : Z;
  out_name : option string;    (* None: NULL *)
  in_file : option string      (* None: NULL *)
}.

(** What the libraries answer during one pass, from [loopy] on. *)
Record pass_env := mkPassEnv {
  open_input_ret : Z;              (* avformat_open_input *)
  find_stream_info_ret : Z;        (* avformat_find_stream_info *)
  find_best_stream_ret : Z;        (* av_find_best_stream *)
  best_decoder : AVCodec;          (* the decoder it stores *)
  alloc_context_ok : bool;         (* avcodec_alloc_context3 != NULL *)
  parameters_to_context_ret : Z;   (* avcodec_parameters_to_context *)
  hwdevice_ctx_create_ret : Z;     (* av_hwdevice_ctx_create *)
  open2_ret : Z;                   (* avcodec_open2 *)
  packets : list AVPacket;         (* what av_read_frame reads before it fails *)
  flush_send_ret : Z;              (* avcodec_send_packet of the flush packet *)
  flush_decoded : list received    (* the output the flush releases *)
}.

(** What the libraries answer during a run. *)
Record environment := mkEnv {
  drm_device_type : Z;             (* av_hwdevice_find_type_by_name("drm") *)
  out_new_ok : bool;               (* drmprime_out_new() != NULL *)
  fopen_ok : bool;                 (* fopen(out_name, "w+") != NULL *)
  device_types : list Z;           (* what av_hwdevice_iterate_types goes through *)
  m2m_decoder : option AVCodec;    (* avcodec_find_decoder_by_name("h264_v4l2m2m") *)
  allocs : list bool;              (* see [frame_allocs] *)
  pass : nat -> pass_env           (* the passes, counted from 0 *)
}.

(** The loop [while ((type = av_hwdevice_iterate_types(type)) !=
    AV_HWDEVICE_TYPE_NONE)] that lists the device types: [types] is what the
    iteration answers, type after type; the loop prints a name for each, up
    to the first [AV_HWDEVICE_TYPE_NONE] (the end of [types] stands for
    one). *)
Fixpoint list_device_types (types : list Z) : list event :=
  match types with
  | [] => []
  | type :: rest =>
      if type =? AV_HWDEVICE_TYPE_NONE then []
      else EvStderr " %s" :: list_device_types rest
  end.

(** ** The program *)

Section Program.

(** Taken as parameters: two enumerators whose value depends on the release
    of the libav headers, and two library functions. *)
Variable AV_PIX_FMT_DRM_PRIME : Z.
Variable AV_CODEC_ID_H264 : Z.
(** [av_image_get_buffer_size pix_fmt width height align] *)
Variable av_image_get_buffer_size : Z -> Z -> Z -> Z -> Z.
(** [strtol nptr base]: the value, and the text [*endptr] is left at. *)
Variable strtol : string -> Z -> Z * string.

(** A proof depends on the parameters its statement names, and on no
    other. *)
Set Default Proof Using "Type".

(** *** [decode_write] *)

(** The end of a stretch of the loop body: it falls through with [ret], or
    jumps to [fail] with it. *)
Inductive flow :=
| Next (ret : Z)
| Fail (ret : Z).

(** From [av_image_get_buffer_size] to [fwrite]. *)
Definition write_frame (tmp_frame : AVFrame) (r : received)
  : flow * list event :=
  let size := av_image_get_buffer_size (format tmp_frame) (width tmp_frame)
                                       (height tmp_frame) 1 in
  if negb (malloc_ok r) then
    (Fail (AVERROR ENOMEM), [EvStderr "Can not alloc buffer\n"])
  else if copy_ret r <? 0 then
    (Fail (copy_ret r), [EvStderr "Can not copy image to buffer\n"])
  else
    let ret := int_of_size_t (fwrite_ret r) in
    if ret <? 0 then
      (Fail ret, [EvFwrite size (fwrite_ret r);
                  EvStderr "Failed to dump raw data.\n"])
    else (Next ret, [EvFwrite size (fwrite_ret r)]).

(** The block under [if (output_file != NULL)]. *)
Definition dump (st : state) (r : received) : flow * list event :=
  if format (frame r) =? hw_pix_fmt st then
    (* retrieve data from GPU to CPU *)
    if transfer_ret r <? 0 then
      (Fail (transfer_ret r),
       [EvStderr "Error transferring the data to system memory\n"])
    else write_frame (sw_frame r) r
  else write_frame (frame r) r.

(** The loop body from [drmprime_out_display] to the label [fail]: the value
    of [ret] there, the variables and the events. *)
Definition dispatch (st : state) (r : received) : Z * state * list event :=
  let '(fl, evs) :=
    if output_file st then dump st r else (Next (receive_ret r), []) in
  match fl with
  | Fail ret => (ret, st, EvDisplay (frame r) :: evs)
  | Next ret =>
      (* if (frames == 0 || --frames == 0) ret = -1; *)
      if frames st =? 0 then (-1, st, EvDisplay (frame r) :: evs)
      else
        let st' := set_frames (long_dec (frames st)) st in
        if frames st' =? 0 then (-1, st', EvDisplay (frame r) :: evs)
        else (ret, st', EvDisplay (frame r) :: evs)
  end.

(** The loop [for (;;)] over the decoder's queue [q]: the value returned,
    the variables, what is left in the queue, and the events.  On the empty
    queue [avcodec_receive_frame] answers [AVERROR(EAGAIN)] or [AVERROR_EOF]
    and the function returns 0 (see [receive_loop_eq]). *)
Fixpoint receive_loop (st : state) (drain : bool) (q : list received)
  : Z * state * list received * list event :=
  let '(ok, st1) := av_frame_alloc st in
  if negb ok then
    (AVERROR ENOMEM, st1, q, [EvStderr "Can not alloc frame\n"])
  else
    match q with
    | [] => (0, st1, [], [])
    | r :: q' =>
        let ret := receive_ret r in
        if (ret =? AVERROR EAGAIN) || (ret =? AVERROR_EOF) then
          (0, st1, q', [])
        else if ret <? 0 then
          (ret, st1, q', [EvStderr "Error while decoding\n"])
        else
          let '(ret, st2, evs) := dispatch st1 r in
          if ret <? 0 then (ret, st2, q', evs)
          else
            let '(ret', st3, q'', evs') := receive_loop st2 drain q' in
            (ret', st3, q'', evs ++ evs')
    end.

Definition decode_write (st : state) (avctx : AVCodecContext)
                        (packet : AVPacket)
  : Z * state * AVCodecContext * list event :=
  let '(ret, avctx1) := avcodec_send_packet avctx packet in
  if ret <? 0 then (ret, st, avctx1, [EvStderr "Error during decoding\n"])
  else
    let '(ret, st', q, evs) :=
      receive_loop st (draining avctx1) (pending avctx1) in
    (ret, st', mkCtx q (draining avctx1), evs).

(** *** [usage] and the command line *)

Definition usage_text : string :=
  "Usage: hello_drmprime [-l loop_count] [-o yuv_output_file] <input file>\n".

(** The end of the argument loop of [main]. *)
Inductive parsed :=
| ParseUsage                 (* usage() was called *)
| ParseNull                  (* a NULL entry of argv was dereferenced *)
| ParseOk (o : options).

Definition set_loop_count (x : Z) (o : options) : options :=
  mkOptions x (frame_count o) (out_name o) (in_file o).
Definition set_frame_count (x : Z) (o : options) : options :=
  mkOptions (loop_count o) x (out_name o) (in_file o).
Definition set_out_name (s : string) (o : options) : options :=
  mkOptions (loop_count o) (frame_count o) (Some s) (in_file o).
Definition set_in_file (s : option string) (o : options) : options :=
  mkOptions (loop_count o) (frame_count o) (out_name o) s.

(** [a[0][0] == '-'] *)
Definition starts_with_dash (s : string) : bool :=
  match s with
  | String c _ => Ascii.eqb c "-"%char
  | EmptyString => false
  end.

(** [*e != 0] *)
Definition nonempty (e : string) : bool :=
  match e with
  | EmptyString => false
  | String _ _ => true
  end.

(** After the loop: [if (n != 0) usage(); in_file = a[0];].  [a[0]] is NULL
    when [a] has reached [argv + argc]. *)
Definition parse_end (a : list string) (n : Z) (o : options) : parsed :=
  if negb (n =? 0) then ParseUsage else ParseOk (set_in_file (hd_error a) o).

(** The loop [while (n-- > 0 && a[0][0] == '-')]: [a] is the rest of argv,
    [n] the counter as it is before the test. *)
Fixpoint parse_loop (a : list string) (n : Z) (o : options) : parsed :=
  if n >? 0 then
    let n := n - 1 in
    match a with
    | [] => ParseNull
    | arg :: a1 =>
        if starts_with_dash arg then
          (* const char *arg = *a++; *)
          if String.eqb arg "-l" || String.eqb arg "--loop" then
            if n =? 0 then ParseUsage
            else
              match a1 with
              | [] => ParseNull
              | v :: a2 =>
                  let '(x, e) := strtol v 0 in
                  if nonempty e then ParseUsage
                  else parse_loop a2 (n - 1) (set_loop_count x o)
              end
          else if String.eqb arg "-f" || String.eqb arg "--frames" then
            if n =? 0 then ParseUsage
            else
              match a1 with
              | [] => ParseNull
              | v :: a2 =>
                  let '(x, e) := strtol v 0 in
                  if nonempty e then ParseUsage
                  else parse_loop a2 (n - 1) (set_frame_count x o)
              end
          else if String.eqb arg "-o" then
            if n =? 0 then ParseUsage
            else
              match a1 with
              | [] => ParseNull
              | v :: a2 => parse_loop a2 (n - 1) (set_out_name v o)
              end
          else parse_end a1 n o   (* break *)
        else parse_end a n o
    end
  else parse_end a (n - 1) o.

(** The initialisers of [loop_count], [frame_count] and [out_name]. *)
Definition default_options : options := mkOptions 0 (-1) None None.

(** The block that reads the command line; [argv] is without [argv[0]], so
    [argc - 1] is its length. *)
Definition parse_args (argv : list string) : parsed :=
  parse_loop argv (Z.of_nat (List.length argv)) default_options.

(** *** Format negotiation *)

(** [config->methods & AV_CODEC_HW_CONFIG_METHOD_HW_DEVICE_CTX &&
     config->device_type == type] *)
Definition hw_config_matches (type : Z) (config : AVCodecHWConfig) : bool :=
  negb (Z.land (methods config) AV_CODEC_HW_CONFIG_METHOD_HW_DEVICE_CTX =? 0)
  && (device_type config =? type).

(** The loop [for (i = 0;; i++)] over [avcodec_get_hw_config(decoder, i)]:
    the [pix_fmt] it breaks with, or [None] when it meets the NULL past the
    last configuration. *)
Fixpoint scan_hw_configs (type : Z) (configs : list AVCodecHWConfig)
  : option Z :=
  match configs with
  | [] => None
  | config :: rest =>
      if hw_config_matches type config then Some (pix_fmt config)
      else scan_hw_configs type rest
  end.

(** From [if (decoder->id == AV_CODEC_ID_H264)] to the end of its [else]:
    the decoder to open, and [hw_pix_fmt] assigned. *)
Definition negotiate (env : environment) (type : Z) (decoder : AVCodec)
                     (st : state) : step (AVCodec * state) :=
  if id decoder =? AV_CODEC_ID_H264 then
    match m2m_decoder env with
    | None => Leave (-1) [EvStderr "Cannot find the h264 v4l2m2m decoder\n"]
    | Some d => Go (d, set_hw_pix_fmt AV_PIX_FMT_DRM_PRIME st) []
    end
  else
    match scan_hw_configs type (hw_configs decoder) with
    | None =>
        Leave (-1) [EvStderr "Decoder %s does not support device type %s.\n"]
    | Some p => Go (decoder, set_hw_pix_fmt p st) []
    end.

(** *** One pass: from [loopy] to the teardown *)

(** The loop [while (ret >= 0)], entered with [ret >= 0]: [av_read_frame]
    answers 0 with the next packet of [pkts] and [AVERROR_EOF] after the
    last.  The result has the value of [ret] at the exit and the packets that
    were not read. *)
Fixpoint read_loop (video_stream : Z) (st : state) (avctx : AVCodecContext)
                   (pkts : list AVPacket)
  : Z * state * AVCodecContext * list AVPacket * list event :=
  match pkts with
  | [] => (AVERROR_EOF, st, avctx, [], [])
  | packet :: rest =>
      let '(ret, st1, avctx1, evs) :=
        if video_stream =? stream_index packet
        then decode_write st avctx packet
        else (0, st, avctx, []) in
      if ret >=? 0 then
        let '(ret', st2, avctx2, rest', evs') :=
          read_loop video_stream st1 avctx1 rest in
        (ret', st2, avctx2, rest', evs ++ evs')
      else (ret, st1, avctx1, rest, evs)
  end.

(** [hw_decoder_init], as [main] uses it. *)
Definition hw_decoder_init (pe : pass_env) : step unit :=
  if hwdevice_ctx_create_ret pe <? 0 then
    Leave (-1) [EvStderr "Failed to create specified HW device.\n"]
  else emit [EvHwDeviceCreate].

(** From [loopy] to [avcodec_open2]: the index of the video stream, and the
    variables. *)
Definition open_pass (env : environment) (type : Z) (o : options)
                     (pe : pass_env) (st : state) : step (Z * state) :=
 (emit [EvOpenInput (in_file o)] ;;;
  leave_if (negb (open_input_ret pe =? 0)) (-1)
           [EvStderr "Cannot open input file '%s'\n"] ;;;
  leave_if (find_stream_info_ret pe <? 0) (-1)
           [EvStderr "Cannot find input stream information.\n"] ;;;
  leave_if (find_best_stream_ret pe <? 0) (-1)
           [EvStderr "Cannot find a video stream in the input file\n"] ;;;
  ' (decoder, st1) <- negotiate env type (best_decoder pe) st ;;
  leave_if (negb (alloc_context_ok pe)) (AVERROR ENOMEM) [] ;;;
  leave_if (parameters_to_context_ret pe <? 0) (-1) [] ;;;
  hw_decoder_init pe ;;;
  leave_if (open2_ret pe <? 0) (-1)
           [EvStderr "Failed to open codec for stream #%u\n"] ;;;
  emit [EvCodecOpen] ;;;
  Go (find_best_stream_ret pe, st1) [])%step.

(** The packet [main] builds to flush the decoder ([decode_write] does not
    read its stream index). *)
Definition flush_packet (pe : pass_env) : AVPacket :=
  mkPacket 0 true (flush_send_ret pe) (flush_decoded pe).

(** From [frames = frame_count] to [av_buffer_unref(&hw_device_ctx)].
    The pass is the program's when it begins with the dump file open or
    without dump file.  For a pass that begins with [output_file] closed
    (see [main_loop]) the calls of [fwrite] and [fclose] are undefined in C;
    the events from the first of them on are what happens if the calls
    return. *)
Definition decode_pass (o : options) (pe : pass_env) (video_stream : Z)
                       (st : state) : state * list event :=
  let st0 := set_frames (frame_count o) st in
  let '(_, st1, avctx, _, evs_read) :=
    read_loop video_stream st0 (mkCtx [] false) (packets pe) in
  (* flush the decoder *)
  let '(_, st2, _, evs_flush) :=
    decode_write st1 avctx (flush_packet pe) in
  (st2,
   evs_read ++ evs_flush
   ++ (if output_file st2 then [EvFclose] else [])
   ++ [EvFreeContext; EvCloseInput; EvBufferUnref]).

Definition playback_pass (env : environment) (type : Z) (o : options)
                         (pe : pass_env) (st : state) : step state :=
 (' (video_stream, st1) <- open_pass env type o pe st ;;
  let '(st2, evs) := decode_pass o pe video_stream st1 in
  Go st2 evs)%step.

(** *** [main] *)

(** The passes: [loopy: ... if (--loop_count > 0) goto loopy;].  [i] counts
    the passes begun before this one.  [fclose(output_file)] is inside the
    repeated part and [output_file] is not assigned after it: in a run with
    a dump file every pass after the first calls [fwrite] and [fclose] on
    the closed file, which C leaves undefined.  The model goes on as if
    those calls returned: a run is the program's up to its first such call
    ([uses_after_close] counts them). *)
Fixpoint main_loop (fuel : nat) (env : environment) (type : Z) (o : options)
                   (count : Z) (i : nat) (st : state)
  : exit_status * list (list event) * list event :=
  match fuel with
  | O => (OutOfFuel, [], [])
  | S fuel' =>
      match playback_pass env type o (pass env i) st with
      | Leave code evs => (Returned code, [evs], [])
      | Go st' evs =>
          let count' := long_dec count in
          if count' >? 0 then
            let '(s, ps, ep) := main_loop fuel' env type o count' (S i) st' in
            (s, evs :: ps, ep)
          else (Returned 0, [evs], [EvOutDelete])
      end
  end.

(** The file-scope variables as the loader leaves them. *)
Definition initial_state (env : environment) : state :=
  mkState 0 false 0 (allocs env).

(** [main] after the command line is read. *)
Definition playback (fuel : nat) (env : environment) (o : options) : run :=
  let type := drm_device_type env in
  if type =? AV_HWDEVICE_TYPE_NONE then
    mkRun (Returned (-1))
          ([EvStderr "Device type %s is not supported.\n";
            EvStderr "Available device types:"]
           ++ list_device_types (device_types env) ++ [EvStderr "\n"]) [] []
  else if negb (out_new_ok env) then
    mkRun (Returned 1) [EvStderr "Failed to open drmprime output\n"] [] []
  else
    let st := initial_state env in
    match out_name o with
    | Some path =>
        (* open the file to dump raw data *)
        if fopen_ok env then
          let '(s, ps, ep) :=
            main_loop fuel env type o (loop_count o) 0
                      (set_output_file true st) in
          mkRun s [EvOutNew; EvFopen path] ps ep
        else
          mkRun (Returned (-1))
                [EvOutNew; EvStderr "Failed to open output file %s: %s\n"]
                [] []
    | None =>
        let '(s, ps, ep) := main_loop fuel env type o (loop_count o) 0 st in
        mkRun s [EvOutNew] ps ep
    end.

Definition main (fuel : nat) (env : environment) (argv : list string) : run :=
  match parse_args argv with
  | ParseUsage => mkRun (Exited 1) [EvStderr usage_text] [] []
  | ParseNull => mkRun Undefined [] [] []
  | ParseOk o => playback fuel env o
  end.

(** *** Observations on a run *)

Definition is_display (e : event) : bool :=
  match e with EvDisplay _ => true | _ => false end.

(** The number of frames handed to the display. *)
Definition frames_dispatched (evs : list event) : nat :=
  List.length (filter is_display evs).

(** The events of the set-up of a pass, and those of [decode_write]. *)
Definition is_setup (e : event) : bool :=
  match e with
  | EvStderr _ | EvOpenInput _ | EvHwDeviceCreate | EvCodecOpen => true
  | _ => false
  end.

Definition is_decode (e : event) : bool :=
  match e with
  | EvStderr _ | EvDisplay _ | EvFwrite _ _ => true
  | _ => false
  end.

(** The events of the teardown of a pass. *)
Definition is_teardown (e : event) : bool :=
  match e with
  | EvFreeContext | EvCloseInput | EvBufferUnref => true
  | _ => false
  end.

(** The dump file as a trace leaves it. *)
Inductive file_status := NeverOpened | Open | Closed.

Definition file_step (s : file_status) (e : event) : file_status :=
  match e with
  | EvFopen _ => Open
  | EvFclose => Closed
  | _ => s
  end.

(** The number of [fwrite] and [fclose] calls made on the dump file while it
    is closed.  C leaves such a call undefined; the model records it as any
    other call and lets the run go on with what the environment answers. *)
Fixpoint uses_after_close (s : file_status) (evs : list event) : nat :=
  match evs with
  | [] => O
  | e :: rest =>
      ((match s, e with
        | Closed, EvFwrite _ _ | Closed, EvFclose => 1
        | _, _ => 0
        end) + uses_after_close (file_step s e) rest)%nat
  end.

(** The calls of the set-up of a pass all succeed. *)
Definition negotiable (env : environment) (type : Z) (decoder : AVCodec)
  : bool :=
  if id decoder =? AV_CODEC_ID_H264 then
    match m2m_decoder env with Some _ => true | None => false end
  else
    match scan_hw_configs type (hw_configs decoder) with
    | Some _ => true
    | None => false
    end.

Definition setup_ok (env : environment) (type : Z) (pe : pass_env) : bool :=
  (open_input_ret pe =? 0)
  && (find_stream_info_ret pe >=? 0)
  && (find_best_stream_ret pe >=? 0)
  && negotiable env type (best_decoder pe)
  && alloc_context_ok pe
  && (parameters_to_context_ret pe >=? 0)
  && (hwdevice_ctx_create_ret pe >=? 0)
  && (open2_ret pe >=? 0).

(** The loop of [decode_write] gets from one turn to a later one: every
    turn between allocates its frames, receives a frame and dispatches it
    without leaving the loop. *)
Inductive turns : state -> list received -> state -> list received
                  -> list event -> Prop :=
| turns_here st q : turns st q st q []
| turns_next st st1 r q ret st2 evs st3 q3 evs3 :
    av_frame_alloc st = (true, st1) ->
    0 <= receive_ret r ->
    dispatch st1 r = (ret, st2, evs) ->
    0 <= ret ->
    turns st2 q st3 q3 evs3 ->
    turns st (r :: q) st3 q3 (evs ++ evs3).


(** A stretch of a pass that begins with [f] in [frames], ends with [f'],
    displays [d] frames and ends with [ret]: it takes at most one frame more
    than it counts, and none more when it ends with [ret >= 0]. *)
Definition within_budget (f f' : Z) (d : nat) (ret : Z) : Prop :=
  0 <= f' <= f
  /\ Z.of_nat d + f' <= f + 1
  /\ Z.of_nat d <= f
  /\ (0 <= ret -> Z.of_nat d + f' = f /\ 0 < f').

(** With [frames] at 0 a call displays one frame at most and stops there. *)
Definition spent (f' : Z) (d : nat) (ret : Z) : Prop :=
  f' = 0 /\ (d <= 1)%nat /\ (0 <= ret -> d = O).

(** Every call made for this frame succeeds: the receive, the transfer,
    the allocation, the copy and a write that [fwrite] reports within the
    range of [int]. *)
Definition dispatches_cleanly (r : received) : bool :=
  (0 <=? receive_ret r) && (0 <=? transfer_ret r) && malloc_ok r
  && (0 <=? copy_ret r) && (0 <=? fwrite_ret r) && (fwrite_ret r <? 2 ^ 31).

(** The decoder takes the packet, and every frame it gives for it is
    dispatched cleanly. *)
Definition decodes_cleanly (packet : AVPacket) : bool :=
  (0 <=? send_ret packet) && forallb dispatches_cleanly (decoded packet).

(** The frames the decoder gives for the packets of the video stream. *)
Definition video_frames (video_stream : Z) (pkts : list AVPacket)
  : list received :=
  flat_map (fun packet => if video_stream =? stream_index packet
                          then decoded packet else []) pkts.

(** The options the argument loop knows. *)
Definition known_option (arg : string) : bool :=
  String.eqb arg "-l" || String.eqb arg "--loop"
  || String.eqb arg "-f" || String.eqb arg "--frames"
  || String.eqb arg "-o".

(** A stretch of the command line made of known options, each with the
    argument it takes. *)
Inductive option_pairs : list string -> Prop :=
| no_option : option_pairs []
| one_more_option flag value rest :
    known_option flag = true ->
    option_pairs rest ->
    option_pairs (flag :: value :: rest).

(** The dump file after the events [evs], from the status [s]. *)
Definition file_status_after (s : file_status) (evs : list event)
  : file_status :=
  fold_left file_step evs s.

(** The events that are no call on the dump file. *)
Definition is_quiet (e : event) : bool :=
  match e with
  | EvFopen _ | EvFwrite _ _ | EvFclose => false
  | _ => true
  end.

(** The options as a stretch of known options with their values leaves
    them, read from left to right; [None] when [strtol] does not take a
    value whole. *)
Fixpoint read_options (opts : list string) (o : options) : option options :=
  match opts with
  | flag :: value :: rest =>
      if String.eqb flag "-l" || String.eqb flag "--loop" then
        let '(x, e) := strtol value 0 in
        if nonempty e then None else read_options rest (set_loop_count x o)
      else if String.eqb flag "-f" || String.eqb flag "--frames" then
        let '(x, e) := strtol value 0 in
        if nonempty e then None else read_options rest (set_frame_count x o)
      else if String.eqb flag "-o" then
        read_options rest (set_out_name value o)
      else Some o
  | _ => Some o
  end.

(** What [decode_write] leaves of the variables: it assigns [frames] only,
    and takes answers of the allocator from the front of [frame_allocs]. *)
Definition decoded_from (st st' : state) : Prop :=
  hw_pix_fmt st' = hw_pix_fmt st
  /\ output_file st' = output_file st
  /\ exists k, frame_allocs st' = skipn k (frame_allocs st).

(** The packets of the video stream. *)
Definition of_stream (video_stream : Z) (pkts : list AVPacket)
  : list AVPacket :=
  filter (fun packet => video_stream =? stream_index packet) pkts.

Definition set_packets (pkts : list AVPacket) (pe : pass_env) : pass_env :=
  mkPassEnv (open_input_ret pe) (find_stream_info_ret pe)
            (find_best_stream_ret pe) (best_decoder pe) (alloc_context_ok pe)
            (parameters_to_context_ret pe) (hwdevice_ctx_create_ret pe)
            (open2_ret pe) pkts (flush_send_ret pe) (flush_decoded pe).

(** The bytes [fwrite] reports written in a trace. *)
Fixpoint bytes_written (evs : list event) : Z :=
  match evs with
  | [] => 0
  | EvFwrite _ written :: rest => written + bytes_written rest
  | _ :: rest => bytes_written rest
  end.

(** The dump of this frame goes through and writes the [size] bytes of its
    image: the transfer of a frame of format [hw] succeeds, the buffer is
    allocated and filled, the image takes [size] bytes and [fwrite] writes
    them all. *)
Definition dumps_whole (hw size : Z) (r : received) : bool :=
  let tmp_frame := if format (frame r) =? hw then sw_frame r else frame r in
  (negb (format (frame r) =? hw) || (0 <=? transfer_ret r))
  && malloc_ok r && (0 <=? copy_ret r)
  && (av_image_get_buffer_size (format tmp_frame) (width tmp_frame)
                               (height tmp_frame) 1 =? size)
  && (fwrite_ret r =? size).

(** The events of a stretch of [main], however it ends. *)
Definition events_of {A : Type} (m : step A) : list event :=
  match m with
  | Go _ evs | Leave _ evs => evs
  end.

(** A trace in which every frame displayed has its [size] bytes written. *)
Definition fills (size : Z) (evs : list event) : Prop :=
  bytes_written evs = size * Z.of_nat (frames_dispatched evs).

(** The frames handed to the display, in order. *)
Fixpoint displayed (evs : list event) : list AVFrame :=
  match evs with
  | [] => []
  | EvDisplay f :: rest => f :: displayed rest
  | _ :: rest => displayed rest
  end.

(** [l] is [l'] with some of its elements left out. *)
Inductive in_order {A : Type} : list A -> list A -> Prop :=
| in_order_nil : in_order [] []
| in_order_skip x l l' : in_order l l' -> in_order l (x :: l')
| in_order_take x l l' : in_order l l' -> in_order (x :: l) (x :: l').

(** The calls on the dump file after it is opened. *)
Definition is_dump_call (e : event) : bool :=
  match e with
  | EvFwrite _ _ | EvFclose => true
  | _ => false
  end.

(** What a run has done when its pass number [i] begins. *)
Definition events_before (r : run) (i : nat) : list event :=
  prologue r ++ List.concat (firstn i (passes r)).

(** The value [main] returns from the code before [loopy], if it does:
    -1 without the device type, 1 without the display, -1 when the dump file
    cannot be opened. *)
Definition prologue_code (env : environment) (o : options) : option Z :=
  if drm_device_type env =? AV_HWDEVICE_TYPE_NONE then Some (-1)
  else if negb (out_new_ok env) then Some 1
  else
    match out_name o with
    | Some _ => if fopen_ok env then None else Some (-1)
    | None => None
    end.

(** *** Inputs the properties are tried on *)

(** A [strtol] for decimal numerals that fit a [long]: an optional minus
    sign and digits; without a digit nothing is consumed. *)
Definition digit_of (c : ascii) : option Z :=
  let n := Z.of_nat (nat_of_ascii c) in
  if (48 <=? n) && (n <=? 57) then Some (n - 48) else None.

Fixpoint strtol_digits (s : string) (acc : Z) : Z * string :=
  match s with
  | EmptyString => (acc, EmptyString)
  | String c s' =>
      match digit_of c with
      | Some d => strtol_digits s' (10 * acc + d)
      | None => (acc, s)
      end
  end.

Definition starts_with_digit (s : string) : bool :=
  match s with
  | String c _ => match digit_of c with Some _ => true | None => false end
  | EmptyString => false
  end.

Definition strtol_dec (nptr : string) (base : Z) : Z * string :=
  match nptr with
  | String "-"%char s =>
      if starts_with_digit s
      then let '(v, e) := strtol_digits s 0 in (- v, e)
      else (0, nptr)
  | _ => if starts_with_digit nptr then strtol_digits nptr 0 else (0, nptr)
  end.

(** The buffer size of a planar 4:2:0 image of 8-bit samples. *)
Definition yuv420_size (pix_fmt w h align : Z) : Z := w * h * 3 / 2.

(** A decoder with two hardware configurations; the second one is of the
    device-context kind for device type 7, with pixel format 5. *)
Definition hevc : AVCodec :=
  mkCodec 173 "hevc" [mkHWConfig 9 2 7; mkHWConfig 5 1 7].

(** The [n]-th frame of a stream, a hardware frame 16 wide and [16 n] high
    (so that the frames differ), and the answers when it is dumped: the
    transfer gives a host frame of format 0 and [fwrite] writes [written]
    bytes. *)
Definition hw_frame (n : Z) : AVFrame := mkFrame 5 16 (16 * n).
Definition got (n written : Z) : received :=
  mkReceived 0 (hw_frame n) 0 (mkFrame 0 16 (16 * n)) true 0 written.

(** A pass in which every call succeeds, over the given packets. *)
Definition pass_over (pkts : list AVPacket) (trailing : list received)
  : pass_env :=
  mkPassEnv 0 0 0 hevc true 0 0 0 pkts 0 trailing.

(** An environment with device type 7 for "drm" in which every pass is
    [pe]. *)
Definition env_of (pe : pass_env) : environment :=
  mkEnv 7 true true [7] None [] (fun _ => pe).

(** Three video packets on stream 0: the decoder gives nothing for the
    first, two frames at once for the second and one for the third. *)
Definition three_frames : pass_env :=
  pass_over [mkPacket 0 false 0 [];
             mkPacket 0 false 0 [got 1 384; got 2 768];
             mkPacket 0 false 0 [got 3 1152]]
            [].

(** The same stream on a disk that takes 100 of the 768 bytes of the second
    frame, and none of the third. *)
Definition short_writes : pass_env :=
  pass_over [mkPacket 0 false 0 [];
             mkPacket 0 false 0 [got 1 384; got 2 100];
             mkPacket 0 false 0 [got 3 0]]
            [].

(** Passes whose set-up fails at [av_hwdevice_ctx_create], at
    [avcodec_open2] and at [avformat_open_input]. *)
Definition device_init_fails : pass_env :=
  mkPassEnv 0 0 0 hevc true 0 (-19) 0 (packets three_frames) 0 [].
Definition codec_open_fails : pass_env :=
  mkPassEnv 0 0 0 hevc true 0 0 (-22) (packets three_frames) 0 [].
Definition no_input : pass_env :=
  mkPassEnv (-2) 0 0 hevc true 0 0 0 [] 0 [].

(** A packet after which the decoder gives a frame and then fails with
    [AVERROR(EINVAL)]. *)
Definition broken_packet : AVPacket :=
  mkPacket 0 false 0 [got 1 384; mkReceived (-22) (hw_frame 2) 0 (hw_frame 2)
                                            true 0 0].

(** The variables in a pass without dump file and without frame budget. *)
Definition plain_state : state := mkState 5 false (-1) [].

(** An H264 decoder and the decoder registered as h264_v4l2m2m. *)
Definition h264 (id264 : Z) : AVCodec :=
  mkCodec id264 "h264" [mkHWConfig 9 1 7].
Definition h264_v4l2m2m (id264 : Z) : AVCodec :=
  mkCodec id264 "h264_v4l2m2m" [].
Definition env_m2m (id264 : Z) : environment :=
  mkEnv 7 true true [7] (Some (h264_v4l2m2m id264)) []
        (fun _ => three_frames).

(** A decoder without a configuration for device type 7. *)
Definition vp9 : AVCodec := mkCodec 167 "vp9" [mkHWConfig 9 2 7; mkHWConfig 5 1 4].
Definition no_config : pass_env :=
  mkPassEnv 0 0 0 vp9 true 0 0 0 [] 0 [].


(** A file with a frame size that does not change: three video packets on
    stream 0 and a packet of another stream between them; the decoder keeps
    one frame back until the flush. *)
Definition steady_frames : pass_env :=
  pass_over [mkPacket 0 false 0 [got 1 384; got 1 384];
             mkPacket 1 false 0 [got 2 0];
             mkPacket 0 false 0 [];
             mkPacket 0 false 0 [got 1 384]]
            [got 1 384].

(** The variables in a pass with a dump file. *)
Definition dump_state : state := mkState 5 true (-1) [].

(** The input can be opened for the first pass, and no more after it. *)
Definition input_lost_after_first_pass : environment :=
  mkEnv 7 true true [7] None []
        (fun i => match i with O => three_frames | S _ => no_input end).
(** ** Properties *)

(** *** Constants and machine integers *)

Lemma AVERROR_EAGAIN_neg : AVERROR EAGAIN < 0.
Proof. reflexivity. Qed.

Lemma AVERROR_EOF_neg : AVERROR_EOF < 0.
Proof. reflexivity. Qed.

Lemma LONG_MAX_pos : 0 < LONG_MAX.
Proof. reflexivity. Qed.

Lemma LONG_MIN_neg : LONG_MIN < 0.
Proof. reflexivity. Qed.

Lemma long_dec_in_range (x : Z) :
  LONG_MIN < x <= LONG_MAX -> long_dec x = x - 1.
Proof.
  unfold long_dec, wrap_long, LONG_MIN, LONG_MAX, LONG_BITS.
  change (2 ^ (64 - 1)) with 9223372036854775808.
  change (2 ^ 64) with 18446744073709551616.
  intros H. rewrite Z.mod_small by lia. lia.
Qed.

Lemma int_of_size_t_small (x : Z) :
  0 <= x < 2 ^ 31 -> int_of_size_t x = x.
Proof.
  unfold int_of_size_t.
  change (2 ^ 31) with 2147483648. change (2 ^ 32) with 4294967296.
  intros H. rewrite Z.mod_small by lia. lia.
Qed.

(** *** [get_hw_format] *)

Lemma get_hw_format_scan (hw : Z) (offered rest : list Z) :
  Forall (fun p => p <> AV_PIX_FMT_NONE) offered ->
  get_hw_format hw (offered ++ AV_PIX_FMT_NONE :: rest)
  = Some (if existsb (Z.eqb hw) offered then hw else AV_PIX_FMT_NONE).
Proof.
  induction 1 as [|p l Hp _ IH]; simpl.
  - reflexivity.
  - destruct (Z.eqb_spec p (-1)) as [E|_].
    + exfalso. apply Hp. exact E.
    + rewrite (Z.eqb_sym hw p).
      destruct (Z.eqb_spec p hw) as [->|_]; simpl; [reflexivity | exact IH].
Qed.

Lemma existsb_eqb_In (hw : Z) (l : list Z) :
  existsb (Z.eqb hw) l = true <-> In hw l.
Proof.
  rewrite existsb_exists. split.
  - intros [x [Hin Heq]]. apply Z.eqb_eq in Heq. subst. exact Hin.
  - intros Hin. exists hw. split; [exact Hin | apply Z.eqb_refl].
Qed.

(** C10: of the formats the codec offers (the array up to its [-1]),
    [get_hw_format] returns the negotiated format [hw_pix_fmt] exactly when
    it is among them, and [AV_PIX_FMT_NONE] otherwise; it returns no other
    format. *)
Theorem get_hw_format_negotiated_or_none
  (hw : Z) (offered rest : list Z)
  (Hoffered : Forall (fun p => p <> AV_PIX_FMT_NONE) offered)
  (Hhw : hw <> AV_PIX_FMT_NONE) :
  exists fmt,
    get_hw_format hw (offered ++ AV_PIX_FMT_NONE :: rest) = Some fmt
    /\ (fmt = hw <-> In hw offered)
    /\ (~ In hw offered -> fmt = AV_PIX_FMT_NONE)
    /\ (fmt = hw \/ fmt = AV_PIX_FMT_NONE).
Proof.
  rewrite (get_hw_format_scan hw offered rest Hoffered).
  destruct (existsb (Z.eqb hw) offered) eqn:E.
  - apply existsb_eqb_In in E. exists hw. repeat split; auto.
    intros Hn. contradiction.
  - assert (Hn : ~ In hw offered).
    { intros Hin. apply existsb_eqb_In in Hin. congruence. }
    exists AV_PIX_FMT_NONE. repeat split; auto.
    + intros Heq. exfalso. apply Hhw. symmetry. exact Heq.
    + intros Hin. contradiction.
Qed.

(** *** The loop of [decode_write] *)

(** The loop body as the source has it, [avcodec_receive_frame] called on the
    queue. *)
Lemma receive_loop_eq (st : state) (drain : bool) (q : list received) :
  receive_loop st drain q =
  let '(ok, st1) := av_frame_alloc st in
  if negb ok then
    (AVERROR ENOMEM, st1, q, [EvStderr "Can not alloc frame\n"])
  else
    let '(ret, out, q') := avcodec_receive_frame drain q in
    if (ret =? AVERROR EAGAIN) || (ret =? AVERROR_EOF) then (0, st1, q', [])
    else if ret <? 0 then (ret, st1, q', [EvStderr "Error while decoding\n"])
    else
      match out with
      | None => (0, st1, q', [])
      | Some r =>
          let '(ret, st2, evs) := dispatch st1 r in
          if ret <? 0 then (ret, st2, q', evs)
          else
            let '(ret', st3, q'', evs') := receive_loop st2 drain q' in
            (ret', st3, q'', evs ++ evs')
      end.
Proof.
  destruct q as [|r q]; simpl; destruct (av_frame_alloc st) as [[|] st1];
    simpl; try reflexivity.
  destruct drain; reflexivity.
Qed.

Lemma receive_loop_turns (drain : bool) (st st' : state)
      (q q' : list received) (evs : list event) :
  turns st q st' q' evs ->
  receive_loop st drain q =
  let '(ret, st2, q2, evs') := receive_loop st' drain q' in
  (ret, st2, q2, evs ++ evs').
Proof.
  induction 1 as [st q | st st1 r q ret st2 evs st3 q3 evs3
                            Halloc Hrecv Hdisp Hret _ IH].
  - destruct (receive_loop st drain q) as [[[ret st2] q2] evs']. reflexivity.
  - rewrite receive_loop_eq, Halloc. cbn [negb avcodec_receive_frame].
    assert (E1 : (receive_ret r =? AVERROR EAGAIN) = false).
    { apply Z.eqb_neq. pose proof AVERROR_EAGAIN_neg. lia. }
    assert (E2 : (receive_ret r =? AVERROR_EOF) = false).
    { apply Z.eqb_neq. pose proof AVERROR_EOF_neg. lia. }
    assert (E3 : (receive_ret r <? 0) = false) by (apply Z.ltb_ge; lia).
    assert (E4 : (ret <? 0) = false) by (apply Z.ltb_ge; lia).
    rewrite E1, E2, E3, Hdisp, E4. cbn [orb]. rewrite IH.
    destruct (receive_loop st3 drain q3) as [[[ret' st4] q4] evs'].
    rewrite app_assoc. reflexivity.
Qed.

Lemma decode_write_sent (st : state) (avctx : AVCodecContext)
      (packet : AVPacket) :
  0 <= send_ret packet ->
  decode_write st avctx packet =
  let drain := draining avctx || data_null packet in
  let '(ret, st', q, evs) :=
    receive_loop st drain (pending avctx ++ decoded packet) in
  (ret, st', mkCtx q drain, evs).
Proof.
  intros H. unfold decode_write, avcodec_send_packet.
  assert (E : (send_ret packet <? 0) = false) by (apply Z.ltb_ge; lia).
  rewrite E. cbn [pending draining]. rewrite E. reflexivity.
Qed.

(** The turn of [main]'s read loop for a packet of the video stream. *)
Lemma read_loop_video (st : state) (avctx : AVCodecContext)
      (packet : AVPacket) (rest : list AVPacket) :
  read_loop (stream_index packet) st avctx (packet :: rest) =
  let '(ret, st1, avctx1, evs) := decode_write st avctx packet in
  if ret >=? 0 then
    let '(ret', st2, avctx2, rest', evs') :=
      read_loop (stream_index packet) st1 avctx1 rest in
    (ret', st2, avctx2, rest', evs ++ evs')
  else (ret, st1, avctx1, rest, evs).
Proof. cbn [read_loop]. rewrite Z.eqb_refl. reflexivity. Qed.

(** C3: at every turn of the loop of [decode_write], when
    [avcodec_receive_frame] answers [AVERROR(EAGAIN)] or [AVERROR_EOF] the
    function returns 0 and [main]'s read loop goes on with the next packet;
    when it answers any other negative value the function returns that
    value and the read loop ends there, the remaining packets unread. *)
Theorem transient_receive_is_not_an_error
  (st st' st1 : state) (avctx : AVCodecContext) (packet : AVPacket)
  (q' q1 : list received) (evs : list event) (ret : Z)
  (out : option received)
  (Hsend : 0 <= send_ret packet)
  (Hturns : turns st (pending avctx ++ decoded packet) st' q' evs)
  (Halloc : av_frame_alloc st' = (true, st1))
  (Hrecv : avcodec_receive_frame (draining avctx || data_null packet) q'
           = (ret, out, q1))
  (Hneg : ret < 0) :
  let avctx1 := mkCtx q1 (draining avctx || data_null packet) in
  (ret = AVERROR EAGAIN \/ ret = AVERROR_EOF ->
   decode_write st avctx packet = (0, st1, avctx1, evs)
   /\ forall rest,
        read_loop (stream_index packet) st avctx (packet :: rest) =
        let '(ret', st2, avctx2, rest', evs') :=
          read_loop (stream_index packet) st1 avctx1 rest in
        (ret', st2, avctx2, rest', evs ++ evs'))
  /\ (ret <> AVERROR EAGAIN -> ret <> AVERROR_EOF ->
      decode_write st avctx packet
      = (ret, st1, avctx1, evs ++ [EvStderr "Error while decoding\n"])
      /\ forall rest,
           read_loop (stream_index packet) st avctx (packet :: rest)
           = (ret, st1, avctx1, rest,
              evs ++ [EvStderr "Error while decoding\n"])).
Proof.
  intros avctx1.
  assert (Hdw : decode_write st avctx packet =
                let '(r, st2, q2, evs') :=
                  receive_loop st' (draining avctx || data_null packet) q' in
                (r, st2, mkCtx q2 (draining avctx || data_null packet),
                 evs ++ evs')).
  { rewrite (decode_write_sent st avctx packet Hsend). cbv zeta.
    rewrite (receive_loop_turns _ _ _ _ _ _ Hturns).
    destruct (receive_loop st' _ q') as [[[r st2] q2] evs']. reflexivity. }
  rewrite receive_loop_eq, Halloc, Hrecv in Hdw. cbn [negb] in Hdw.
  split.
  - intros Ht.
    assert (E : (ret =? AVERROR EAGAIN) || (ret =? AVERROR_EOF) = true).
    { destruct Ht as [-> | ->]; [| rewrite orb_true_iff; right];
        try apply Z.eqb_refl. rewrite Z.eqb_refl. reflexivity. }
    rewrite E, app_nil_r in Hdw. split; [exact Hdw |].
    intros rest. rewrite read_loop_video, Hdw. reflexivity.
  - intros Hn1 Hn2.
    assert (E1 : (ret =? AVERROR EAGAIN) = false) by (apply Z.eqb_neq; exact Hn1).
    assert (E2 : (ret =? AVERROR_EOF) = false) by (apply Z.eqb_neq; exact Hn2).
    assert (E3 : (ret <? 0) = true) by (apply Z.ltb_lt; exact Hneg).
    rewrite E1, E2, E3 in Hdw. cbn [orb] in Hdw. split; [exact Hdw |].
    intros rest. rewrite read_loop_video, Hdw.
    assert (E4 : (ret >=? 0) = false) by (rewrite Z.geb_leb; apply Z.leb_gt; exact Hneg).
    rewrite E4. reflexivity.
Qed.

(** *** Format negotiation *)

(** A configuration matches when bit 0 of its methods (the device-context
    method) is set and its device type is the one asked for. *)
Lemma hw_config_matches_spec (type : Z) (c : AVCodecHWConfig) :
  hw_config_matches type c = true
  <-> Z.testbit (methods c) 0 = true /\ device_type c = type.
Proof.
  unfold hw_config_matches, AV_CODEC_HW_CONFIG_METHOD_HW_DEVICE_CTX.
  rewrite andb_true_iff, negb_true_iff, Z.eqb_eq, Z.eqb_neq.
  change 1 with (Z.ones 1). rewrite Z.land_ones by lia.
  change (2 ^ 1) with 2. rewrite <- Z.bit0_mod.
  destruct (Z.testbit (methods c) 0); cbn [Z.b2z]; split; intros [H1 H2];
    split; try exact H2.
  - reflexivity.
  - discriminate.
  - exfalso. apply H1. reflexivity.
  - discriminate H1.
Qed.

Lemma scan_hw_configs_first (type : Z) (pre post : list AVCodecHWConfig)
      (c : AVCodecHWConfig) :
  Forall (fun c' => hw_config_matches type c' = false) pre ->
  hw_config_matches type c = true ->
  scan_hw_configs type (pre ++ c :: post) = Some (pix_fmt c).
Proof.
  intros Hpre Hc. induction Hpre as [|c' pre Hc' _ IH]; simpl.
  - rewrite Hc. reflexivity.
  - rewrite Hc'. exact IH.
Qed.

Lemma scan_hw_configs_none (type : Z) (configs : list AVCodecHWConfig) :
  Forall (fun c' => hw_config_matches type c' = false) configs ->
  scan_hw_configs type configs = None.
Proof.
  induction 1 as [|c' l Hc' _ IH]; simpl; [reflexivity |].
  rewrite Hc'. exact IH.
Qed.

(** The set-up of a pass up to the negotiation. *)
Lemma open_pass_negotiates (env : environment) (type : Z) (o : options)
      (pe : pass_env) (st : state) (code : Z) (evs : list event) :
  open_input_ret pe = 0 ->
  0 <= find_stream_info_ret pe ->
  0 <= find_best_stream_ret pe ->
  negotiate env type (best_decoder pe) st = Leave code evs ->
  open_pass env type o pe st = Leave code (EvOpenInput (in_file o) :: evs).
Proof.
  intros H1 H2 H3 Hn. unfold open_pass, bind, emit, leave_if.
  rewrite H1. cbn [Z.eqb negb].
  assert (E2 : (find_stream_info_ret pe <? 0) = false) by (apply Z.ltb_ge; lia).
  assert (E3 : (find_best_stream_ret pe <? 0) = false) by (apply Z.ltb_ge; lia).
  rewrite E2, E3, Hn. reflexivity.
Qed.

(** C5: for a decoder whose id is H264 the negotiation does not look at the
    configurations: it yields the decoder found under the name
    h264_v4l2m2m and the format [AV_PIX_FMT_DRM_PRIME].  For any other
    decoder it yields the pixel format of the first configuration that has
    the device-context method and the device type asked for, whatever stands
    before it; and when no configuration qualifies it fails, [main]
    returning -1 from that pass. *)
Theorem format_negotiation (env : environment) (type : Z) (st : state) :
  (forall decoder d,
      id decoder = AV_CODEC_ID_H264 ->
      m2m_decoder env = Some d ->
      negotiate env type decoder st
      = Go (d, set_hw_pix_fmt AV_PIX_FMT_DRM_PRIME st) [])
  /\ (forall decoder pre c post,
         id decoder <> AV_CODEC_ID_H264 ->
         hw_configs decoder = pre ++ c :: post ->
         Forall (fun c' => hw_config_matches type c' = false) pre ->
         hw_config_matches type c = true ->
         negotiate env type decoder st
         = Go (decoder, set_hw_pix_fmt (pix_fmt c) st) [])
  /\ (forall decoder,
         id decoder <> AV_CODEC_ID_H264 ->
         Forall (fun c' => hw_config_matches type c' = false)
                (hw_configs decoder) ->
         negotiate env type decoder st
         = Leave (-1)
                 [EvStderr "Decoder %s does not support device type %s.\n"]
         /\ forall fuel o count i,
              best_decoder (pass env i) = decoder ->
              open_input_ret (pass env i) = 0 ->
              0 <= find_stream_info_ret (pass env i) ->
              0 <= find_best_stream_ret (pass env i) ->
              main_loop (S fuel) env type o count i st
              = (Returned (-1),
                 [[EvOpenInput (in_file o);
                   EvStderr "Decoder %s does not support device type %s.\n"]],
                 [])).
Proof.
  split; [| split].
  - intros decoder d Hid Hm. unfold negotiate.
    rewrite Hid, Z.eqb_refl, Hm. reflexivity.
  - intros decoder pre c post Hid Hcfg Hpre Hc. unfold negotiate.
    apply Z.eqb_neq in Hid. rewrite Hid, Hcfg.
    rewrite (scan_hw_configs_first type pre post c Hpre Hc). reflexivity.
  - intros decoder Hid Hnone.
    assert (Hneg : negotiate env type decoder st
                   = Leave (-1)
                       [EvStderr "Decoder %s does not support device type %s.\n"]).
    { unfold negotiate. apply Z.eqb_neq in Hid.
      rewrite Hid, (scan_hw_configs_none type _ Hnone). reflexivity. }
    split; [exact Hneg |].
    intros fuel o count i Hdec H1 H2 H3. cbn [main_loop].
    unfold playback_pass, bind.
    rewrite <- Hdec in Hneg.
    rewrite (open_pass_negotiates env type o (pass env i) st _ _ H1 H2 H3 Hneg).
    reflexivity.
Qed.

(** *** Set-up and teardown of a pass *)

Lemma negotiate_ok (env : environment) (type : Z) (decoder : AVCodec)
      (st : state) :
  negotiable env type decoder = true ->
  exists d p, negotiate env type decoder st = Go (d, set_hw_pix_fmt p st) [].
Proof.
  unfold negotiable, negotiate.
  destruct (id decoder =? AV_CODEC_ID_H264).
  - destruct (m2m_decoder env) as [d|]; [| discriminate].
    intros _. exists d, AV_PIX_FMT_DRM_PRIME. reflexivity.
  - destruct (scan_hw_configs type (hw_configs decoder)) as [p|];
      [| discriminate].
    intros _. exists decoder, p. reflexivity.
Qed.

Lemma open_pass_ok (env : environment) (type : Z) (o : options)
      (pe : pass_env) (st : state) :
  setup_ok env type pe = true ->
  exists p,
    open_pass env type o pe st
    = Go (find_best_stream_ret pe, set_hw_pix_fmt p st)
         [EvOpenInput (in_file o); EvHwDeviceCreate; EvCodecOpen].
Proof.
  unfold setup_ok. rewrite !andb_true_iff, !Z.geb_leb, !Z.leb_le, Z.eqb_eq.
  intros [[[[[[[H1 H2] H3] Hn] Ha] H4] H5] H6].
  destruct (negotiate_ok env type (best_decoder pe) st Hn) as [d [p Hneg]].
  exists p. unfold open_pass, bind, emit, leave_if, hw_decoder_init.
  rewrite H1, Hneg, Ha. cbn [Z.eqb negb].
  assert (E2 : (find_stream_info_ret pe <? 0) = false) by (apply Z.ltb_ge; lia).
  assert (E3 : (find_best_stream_ret pe <? 0) = false) by (apply Z.ltb_ge; lia).
  assert (E4 : (parameters_to_context_ret pe <? 0) = false)
    by (apply Z.ltb_ge; lia).
  assert (E5 : (hwdevice_ctx_create_ret pe <? 0) = false)
    by (apply Z.ltb_ge; lia).
  assert (E6 : (open2_ret pe <? 0) = false) by (apply Z.ltb_ge; lia).
  rewrite E2, E3, E4, E5, E6. reflexivity.
Qed.

(** The events of the set-up and those of the decode steps. *)
Lemma open_pass_events (env : environment) (type : Z) (o : options)
      (pe : pass_env) (st : state) :
  match open_pass env type o pe st with
  | Go _ evs | Leave _ evs => forallb is_setup evs = true
  end.
Proof.
  unfold open_pass, bind, emit, leave_if, hw_decoder_init, negotiate.
  destruct (negb (open_input_ret pe =? 0)); [reflexivity |].
  destruct (find_stream_info_ret pe <? 0); [reflexivity |].
  destruct (find_best_stream_ret pe <? 0); [reflexivity |].
  destruct (id (best_decoder pe) =? AV_CODEC_ID_H264).
  - destruct (m2m_decoder env); [| reflexivity].
    destruct (negb (alloc_context_ok pe)); [reflexivity |].
    destruct (parameters_to_context_ret pe <? 0); [reflexivity |].
    destruct (hwdevice_ctx_create_ret pe <? 0); [reflexivity |].
    destruct (open2_ret pe <? 0); reflexivity.
  - destruct (scan_hw_configs type (hw_configs (best_decoder pe)));
      [| reflexivity].
    destruct (negb (alloc_context_ok pe)); [reflexivity |].
    destruct (parameters_to_context_ret pe <? 0); [reflexivity |].
    destruct (hwdevice_ctx_create_ret pe <? 0); [reflexivity |].
    destruct (open2_ret pe <? 0); reflexivity.
Qed.

Lemma write_frame_events (tmp : AVFrame) (r : received) :
  forallb is_decode (snd (write_frame tmp r)) = true.
Proof.
  unfold write_frame. destruct (negb (malloc_ok r)); [reflexivity |].
  destruct (copy_ret r <? 0); [reflexivity |].
  destruct (int_of_size_t (fwrite_ret r) <? 0); reflexivity.
Qed.

Lemma dump_events (st : state) (r : received) :
  forallb is_decode (snd (dump st r)) = true.
Proof.
  unfold dump. destruct (format (frame r) =? hw_pix_fmt st).
  - destruct (transfer_ret r <? 0); [reflexivity |].
    apply write_frame_events.
  - apply write_frame_events.
Qed.

Lemma dispatch_events (st : state) (r : received) :
  forallb is_decode (snd (dispatch st r)) = true.
Proof.
  unfold dispatch.
  assert (H : forallb is_decode
                (snd (if output_file st then dump st r
                      else (Next (receive_ret r), []))) = true).
  { destruct (output_file st); [apply dump_events | reflexivity]. }
  destruct (if output_file st then dump st r else (Next (receive_ret r), []))
    as [fl evs].
  cbn [snd] in H. destruct fl as [ret | ret].
  - destruct (frames st =? 0); [exact H |].
    destruct (frames (set_frames (long_dec (frames st)) st) =? 0); exact H.
  - exact H.
Qed.

Lemma receive_loop_events (drain : bool) (q : list received) (st : state) :
  forallb is_decode (snd (receive_loop st drain q)) = true.
Proof.
  revert st. induction q as [|r q IH]; intros st; cbn [receive_loop];
    destruct (av_frame_alloc st) as [[|] st1]; cbn [negb]; try reflexivity.
  destruct ((receive_ret r =? AVERROR EAGAIN) || (receive_ret r =? AVERROR_EOF));
    [reflexivity |].
  destruct (receive_ret r <? 0); [reflexivity |].
  pose proof (dispatch_events st1 r) as Hd.
  destruct (dispatch st1 r) as [[ret st2] evs]. cbn [snd] in Hd.
  destruct (ret <? 0); [exact Hd |].
  specialize (IH st2).
  destruct (receive_loop st2 drain q) as [[[ret' st3] q3] evs'].
  cbn [snd] in *. rewrite forallb_app, Hd, IH. reflexivity.
Qed.

Lemma decode_write_events (st : state) (avctx : AVCodecContext)
      (packet : AVPacket) :
  forallb is_decode (snd (decode_write st avctx packet)) = true.
Proof.
  unfold decode_write.
  destruct (avcodec_send_packet avctx packet) as [ret avctx1].
  destruct (ret <? 0); [reflexivity |].
  pose proof (receive_loop_events (draining avctx1) (pending avctx1) st) as H.
  destruct (receive_loop st (draining avctx1) (pending avctx1))
    as [[[ret' st'] q] evs].
  exact H.
Qed.

Lemma read_loop_events (video_stream : Z) (pkts : list AVPacket)
      (st : state) (avctx : AVCodecContext) :
  forallb is_decode (snd (read_loop video_stream st avctx pkts)) = true.
Proof.
  revert st avctx. induction pkts as [|packet rest IH]; intros st avctx;
    cbn [read_loop]; [reflexivity |].
  assert (H : forallb is_decode
                (snd (if video_stream =? stream_index packet
                      then decode_write st avctx packet
                      else (0, st, avctx, []))) = true).
  { destruct (video_stream =? stream_index packet);
      [apply decode_write_events | reflexivity]. }
  destruct (if video_stream =? stream_index packet
            then decode_write st avctx packet else (0, st, avctx, []))
    as [[[ret st1] avctx1] evs].
  cbn [snd] in H. destruct (ret >=? 0); [| exact H].
  specialize (IH st1 avctx1).
  destruct (read_loop video_stream st1 avctx1 rest)
    as [[[[ret' st2] avctx2] rest'] evs'].
  cbn [snd] in *. rewrite forallb_app, H, IH. reflexivity.
Qed.

(** Events of one kind are none of another. *)
Lemma forallb_existsb_false (p q : event -> bool) (evs : list event) :
  (forall e, p e = true -> q e = false) ->
  forallb p evs = true -> existsb q evs = false.
Proof.
  intros Hpq. induction evs as [|e evs IH]; [reflexivity |].
  cbn [forallb existsb]. rewrite andb_true_iff. intros [He Hevs].
  rewrite (Hpq e He), (IH Hevs). reflexivity.
Qed.

Lemma setup_no_teardown (evs : list event) :
  forallb is_setup evs = true -> existsb is_teardown evs = false.
Proof.
  apply forallb_existsb_false. intros [] H; try reflexivity; discriminate H.
Qed.

Lemma decode_no_teardown (evs : list event) :
  forallb is_decode evs = true -> existsb is_teardown evs = false.
Proof.
  apply forallb_existsb_false. intros [] H; try reflexivity; discriminate H.
Qed.

Lemma setup_no_display (evs : list event) :
  forallb is_setup evs = true -> frames_dispatched evs = O.
Proof.
  unfold frames_dispatched. induction evs as [|e evs IH]; [reflexivity |].
  cbn [forallb filter]. rewrite andb_true_iff. intros [He Hevs].
  destruct e; try discriminate He; exact (IH Hevs).
Qed.

(** The events of the two decode steps of a pass, and the variables they
    leave alone. *)
Lemma decode_pass_shape (o : options) (pe : pass_env) (video_stream : Z)
      (st : state) :
  exists body,
    snd (decode_pass o pe video_stream st)
    = body ++ (if output_file (fst (decode_pass o pe video_stream st))
               then [EvFclose] else [])
           ++ [EvFreeContext; EvCloseInput; EvBufferUnref]
    /\ forallb is_decode body = true.
Proof.
  unfold decode_pass.
  pose proof (read_loop_events video_stream (packets pe)
                (set_frames (frame_count o) st) (mkCtx [] false)) as Hr.
  destruct (read_loop video_stream (set_frames (frame_count o) st)
              (mkCtx [] false) (packets pe))
    as [[[[ret st1] avctx] rest] evs_read].
  pose proof (decode_write_events st1 avctx (flush_packet pe)) as Hf.
  destruct (decode_write st1 avctx (flush_packet pe))
    as [[[ret' st2] avctx'] evs_flush].
  cbn [snd fst] in *. exists (evs_read ++ evs_flush). split.
  - rewrite <- !app_assoc. reflexivity.
  - rewrite forallb_app, Hr, Hf. reflexivity.
Qed.

Lemma decode_pass_teardown (o : options) (pe : pass_env) (video_stream : Z)
      (st : state) :
  exists body,
    snd (decode_pass o pe video_stream st)
    = body ++ [EvFreeContext; EvCloseInput; EvBufferUnref]
    /\ existsb is_teardown body = false.
Proof.
  destruct (decode_pass_shape o pe video_stream st) as [body [Hb Hd]].
  exists (body ++ (if output_file (fst (decode_pass o pe video_stream st))
                   then [EvFclose] else [])).
  split.
  - rewrite Hb, <- app_assoc. reflexivity.
  - rewrite existsb_app, (decode_no_teardown body Hd).
    destruct (output_file (fst (decode_pass o pe video_stream st)));
      reflexivity.
Qed.

(** *** The passes of a run *)

Lemma playback_pass_ok (env : environment) (type : Z) (o : options)
      (pe : pass_env) (st : state) :
  setup_ok env type pe = true ->
  exists st' evs,
    playback_pass env type o pe st = Go st' evs /\ In EvCloseInput evs.
Proof.
  intros Hok. destruct (open_pass_ok env type o pe st Hok) as [p Hopen].
  unfold playback_pass, bind. rewrite Hopen.
  destruct (decode_pass_teardown o pe (find_best_stream_ret pe)
                                 (set_hw_pix_fmt p st)) as [body [Hb _]].
  destruct (decode_pass o pe (find_best_stream_ret pe) (set_hw_pix_fmt p st))
    as [st2 evs].
  cbn [snd] in Hb. subst evs. exists st2. eexists. split; [reflexivity |].
  rewrite !in_app_iff. right. right. simpl. auto.
Qed.

Lemma main_loop_passes (env : environment) (type : Z) (o : options) :
  forall (fuel : nat) (count : Z) (i : nat) (st : state),
    LONG_MIN < count <= LONG_MAX ->
    (forall j, (i <= j < i + Z.to_nat (Z.max count 1))%nat ->
               setup_ok env type (pass env j) = true) ->
    (Z.to_nat (Z.max count 1) <= fuel)%nat ->
    exists ps,
      main_loop fuel env type o count i st = (Returned 0, ps, [EvOutDelete])
      /\ List.length ps = Z.to_nat (Z.max count 1)
      /\ Forall (fun evs => In EvCloseInput evs) ps.
Proof.
  induction fuel as [|fuel IH]; intros count i st Hrange Hsetup Hfuel.
  - exfalso. lia.
  - cbn [main_loop].
    destruct (playback_pass_ok env type o (pass env i) st) as [st' [evs [Hp Hin]]].
    { apply Hsetup. lia. }
    rewrite Hp, (long_dec_in_range count Hrange).
    destruct (count - 1 >? 0) eqn:Hcount.
    + rewrite Z.gtb_ltb in Hcount. apply Z.ltb_lt in Hcount.
      destruct (IH (count - 1) (S i) st') as [ps [Hloop [Hlen Hall]]].
      * unfold LONG_MIN, LONG_MAX in *. lia.
      * intros j Hj. apply Hsetup. lia.
      * lia.
      * rewrite Hloop. exists (evs :: ps). split; [reflexivity |].
        split; [cbn [List.length]; lia | constructor; assumption].
    + rewrite Z.gtb_ltb in Hcount. apply Z.ltb_ge in Hcount.
      exists [evs]. split; [reflexivity |].
      split; [cbn [List.length]; lia | constructor; [assumption | constructor]].
Qed.


(** *** The frame budget *)

Lemma frames_dispatched_app (a b : list event) :
  frames_dispatched (a ++ b) = (frames_dispatched a + frames_dispatched b)%nat.
Proof. unfold frames_dispatched. rewrite filter_app, length_app. reflexivity. Qed.

Lemma av_frame_alloc_frames (st : state) :
  frames (snd (av_frame_alloc st)) = frames st.
Proof. unfold av_frame_alloc. destruct (frame_allocs st); reflexivity. Qed.

(** What the block under [if (output_file != NULL)] ends with. *)
Lemma write_frame_flow (tmp : AVFrame) (r : received) :
  match write_frame tmp r with
  | (Fail ret, evs) => ret < 0 /\ frames_dispatched evs = O
  | (Next ret, evs) => 0 <= ret /\ frames_dispatched evs = O
  end.
Proof.
  unfold write_frame. destruct (negb (malloc_ok r)).
  - split; reflexivity.
  - destruct (copy_ret r <? 0) eqn:Ec.
    + apply Z.ltb_lt in Ec. split; [exact Ec | reflexivity].
    + destruct (int_of_size_t (fwrite_ret r) <? 0) eqn:Ew.
      * apply Z.ltb_lt in Ew. split; [exact Ew | reflexivity].
      * apply Z.ltb_ge in Ew. split; [exact Ew | reflexivity].
Qed.

Lemma dump_flow (st : state) (r : received) :
  match dump st r with
  | (Fail ret, evs) => ret < 0 /\ frames_dispatched evs = O
  | (Next ret, evs) => 0 <= ret /\ frames_dispatched evs = O
  end.
Proof.
  unfold dump. destruct (format (frame r) =? hw_pix_fmt st).
  - destruct (transfer_ret r <? 0) eqn:Et.
    + apply Z.ltb_lt in Et. split; [exact Et | reflexivity].
    + apply write_frame_flow.
  - apply write_frame_flow.
Qed.

Lemma within_budget_idle (f ret : Z) :
  0 < f -> within_budget f f O ret.
Proof. unfold within_budget. intros. lia. Qed.

Lemma within_budget_trans (f f2 f3 : Z) (d1 d2 : nat) (ret1 ret2 : Z) :
  within_budget f f2 d1 ret1 -> 0 <= ret1 ->
  within_budget f2 f3 d2 ret2 ->
  within_budget f f3 (d1 + d2) ret2.
Proof. unfold within_budget. intros. lia. Qed.

Lemma dispatch_budget (st : state) (r : received) :
  0 < frames st <= LONG_MAX ->
  0 <= receive_ret r ->
  let '(ret, st', evs) := dispatch st r in
  within_budget (frames st) (frames st') (frames_dispatched evs) ret.
Proof.
  intros Hf Hr. unfold dispatch.
  assert (Hfl : match (if output_file st then dump st r
                       else (Next (receive_ret r), [])) with
                | (Fail ret, evs) => ret < 0 /\ frames_dispatched evs = O
                | (Next ret, evs) => 0 <= ret /\ frames_dispatched evs = O
                end).
  { destruct (output_file st); [apply dump_flow | split; [exact Hr | reflexivity]]. }
  destruct (if output_file st then dump st r else (Next (receive_ret r), []))
    as [[ret | ret] evs]; destruct Hfl as [Hret Hd].
  - assert (E : (frames st =? 0) = false) by (apply Z.eqb_neq; lia).
    rewrite E. cbn [frames set_frames].
    rewrite long_dec_in_range by (pose proof LONG_MIN_neg; lia).
    destruct (frames st - 1 =? 0) eqn:E1.
    + apply Z.eqb_eq in E1. unfold within_budget, frames_dispatched in *.
      cbn [filter is_display List.length frames set_frames]. lia.
    + apply Z.eqb_neq in E1. unfold within_budget, frames_dispatched in *.
      cbn [filter is_display List.length frames set_frames]. lia.
  - unfold within_budget, frames_dispatched in *.
    cbn [filter is_display List.length]. lia.
Qed.

Lemma receive_loop_budget (drain : bool) (q : list received) :
  forall st,
    0 < frames st <= LONG_MAX ->
    let '(ret, st', _, evs) := receive_loop st drain q in
    within_budget (frames st) (frames st') (frames_dispatched evs) ret.
Proof.
  induction q as [|r q IH]; intros st Hf; cbn [receive_loop];
    pose proof (av_frame_alloc_frames st) as Ha;
    destruct (av_frame_alloc st) as [[|] st1]; cbn [negb snd] in *;
    try (rewrite Ha; apply within_budget_idle; lia).
  destruct ((receive_ret r =? AVERROR EAGAIN) || (receive_ret r =? AVERROR_EOF));
    [rewrite Ha; apply within_budget_idle; lia |].
  destruct (receive_ret r <? 0) eqn:Er;
    [rewrite Ha; apply within_budget_idle; lia |].
  apply Z.ltb_ge in Er.
  pose proof (dispatch_budget st1 r) as Hd. rewrite Ha in Hd.
  specialize (Hd Hf Er).
  destruct (dispatch st1 r) as [[ret st2] evs].
  destruct (ret <? 0) eqn:Eret; [exact Hd |].
  apply Z.ltb_ge in Eret.
  specialize (IH st2).
  destruct (receive_loop st2 drain q) as [[[ret' st3] q3] evs'].
  rewrite frames_dispatched_app.
  apply (within_budget_trans _ _ _ _ _ _ _ Hd Eret). apply IH.
  unfold within_budget in Hd. lia.
Qed.

Lemma decode_write_budget (st : state) (avctx : AVCodecContext)
      (packet : AVPacket) :
  0 < frames st <= LONG_MAX ->
  let '(ret, st', _, evs) := decode_write st avctx packet in
  within_budget (frames st) (frames st') (frames_dispatched evs) ret.
Proof.
  intros Hf. unfold decode_write.
  destruct (avcodec_send_packet avctx packet) as [ret avctx1].
  destruct (ret <? 0); [apply within_budget_idle; lia |].
  pose proof (receive_loop_budget (draining avctx1) (pending avctx1) st Hf) as H.
  destruct (receive_loop st (draining avctx1) (pending avctx1))
    as [[[ret' st'] q] evs].
  exact H.
Qed.

Lemma read_loop_budget (video_stream : Z) (pkts : list AVPacket) :
  forall st avctx,
    0 < frames st <= LONG_MAX ->
    let '(ret, st', _, _, evs) := read_loop video_stream st avctx pkts in
    within_budget (frames st) (frames st') (frames_dispatched evs) ret.
Proof.
  induction pkts as [|packet rest IH]; intros st avctx Hf; cbn [read_loop].
  - apply within_budget_idle. lia.
  - assert (H : let '(ret, st', _, evs) :=
                  (if video_stream =? stream_index packet
                   then decode_write st avctx packet
                   else (0, st, avctx, [])) in
                within_budget (frames st) (frames st')
                              (frames_dispatched evs) ret).
    { destruct (video_stream =? stream_index packet);
        [apply decode_write_budget; exact Hf | apply within_budget_idle; lia]. }
    destruct (if video_stream =? stream_index packet
              then decode_write st avctx packet else (0, st, avctx, []))
      as [[[ret st1] avctx1] evs].
    destruct (ret >=? 0) eqn:Eret; [| exact H].
    rewrite Z.geb_leb in Eret. apply Z.leb_le in Eret.
    specialize (IH st1 avctx1).
    destruct (read_loop video_stream st1 avctx1 rest)
      as [[[[ret' st2] avctx2] rest'] evs'].
    rewrite frames_dispatched_app.
    apply (within_budget_trans _ _ _ _ _ _ _ H Eret). apply IH.
    unfold within_budget in H. lia.
Qed.

Lemma dispatch_spent (st : state) (r : received) :
  frames st = 0 ->
  let '(ret, st', evs) := dispatch st r in
  ret < 0 /\ frames st' = 0 /\ frames_dispatched evs = 1%nat.
Proof.
  intros Hf. unfold dispatch.
  assert (Hfl : match (if output_file st then dump st r
                       else (Next (receive_ret r), [])) with
                | (Fail ret, evs) => ret < 0 /\ frames_dispatched evs = O
                | (Next ret, evs) => frames_dispatched evs = O
                end).
  { destruct (output_file st); [| reflexivity].
    pose proof (dump_flow st r) as H.
    destruct (dump st r) as [[ret | ret] evs]; [apply H | exact H]. }
  destruct (if output_file st then dump st r else (Next (receive_ret r), []))
    as [[ret | ret] evs].
  - rewrite Hf. cbn [Z.eqb]. unfold frames_dispatched in *.
    cbn [filter is_display List.length]. split; [lia | split; [exact Hf | lia]].
  - destruct Hfl as [Hret Hd]. unfold frames_dispatched in *.
    cbn [filter is_display List.length].
    split; [exact Hret | split; [exact Hf | lia]].
Qed.

Lemma receive_loop_spent (drain : bool) (q : list received) (st : state) :
  frames st = 0 ->
  let '(ret, st', _, evs) := receive_loop st drain q in
  spent (frames st') (frames_dispatched evs) ret.
Proof.
  intros Hf. pose proof (av_frame_alloc_frames st) as Ha.
  destruct q as [|r q]; cbn [receive_loop];
    destruct (av_frame_alloc st) as [[|] st1]; cbn [negb snd] in *;
    try (unfold spent, frames_dispatched; cbn [filter is_display List.length];
         lia).
  destruct ((receive_ret r =? AVERROR EAGAIN) || (receive_ret r =? AVERROR_EOF));
    [unfold spent, frames_dispatched; cbn [filter List.length]; lia |].
  destruct (receive_ret r <? 0);
    [unfold spent, frames_dispatched; cbn [filter is_display List.length];
     lia |].
  pose proof (dispatch_spent st1 r) as Hd. rewrite Ha, Hf in Hd.
  specialize (Hd eq_refl).
  destruct (dispatch st1 r) as [[ret st2] evs]. destruct Hd as [Hret [Hf2 Hd]].
  assert (E : (ret <? 0) = true) by (apply Z.ltb_lt; exact Hret).
  rewrite E. unfold spent. lia.
Qed.

Lemma decode_write_spent (st : state) (avctx : AVCodecContext)
      (packet : AVPacket) :
  frames st = 0 ->
  let '(ret, st', _, evs) := decode_write st avctx packet in
  spent (frames st') (frames_dispatched evs) ret.
Proof.
  intros Hf. unfold decode_write.
  destruct (avcodec_send_packet avctx packet) as [ret avctx1].
  destruct (ret <? 0).
  - unfold spent, frames_dispatched. cbn [filter is_display List.length].
    lia.
  - pose proof (receive_loop_spent (draining avctx1) (pending avctx1) st Hf)
      as H.
    destruct (receive_loop st (draining avctx1) (pending avctx1))
      as [[[ret' st'] q] evs].
    exact H.
Qed.

Lemma read_loop_spent (video_stream : Z) (pkts : list AVPacket) :
  forall st avctx,
    frames st = 0 ->
    let '(ret, st', _, _, evs) := read_loop video_stream st avctx pkts in
    frames st' = 0 /\ (frames_dispatched evs <= 1)%nat.
Proof.
  induction pkts as [|packet rest IH]; intros st avctx Hf; cbn [read_loop].
  - split; [exact Hf | unfold frames_dispatched; cbn [filter List.length]; lia].
  - assert (H : let '(ret, st', _, evs) :=
                  (if video_stream =? stream_index packet
                   then decode_write st avctx packet
                   else (0, st, avctx, [])) in
                spent (frames st') (frames_dispatched evs) ret).
    { destruct (video_stream =? stream_index packet);
        [apply decode_write_spent; exact Hf |].
      unfold spent, frames_dispatched. cbn [filter List.length]. lia. }
    destruct (if video_stream =? stream_index packet
              then decode_write st avctx packet else (0, st, avctx, []))
      as [[[ret st1] avctx1] evs].
    destruct H as [Hf1 [Hd Hz]].
    destruct (ret >=? 0) eqn:Eret; [| split; assumption].
    rewrite Z.geb_leb in Eret. apply Z.leb_le in Eret.
    specialize (IH st1 avctx1 Hf1).
    destruct (read_loop video_stream st1 avctx1 rest)
      as [[[[ret' st2] avctx2] rest'] evs'].
    rewrite frames_dispatched_app, (Hz Eret). exact IH.
Qed.

(** The frames a pass displays in its read loop, and in all. *)
Lemma decode_pass_budget (o : options) (pe : pass_env) (video_stream : Z)
      (st : state) :
  0 <= frame_count o <= LONG_MAX ->
  Z.of_nat (frames_dispatched
              (snd (read_loop video_stream (set_frames (frame_count o) st)
                              (mkCtx [] false) (packets pe))))
  <= Z.max (frame_count o) 1
  /\ Z.of_nat (frames_dispatched (snd (decode_pass o pe video_stream st)))
     <= Z.max (frame_count o) 1 + 1.
Proof.
  intros Hk. unfold decode_pass.
  assert (Hread :
            let '(ret, st', _, _, evs) :=
              read_loop video_stream (set_frames (frame_count o) st)
                        (mkCtx [] false) (packets pe) in
            0 <= frames st' <= LONG_MAX
            /\ Z.of_nat (frames_dispatched evs) <= Z.max (frame_count o) 1
            /\ Z.of_nat (frames_dispatched evs) + frames st'
               <= Z.max (frame_count o) 1 + 1).
  { destruct (Z.eq_dec (frame_count o) 0) as [E0 | Hpos].
    - pose proof (read_loop_spent video_stream (packets pe)
                    (set_frames (frame_count o) st) (mkCtx [] false) E0) as H.
      destruct (read_loop video_stream (set_frames (frame_count o) st)
                  (mkCtx [] false) (packets pe))
        as [[[[ret st1] avctx] rest] evs].
      destruct H as [Hf Hd]. rewrite Hf. pose proof LONG_MAX_pos. lia.
    - pose proof (read_loop_budget video_stream (packets pe)
                    (set_frames (frame_count o) st) (mkCtx [] false)) as H.
      cbn [frames set_frames] in H.
      assert (Hk' : 0 < frame_count o <= LONG_MAX) by lia.
      specialize (H Hk').
      destruct (read_loop video_stream (set_frames (frame_count o) st)
                  (mkCtx [] false) (packets pe))
        as [[[[ret st1] avctx] rest] evs].
      unfold within_budget in H. lia. }
  destruct (read_loop video_stream (set_frames (frame_count o) st)
              (mkCtx [] false) (packets pe))
    as [[[[ret st1] avctx] rest] evs_read].
  destruct Hread as [Hf1 [Hd1 Hsum]]. cbn [snd]. split; [exact Hd1 |].
  assert (Hflush :
            let '(_, _, _, evs) :=
              decode_write st1 avctx (flush_packet pe) in
            Z.of_nat (frames_dispatched evs) <= Z.max (frames st1) 1).
  { destruct (Z.eq_dec (frames st1) 0) as [E0 | Hpos].
    - pose proof (decode_write_spent st1 avctx (flush_packet pe)
                    E0) as H.
      destruct (decode_write st1 avctx (flush_packet pe))
        as [[[ret' st2] avctx'] evs].
      unfold spent in H. lia.
    - pose proof (decode_write_budget st1 avctx
                    (flush_packet pe)) as H.
      assert (Hf1' : 0 < frames st1 <= LONG_MAX) by lia.
      specialize (H Hf1').
      destruct (decode_write st1 avctx (flush_packet pe))
        as [[[ret' st2] avctx'] evs].
      unfold within_budget in H. lia. }
  destruct (decode_write st1 avctx (flush_packet pe))
    as [[[ret' st2] avctx'] evs_flush].
  cbn [snd]. rewrite !frames_dispatched_app.
  assert (Htail : frames_dispatched
                    ((if output_file st2 then [EvFclose] else [])
                     ++ [EvFreeContext; EvCloseInput; EvBufferUnref]) = O).
  { destruct (output_file st2); reflexivity. }
  rewrite <- frames_dispatched_app, Htail. lia.
Qed.

(** The bound on the frames of a pass that holds on the code: with a frame
    budget [K >= 1] the read loop displays at most [K] frames and the whole
    pass, flush included, at most [K + 1]; with the budget 0 the read loop
    displays at most one frame and the pass at most two. *)
Theorem frames_of_a_pass_within_budget_plus_one
  (env : environment) (type : Z) (o : options) (pe : pass_env) (st : state)
  (Hk : 0 <= frame_count o <= LONG_MAX) :
  (forall video_stream st1,
      Z.of_nat (frames_dispatched
                  (snd (read_loop video_stream
                                  (set_frames (frame_count o) st1)
                                  (mkCtx [] false) (packets pe))))
      <= Z.max (frame_count o) 1)
  /\ match playback_pass env type o pe st with
     | Go _ evs | Leave _ evs =>
         Z.of_nat (frames_dispatched evs) <= Z.max (frame_count o) 1 + 1
     end.
Proof.
  split.
  - intros video_stream st1.
    apply (decode_pass_budget o pe video_stream st1 Hk).
  - unfold playback_pass, bind.
    pose proof (open_pass_events env type o pe st) as Hopen.
    destruct (open_pass env type o pe st) as [[video_stream st1] evs0 | code evs0];
      apply setup_no_display in Hopen.
    + pose proof (decode_pass_budget o pe video_stream st1 Hk) as [_ Hd].
      destruct (decode_pass o pe video_stream st1) as [st2 evs].
      cbn [snd] in Hd. rewrite frames_dispatched_app, Hopen. lia.
    + rewrite Hopen. lia.
Qed.

(** *** Without a frame budget *)

Lemma write_frame_clean (tmp : AVFrame) (r : received) :
  dispatches_cleanly r = true ->
  exists ret evs,
    write_frame tmp r = (Next ret, evs) /\ 0 <= ret
    /\ frames_dispatched evs = O.
Proof.
  unfold dispatches_cleanly. rewrite !andb_true_iff, !Z.leb_le, Z.ltb_lt.
  intros [[[[[Hr Ht] Hm] Hc] Hw] Hw'].
  unfold write_frame. rewrite Hm. cbn [negb].
  assert (Ec : (copy_ret r <? 0) = false) by (apply Z.ltb_ge; exact Hc).
  rewrite Ec, (int_of_size_t_small (fwrite_ret r)) by lia.
  assert (Ew : (fwrite_ret r <? 0) = false) by (apply Z.ltb_ge; exact Hw).
  rewrite Ew. eexists. eexists. split; [reflexivity |].
  split; [exact Hw | reflexivity].
Qed.

Lemma dispatch_unbounded (st : state) (r : received) :
  LONG_MIN < frames st < 0 ->
  dispatches_cleanly r = true ->
  exists ret evs,
    dispatch st r = (ret, set_frames (frames st - 1) st, evs)
    /\ 0 <= ret /\ frames_dispatched evs = 1%nat.
Proof.
  intros Hf Hclean.
  assert (Hfl : exists ret evs,
             (if output_file st then dump st r
              else (Next (receive_ret r), [])) = (Next ret, evs)
             /\ 0 <= ret /\ frames_dispatched evs = O).
  { destruct (output_file st).
    - unfold dump.
      assert (Et : (transfer_ret r <? 0) = false).
      { unfold dispatches_cleanly in Hclean.
        rewrite !andb_true_iff, !Z.leb_le in Hclean. apply Z.ltb_ge.
        destruct Hclean as [[[[[_ H] _] _] _] _]. exact H. }
      rewrite Et.
      destruct (format (frame r) =? hw_pix_fmt st);
        apply write_frame_clean; exact Hclean.
    - exists (receive_ret r), []. split; [reflexivity |].
      unfold dispatches_cleanly in Hclean.
      rewrite !andb_true_iff, !Z.leb_le in Hclean.
      destruct Hclean as [[[[[H _] _] _] _] _].
      split; [exact H | reflexivity]. }
  destruct Hfl as [ret [evs [E [Hret Hd]]]].
  unfold dispatch. rewrite E.
  assert (E0 : (frames st =? 0) = false) by (apply Z.eqb_neq; lia).
  rewrite E0. cbn [frames set_frames].
  rewrite long_dec_in_range by (pose proof LONG_MAX_pos; lia).
  assert (E1 : (frames st - 1 =? 0) = false) by (apply Z.eqb_neq; lia).
  rewrite E1. exists ret, (EvDisplay (frame r) :: evs).
  split; [reflexivity |]. split; [exact Hret |].
  unfold frames_dispatched in *. cbn [filter is_display List.length]. lia.
Qed.

Lemma receive_loop_unbounded (drain : bool) (q : list received) :
  forall st,
    frame_allocs st = [] ->
    frames st < 0 ->
    LONG_MIN + Z.of_nat (List.length q) <= frames st ->
    forallb dispatches_cleanly q = true ->
    exists evs,
      receive_loop st drain q
      = (0, set_frames (frames st - Z.of_nat (List.length q)) st, [], evs)
      /\ frames_dispatched evs = List.length q.
Proof.
  induction q as [|r q IH]; intros st Ha Hneg Hmin Hclean;
    cbn [receive_loop]; unfold av_frame_alloc; rewrite Ha; cbn [negb].
  - exists []. split; [| reflexivity].
    cbn [List.length Z.of_nat]. rewrite Z.sub_0_r.
    destruct st. reflexivity.
  - cbn [forallb] in Hclean. apply andb_true_iff in Hclean.
    destruct Hclean as [Hr Hq]. cbn [List.length] in Hmin.
    assert (Hrecv : 0 <= receive_ret r).
    { unfold dispatches_cleanly in Hr.
      rewrite !andb_true_iff, !Z.leb_le in Hr.
      destruct Hr as [[[[[H _] _] _] _] _]. exact H. }
    assert (E1 : (receive_ret r =? AVERROR EAGAIN) = false).
    { apply Z.eqb_neq. pose proof AVERROR_EAGAIN_neg. lia. }
    assert (E2 : (receive_ret r =? AVERROR_EOF) = false).
    { apply Z.eqb_neq. pose proof AVERROR_EOF_neg. lia. }
    assert (E3 : (receive_ret r <? 0) = false) by (apply Z.ltb_ge; lia).
    rewrite E1, E2, E3. cbn [orb].
    destruct (dispatch_unbounded st r) as [ret [evs [Hd [Hret Hn]]]];
      [lia | exact Hr |].
    rewrite Hd.
    assert (E4 : (ret <? 0) = false) by (apply Z.ltb_ge; exact Hret).
    rewrite E4.
    destruct (IH (set_frames (frames st - 1) st)) as [evs' [Hloop Hn']];
      [exact Ha | cbn [frames set_frames]; lia
       | cbn [frames set_frames]; lia | exact Hq |].
    rewrite Hloop. exists (evs ++ evs'). split.
    + cbn [frames set_frames List.length]. unfold set_frames.
      cbn [hw_pix_fmt output_file frame_allocs].
      replace (frames st - 1 - Z.of_nat (List.length q))
        with (frames st - Z.of_nat (S (List.length q))) by lia.
      reflexivity.
    + rewrite frames_dispatched_app, Hn, Hn'. reflexivity.
Qed.

Lemma set_frames_same (st : state) : set_frames (frames st) st = st.
Proof. destruct st. reflexivity. Qed.

Lemma decode_write_unbounded (st : state) (avctx : AVCodecContext)
      (packet : AVPacket) :
  pending avctx = [] ->
  frame_allocs st = [] ->
  frames st < 0 ->
  LONG_MIN + Z.of_nat (List.length (decoded packet)) <= frames st ->
  decodes_cleanly packet = true ->
  exists avctx' evs,
    decode_write st avctx packet
    = (0, set_frames (frames st - Z.of_nat (List.length (decoded packet))) st,
       avctx', evs)
    /\ pending avctx' = []
    /\ frames_dispatched evs = List.length (decoded packet).
Proof.
  intros Hp Ha Hneg Hmin Hclean. unfold decodes_cleanly in Hclean.
  apply andb_true_iff in Hclean. destruct Hclean as [Hs Hq].
  apply Z.leb_le in Hs. rewrite (decode_write_sent st avctx packet Hs).
  cbv zeta. rewrite Hp. cbn [app].
  destruct (receive_loop_unbounded (draining avctx || data_null packet)
              (decoded packet) st Ha Hneg Hmin Hq) as [evs [Hloop Hn]].
  rewrite Hloop. eexists. exists evs. split; [reflexivity |].
  split; [reflexivity | exact Hn].
Qed.

Lemma read_loop_unbounded (video_stream : Z) (pkts : list AVPacket) :
  forall st avctx,
    pending avctx = [] ->
    frame_allocs st = [] ->
    frames st < 0 ->
    LONG_MIN + Z.of_nat (List.length (video_frames video_stream pkts))
    <= frames st ->
    forallb (fun packet => negb (video_stream =? stream_index packet)
                           || decodes_cleanly packet) pkts = true ->
    exists avctx' evs,
      read_loop video_stream st avctx pkts
      = (AVERROR_EOF,
         set_frames (frames st - Z.of_nat (List.length
                                             (video_frames video_stream pkts)))
                    st,
         avctx', [], evs)
      /\ pending avctx' = []
      /\ frames_dispatched evs
         = List.length (video_frames video_stream pkts).
Proof.
  induction pkts as [|packet rest IH]; intros st avctx Hp Ha Hneg Hmin Hclean;
    cbn [read_loop video_frames flat_map].
  - exists avctx, []. cbn [List.length Z.of_nat]. rewrite Z.sub_0_r.
    rewrite set_frames_same. split; [reflexivity |]. split; [exact Hp | reflexivity].
  - cbn [forallb] in Hclean. apply andb_true_iff in Hclean.
    destruct Hclean as [Hpk Hrest].
    cbn [video_frames flat_map] in Hmin. rewrite length_app in Hmin.
    fold (video_frames video_stream rest) in *.
    destruct (video_stream =? stream_index packet) eqn:Ev.
    + cbn [negb orb] in Hpk.
      destruct (decode_write_unbounded st avctx packet Hp Ha Hneg)
        as [avctx1 [evs [Hdw [Hp1 Hn]]]]; [lia | exact Hpk |].
      rewrite Hdw. cbn [Z.geb Z.compare].
      destruct (IH (set_frames (frames st - Z.of_nat (List.length
                                                        (decoded packet)))
                               st) avctx1)
        as [avctx2 [evs' [Hloop [Hp2 Hn']]]];
        [exact Hp1 | exact Ha | cbn [frames set_frames]; lia
         | cbn [frames set_frames]; lia | exact Hrest |].
      rewrite Hloop. exists avctx2, (evs ++ evs').
      split; [| split; [exact Hp2 |]].
      * cbn [frames set_frames]. unfold set_frames.
        cbn [hw_pix_fmt output_file frame_allocs]. rewrite length_app.
        replace (frames st - Z.of_nat (List.length (decoded packet))
                 - Z.of_nat (List.length (video_frames video_stream rest)))
          with (frames st
                - Z.of_nat (List.length (decoded packet)
                            + List.length (video_frames video_stream rest)))
          by lia.
        reflexivity.
      * rewrite frames_dispatched_app, length_app, Hn, Hn'. reflexivity.
    + cbn [Z.geb Z.compare app List.length] in *.
      destruct (IH st avctx) as [avctx2 [evs' [Hloop [Hp2 Hn']]]];
        [exact Hp | exact Ha | exact Hneg | lia | exact Hrest |].
      rewrite Hloop. exists avctx2, evs'.
      split; [reflexivity | split; [exact Hp2 | exact Hn']].
Qed.

(** With a negative frame budget (the default -1) and every call
    succeeding, a pass displays every frame the decoder gives: those of all
    the packets of the video stream, then those of the flush.  (The budget
    is a [long]: the frames are fewer than it takes to wrap it.) *)
Theorem unbounded_budget_dispatches_every_frame
  (o : options) (pe : pass_env) (video_stream : Z) (st : state)
  (Hk : frame_count o < 0)
  (Hmin : LONG_MIN
          + Z.of_nat (List.length (video_frames video_stream (packets pe))
                      + List.length (flush_decoded pe))
          <= frame_count o)
  (Hallocs : frame_allocs st = [])
  (Hpackets : forallb (fun packet =>
                         negb (video_stream =? stream_index packet)
                         || decodes_cleanly packet) (packets pe) = true)
  (Hflush : decodes_cleanly (flush_packet pe) = true) :
  frames_dispatched (snd (decode_pass o pe video_stream st))
  = (List.length (video_frames video_stream (packets pe))
     + List.length (flush_decoded pe))%nat.
Proof.
  unfold decode_pass.
  destruct (read_loop_unbounded video_stream (packets pe)
              (set_frames (frame_count o) st) (mkCtx [] false))
    as [avctx [evs_read [Hread [Hp Hn]]]];
    [reflexivity | exact Hallocs | exact Hk | cbn [frames set_frames]; lia
     | exact Hpackets |].
  rewrite Hread. cbn [frames set_frames].
  destruct (decode_write_unbounded
              (set_frames (frame_count o
                           - Z.of_nat (List.length
                                         (video_frames video_stream
                                                       (packets pe))))
                          (set_frames (frame_count o) st))
              avctx (flush_packet pe))
    as [avctx' [evs_flush [Hdw [_ Hn']]]];
    [exact Hp | exact Hallocs | cbn [frames set_frames]; lia
     | cbn [frames set_frames flush_packet decoded]; lia | exact Hflush |].
  rewrite Hdw. cbn [snd]. rewrite !frames_dispatched_app, Hn, Hn'.
  cbn [flush_packet decoded].
  assert (Htail : forall b : bool,
             frames_dispatched
               ((if b then [EvFclose] else [])
                ++ [EvFreeContext; EvCloseInput; EvBufferUnref]) = O).
  { intros [|]; reflexivity. }
  rewrite <- frames_dispatched_app, Htail. lia.
Qed.

(** *** The dump *)

(** Whatever count [fwrite] returns for a buffer whose size is an [int], a
    short count and 0 included, the write is taken as done: the block falls
    through with that count in [ret]. *)
Theorem fwrite_count_is_never_an_error (tmp_frame : AVFrame) (r : received)
  (Hmalloc : malloc_ok r = true)
  (Hcopy : 0 <= copy_ret r)
  (Hcount : 0 <= fwrite_ret r
            <= av_image_get_buffer_size (format tmp_frame) (width tmp_frame)
                                        (height tmp_frame) 1)
  (Hsize : av_image_get_buffer_size (format tmp_frame) (width tmp_frame)
                                    (height tmp_frame) 1 < 2 ^ 31) :
  write_frame tmp_frame r
  = (Next (fwrite_ret r),
     [EvFwrite (av_image_get_buffer_size (format tmp_frame) (width tmp_frame)
                                         (height tmp_frame) 1)
               (fwrite_ret r)]).
Proof.
  unfold write_frame. rewrite Hmalloc. cbn [negb].
  assert (Ec : (copy_ret r <? 0) = false) by (apply Z.ltb_ge; exact Hcopy).
  rewrite Ec, (int_of_size_t_small (fwrite_ret r)) by lia.
  assert (Ew : (fwrite_ret r <? 0) = false) by (apply Z.ltb_ge; lia).
  rewrite Ew. reflexivity.
Qed.

(** *** The command line *)

Lemma parse_loop_pos (arg : string) (a1 : list string) (n : Z) (o : options) :
  0 < n ->
  parse_loop (arg :: a1) n o =
  if starts_with_dash arg then
    if String.eqb arg "-l" || String.eqb arg "--loop" then
      if n - 1 =? 0 then ParseUsage
      else
        match a1 with
        | [] => ParseNull
        | v :: a2 =>
            let '(x, e) := strtol v 0 in
            if nonempty e then ParseUsage
            else parse_loop a2 (n - 1 - 1) (set_loop_count x o)
        end
    else if String.eqb arg "-f" || String.eqb arg "--frames" then
      if n - 1 =? 0 then ParseUsage
      else
        match a1 with
        | [] => ParseNull
        | v :: a2 =>
            let '(x, e) := strtol v 0 in
            if nonempty e then ParseUsage
            else parse_loop a2 (n - 1 - 1) (set_frame_count x o)
        end
    else if String.eqb arg "-o" then
      if n - 1 =? 0 then ParseUsage
      else
        match a1 with
        | [] => ParseNull
        | v :: a2 => parse_loop a2 (n - 1 - 1) (set_out_name v o)
        end
    else parse_end a1 (n - 1) o
  else parse_end (arg :: a1) (n - 1) o.
Proof.
  intros Hn. cbn [parse_loop].
  assert (E : (n >? 0) = true) by (rewrite Z.gtb_ltb; apply Z.ltb_lt; exact Hn).
  rewrite E. reflexivity.
Qed.

Lemma known_option_dash (arg : string) :
  known_option arg = true -> starts_with_dash arg = true.
Proof.
  unfold known_option. rewrite !orb_true_iff, !String.eqb_eq.
  intros [[[[-> | ->] | ->] | ->] | ->]; reflexivity.
Qed.

(** Known options are consumed in pairs: the loop either calls [usage] on a
    value [strtol] does not take whole, or goes on with what follows them. *)
Lemma parse_loop_options (opts : list string) :
  option_pairs opts ->
  forall rest o,
    parse_loop (opts ++ rest) (Z.of_nat (List.length (opts ++ rest))) o
    = ParseUsage
    \/ exists o',
        parse_loop (opts ++ rest) (Z.of_nat (List.length (opts ++ rest))) o
        = parse_loop rest (Z.of_nat (List.length rest)) o'.
Proof.
  induction 1 as [|flag value opts Hk _ IH]; intros rest o.
  - right. exists o. reflexivity.
  - cbn [app List.length].
    rewrite parse_loop_pos by lia.
    rewrite (known_option_dash flag Hk).
    replace (Z.of_nat (S (S (List.length (opts ++ rest)))) - 1 - 1)
      with (Z.of_nat (List.length (opts ++ rest))) by lia.
    assert (E : (Z.of_nat (S (S (List.length (opts ++ rest)))) - 1 =? 0)
                = false) by (apply Z.eqb_neq; lia).
    rewrite E.
    unfold known_option in Hk.
    destruct (String.eqb flag "-l"), (String.eqb flag "--loop"),
      (String.eqb flag "-f"), (String.eqb flag "--frames"),
      (String.eqb flag "-o"); cbn [orb] in *; try discriminate;
      try apply IH;
      destruct (strtol value 0) as [x e];
      (destruct (nonempty e); [left; reflexivity | apply IH]).
Qed.

Lemma unknown_option_breaks (arg : string) :
  known_option arg = false ->
  String.eqb arg "-l" || String.eqb arg "--loop" = false
  /\ String.eqb arg "-f" || String.eqb arg "--frames" = false
  /\ String.eqb arg "-o" = false.
Proof.
  unfold known_option. rewrite !orb_false_iff.
  intros [[[[H1 H2] H3] H4] H5]. repeat split; assumption.
Qed.

(** The argument loop keeps [n] in step with [a]: it never reads the NULL
    that ends argv inside the loop. *)
Lemma parse_loop_defined (k : nat) :
  forall a o,
    (List.length a <= k)%nat ->
    parse_loop a (Z.of_nat (List.length a)) o <> ParseNull.
Proof.
  induction k as [|k IH]; intros a o Hk.
  - destruct a as [|arg a1]; [discriminate | cbn [List.length] in Hk; lia].
  - destruct a as [|arg a1]; [discriminate |].
    rewrite parse_loop_pos by (cbn [List.length]; lia).
    cbn [List.length] in *.
    replace (Z.of_nat (S (List.length a1)) - 1)
      with (Z.of_nat (List.length a1)) by lia.
    assert (Hend : forall a' n, parse_end a' n o <> ParseNull).
    { intros a' n. unfold parse_end. destruct (negb (n =? 0)); discriminate. }
    assert (Hval : forall (set : string -> options),
               (if Z.of_nat (List.length a1) =? 0 then ParseUsage
                else match a1 with
                     | [] => ParseNull
                     | v :: a2 =>
                         parse_loop a2 (Z.of_nat (List.length a1) - 1) (set v)
                     end) <> ParseNull).
    { intros set. destruct a1 as [|v a2]; [discriminate |].
      cbn [List.length].
      assert (E : (Z.of_nat (S (List.length a2)) =? 0) = false)
        by (apply Z.eqb_neq; lia).
      rewrite E.
      replace (Z.of_nat (S (List.length a2)) - 1)
        with (Z.of_nat (List.length a2)) by lia.
      apply IH. cbn [List.length] in Hk. lia. }
    destruct (starts_with_dash arg); [| apply Hend].
    destruct (String.eqb arg "-l" || String.eqb arg "--loop").
    { destruct (Z.of_nat (List.length a1) =? 0) eqn:E; [discriminate |].
      destruct a1 as [|v a2]; [discriminate E |].
      destruct (strtol v 0) as [x e]. destruct (nonempty e); [discriminate |].
      cbn [List.length].
      replace (Z.of_nat (S (List.length a2)) - 1)
        with (Z.of_nat (List.length a2)) by lia.
      apply IH. cbn [List.length] in Hk. lia. }
    destruct (String.eqb arg "-f" || String.eqb arg "--frames").
    { destruct (Z.of_nat (List.length a1) =? 0) eqn:E; [discriminate |].
      destruct a1 as [|v a2]; [discriminate E |].
      destruct (strtol v 0) as [x e]. destruct (nonempty e); [discriminate |].
      cbn [List.length].
      replace (Z.of_nat (S (List.length a2)) - 1)
        with (Z.of_nat (List.length a2)) by lia.
      apply IH. cbn [List.length] in Hk. lia. }
    destruct (String.eqb arg "-o"); [| apply Hend].
    apply (Hval (fun v => set_out_name v o)).
Qed.

Lemma parse_args_defined (argv : list string) :
  parse_args argv <> ParseNull.
Proof. apply (parse_loop_defined (List.length argv)). apply le_n. Qed.

(** The usage errors the argument loop does report: after any known options,
    a command line that ends there (no input file), one in which an unknown
    argument starting with '-' is followed by more, and one in which the
    input file is followed by more, all call [usage]; and [usage] ends the
    process with code 1 before anything is opened. *)
Theorem usage_errors_reported (opts : list string)
  (Hopts : option_pairs opts) :
  parse_args opts = ParseUsage
  /\ (forall arg next rest,
         starts_with_dash arg = true ->
         known_option arg = false ->
         parse_args (opts ++ arg :: next :: rest) = ParseUsage)
  /\ (forall input next rest,
         starts_with_dash input = false ->
         parse_args (opts ++ input :: next :: rest) = ParseUsage)
  /\ (forall fuel env argv,
         parse_args argv = ParseUsage ->
         main fuel env argv = mkRun (Exited 1) [EvStderr usage_text] [] []).
Proof.
  unfold parse_args. split; [| split; [| split]].
  - destruct (parse_loop_options opts Hopts [] default_options)
      as [H | [o' H]]; rewrite app_nil_r in H; rewrite H; reflexivity.
  - intros arg next rest Hdash Hunknown.
    destruct (parse_loop_options opts Hopts (arg :: next :: rest)
                                 default_options) as [H | [o' H]];
      rewrite H; [reflexivity |].
    rewrite parse_loop_pos by (cbn [List.length]; lia).
    destruct (unknown_option_breaks arg Hunknown) as [E1 [E2 E3]].
    rewrite Hdash, E1, E2, E3. unfold parse_end.
    assert (E : (Z.of_nat (List.length (arg :: next :: rest)) - 1 =? 0)
                = false) by (apply Z.eqb_neq; cbn [List.length]; lia).
    rewrite E. reflexivity.
  - intros input next rest Hdash.
    destruct (parse_loop_options opts Hopts (input :: next :: rest)
                                 default_options) as [H | [o' H]];
      rewrite H; [reflexivity |].
    rewrite parse_loop_pos by (cbn [List.length]; lia).
    rewrite Hdash. unfold parse_end.
    assert (E : (Z.of_nat (List.length (input :: next :: rest)) - 1 =? 0)
                = false) by (apply Z.eqb_neq; cbn [List.length]; lia).
    rewrite E. reflexivity.
  - intros fuel env argv H. unfold main, parse_args. rewrite H. reflexivity.
Qed.


(** *** The dump file across passes *)

(** [output_file] is assigned once, before the first pass. *)
Lemma dispatch_output_file (st : state) (r : received) :
  let '(_, st', _) := dispatch st r in output_file st' = output_file st.
Proof.
  unfold dispatch.
  destruct (if output_file st then dump st r else (Next (receive_ret r), []))
    as [[ret | ret] evs]; [| reflexivity].
  destruct (frames st =? 0); [reflexivity |].
  destruct (frames (set_frames (long_dec (frames st)) st) =? 0); reflexivity.
Qed.

Lemma av_frame_alloc_output_file (st : state) :
  output_file (snd (av_frame_alloc st)) = output_file st.
Proof. unfold av_frame_alloc. destruct (frame_allocs st); reflexivity. Qed.

Lemma receive_loop_output_file (drain : bool) (q : list received) :
  forall st,
    let '(_, st', _, _) := receive_loop st drain q in
    output_file st' = output_file st.
Proof.
  induction q as [|r q IH]; intros st; cbn [receive_loop];
    pose proof (av_frame_alloc_output_file st) as Ha;
    destruct (av_frame_alloc st) as [[|] st1]; cbn [negb snd] in *;
    try exact Ha.
  destruct ((receive_ret r =? AVERROR EAGAIN) || (receive_ret r =? AVERROR_EOF));
    [exact Ha |].
  destruct (receive_ret r <? 0); [exact Ha |].
  pose proof (dispatch_output_file st1 r) as Hd.
  destruct (dispatch st1 r) as [[ret st2] evs].
  destruct (ret <? 0); [congruence |].
  specialize (IH st2).
  destruct (receive_loop st2 drain q) as [[[ret' st3] q3] evs']. congruence.
Qed.

Lemma decode_write_output_file (st : state) (avctx : AVCodecContext)
      (packet : AVPacket) :
  let '(_, st', _, _) := decode_write st avctx packet in
  output_file st' = output_file st.
Proof.
  unfold decode_write.
  destruct (avcodec_send_packet avctx packet) as [ret avctx1].
  destruct (ret <? 0); [reflexivity |].
  pose proof (receive_loop_output_file (draining avctx1) (pending avctx1) st)
    as H.
  destruct (receive_loop st (draining avctx1) (pending avctx1))
    as [[[ret' st'] q] evs].
  exact H.
Qed.

Lemma read_loop_output_file (video_stream : Z) (pkts : list AVPacket) :
  forall st avctx,
    let '(_, st', _, _, _) := read_loop video_stream st avctx pkts in
    output_file st' = output_file st.
Proof.
  induction pkts as [|packet rest IH]; intros st avctx; cbn [read_loop];
    [reflexivity |].
  assert (H : let '(_, st', _, _) :=
                  (if video_stream =? stream_index packet
                   then decode_write st avctx packet
                   else (0, st, avctx, [])) in
              output_file st' = output_file st).
  { destruct (video_stream =? stream_index packet);
      [apply decode_write_output_file | reflexivity]. }
  destruct (if video_stream =? stream_index packet
            then decode_write st avctx packet else (0, st, avctx, []))
    as [[[ret st1] avctx1] evs].
  destruct (ret >=? 0); [| exact H].
  specialize (IH st1 avctx1).
  destruct (read_loop video_stream st1 avctx1 rest)
    as [[[[ret' st2] avctx2] rest'] evs'].
  congruence.
Qed.

Lemma decode_pass_output_file (o : options) (pe : pass_env)
      (video_stream : Z) (st : state) :
  output_file (fst (decode_pass o pe video_stream st)) = output_file st.
Proof.
  unfold decode_pass.
  pose proof (read_loop_output_file video_stream (packets pe)
                (set_frames (frame_count o) st) (mkCtx [] false)) as Hr.
  destruct (read_loop video_stream (set_frames (frame_count o) st)
              (mkCtx [] false) (packets pe))
    as [[[[ret st1] avctx] rest] evs_read].
  pose proof (decode_write_output_file st1 avctx (flush_packet pe)) as Hf.
  destruct (decode_write st1 avctx (flush_packet pe))
    as [[[ret' st2] avctx'] evs_flush].
  cbn [fst]. cbn [output_file set_frames] in Hr. congruence.
Qed.

(** A pass that finds the dump file pointer set closes the file at its end
    and leaves the pointer set. *)
Lemma playback_pass_closes_dump (env : environment) (type : Z) (o : options)
      (pe : pass_env) (st : state) :
  setup_ok env type pe = true ->
  output_file st = true ->
  exists st' evs0 body,
    playback_pass env type o pe st
    = Go st' (evs0 ++ body
              ++ [EvFclose; EvFreeContext; EvCloseInput; EvBufferUnref])
    /\ forallb is_setup evs0 = true
    /\ forallb is_decode body = true
    /\ output_file st' = true.
Proof.
  intros Hok Hout. destruct (open_pass_ok env type o pe st Hok) as [p Hopen].
  pose proof (open_pass_events env type o pe st) as Hev. rewrite Hopen in Hev.
  unfold playback_pass, bind. rewrite Hopen.
  destruct (decode_pass_shape o pe (find_best_stream_ret pe)
                              (set_hw_pix_fmt p st)) as [body [Hb Hd]].
  pose proof (decode_pass_output_file o pe (find_best_stream_ret pe)
                                      (set_hw_pix_fmt p st)) as Hof.
  cbn [output_file set_hw_pix_fmt] in Hof. rewrite Hout in Hof.
  rewrite Hof in Hb.
  destruct (decode_pass o pe (find_best_stream_ret pe) (set_hw_pix_fmt p st))
    as [st2 evs].
  cbn [fst snd] in *. subst evs.
  exists st2, [EvOpenInput (in_file o); EvHwDeviceCreate; EvCodecOpen], body.
  repeat split; auto.
Qed.

Lemma uses_after_close_app (s : file_status) (a b : list event) :
  uses_after_close s (a ++ b)
  = (uses_after_close s a + uses_after_close (file_status_after s a) b)%nat.
Proof.
  revert s. induction a as [|e a IH]; intros s; [reflexivity |].
  cbn [app uses_after_close file_status_after fold_left].
  rewrite IH. unfold file_status_after. lia.
Qed.

Lemma file_status_after_app (s : file_status) (a b : list event) :
  file_status_after s (a ++ b)
  = file_status_after (file_status_after s a) b.
Proof. unfold file_status_after. apply fold_left_app. Qed.

Lemma file_status_after_quiet (p : event -> bool) (s : file_status)
      (evs : list event) :
  (forall e, p e = true -> forall s', file_step s' e = s') ->
  forallb p evs = true -> file_status_after s evs = s.
Proof.
  intros Hp. revert s. induction evs as [|e evs IH]; intros s; [reflexivity |].
  cbn [forallb]. rewrite andb_true_iff. intros [He Hevs].
  unfold file_status_after in *. cbn [fold_left].
  rewrite (Hp e He). apply IH. exact Hevs.
Qed.

Lemma setup_keeps_file (s : file_status) (evs : list event) :
  forallb is_setup evs = true -> file_status_after s evs = s.
Proof.
  apply file_status_after_quiet.
  intros [] H s'; try reflexivity; discriminate H.
Qed.

Lemma decode_keeps_file (s : file_status) (evs : list event) :
  forallb is_decode evs = true -> file_status_after s evs = s.
Proof.
  apply file_status_after_quiet.
  intros [] H s'; try reflexivity; discriminate H.
Qed.

(** The dump file after a pass that closes it, and the uses of the closed
    file in the pass that follows. *)
Lemma closed_after_pass (s : file_status) (evs0 body : list event) :
  forallb is_setup evs0 = true ->
  forallb is_decode body = true ->
  file_status_after s
    (evs0 ++ body ++ [EvFclose; EvFreeContext; EvCloseInput; EvBufferUnref])
  = Closed.
Proof.
  intros H0 Hb. rewrite !file_status_after_app.
  rewrite (setup_keeps_file s evs0 H0), (decode_keeps_file s body Hb).
  reflexivity.
Qed.

Lemma closed_file_used_by_pass (evs0 body : list event) :
  forallb is_setup evs0 = true ->
  forallb is_decode body = true ->
  (1 <= uses_after_close Closed
          (evs0 ++ body
           ++ [EvFclose; EvFreeContext; EvCloseInput; EvBufferUnref]))%nat.
Proof.
  intros H0 Hb. rewrite !uses_after_close_app.
  rewrite (setup_keeps_file Closed evs0 H0), (decode_keeps_file Closed body Hb).
  cbn [uses_after_close file_step]. lia.
Qed.

Lemma closed_file_used_in_trace (p e1 e2 rest ep : list event) :
  (forall s, file_status_after s e1 = Closed) ->
  (1 <= uses_after_close Closed e2)%nat ->
  (1 <= uses_after_close NeverOpened (p ++ (e1 ++ e2 ++ rest) ++ ep))%nat.
Proof.
  intros H1 H2.
  rewrite (uses_after_close_app _ p).
  rewrite (uses_after_close_app _ (e1 ++ e2 ++ rest) ep).
  rewrite (uses_after_close_app _ e1 (e2 ++ rest)), H1.
  rewrite (uses_after_close_app _ e2 rest). lia.
Qed.


(** *** Runs that never use the closed dump file *)

Lemma uses_after_close_quiet (s : file_status) (evs : list event) :
  forallb is_quiet evs = true -> uses_after_close s evs = O.
Proof.
  revert s. induction evs as [|e evs IH]; intros s; [reflexivity |].
  cbn [forallb]. rewrite andb_true_iff. intros [He Hevs].
  cbn [uses_after_close]. rewrite (IH _ Hevs).
  destruct e; try discriminate He; destruct s; reflexivity.
Qed.

Lemma uses_after_close_open (p : event -> bool) (evs : list event) :
  (forall e, p e = true -> file_step Open e = Open) ->
  forallb p evs = true -> uses_after_close Open evs = O.
Proof.
  intros Hp. induction evs as [|e evs IH]; [reflexivity |].
  cbn [forallb]. rewrite andb_true_iff. intros [He Hevs].
  cbn [uses_after_close]. rewrite (Hp e He), (IH Hevs). reflexivity.
Qed.

Lemma setup_open_file (evs : list event) :
  forallb is_setup evs = true -> uses_after_close Open evs = O.
Proof.
  apply uses_after_close_open. intros [] H; try reflexivity; discriminate H.
Qed.

Lemma decode_open_file (evs : list event) :
  forallb is_decode evs = true -> uses_after_close Open evs = O.
Proof.
  apply uses_after_close_open. intros [] H; try reflexivity; discriminate H.
Qed.

Lemma setup_quiet (evs : list event) :
  forallb is_setup evs = true -> forallb is_quiet evs = true.
Proof.
  induction evs as [|e evs IH]; [reflexivity |].
  cbn [forallb]. rewrite !andb_true_iff. intros [He Hevs].
  split; [destruct e; try reflexivity; discriminate He | exact (IH Hevs)].
Qed.

(** Without dump file [decode_write] calls nothing on it. *)
Lemma dispatch_quiet (st : state) (r : received) :
  output_file st = false ->
  forallb is_quiet (snd (dispatch st r)) = true.
Proof.
  intros Hout. unfold dispatch. rewrite Hout.
  destruct (frames st =? 0); [reflexivity |].
  destruct (frames (set_frames (long_dec (frames st)) st) =? 0); reflexivity.
Qed.

Lemma receive_loop_quiet (drain : bool) (q : list received) :
  forall st,
    output_file st = false ->
    forallb is_quiet (snd (receive_loop st drain q)) = true.
Proof.
  induction q as [|r q IH]; intros st Hout; cbn [receive_loop];
    pose proof (av_frame_alloc_output_file st) as Ha;
    destruct (av_frame_alloc st) as [[|] st1]; cbn [negb snd] in *;
    try reflexivity.
  destruct ((receive_ret r =? AVERROR EAGAIN) || (receive_ret r =? AVERROR_EOF));
    [reflexivity |].
  destruct (receive_ret r <? 0); [reflexivity |].
  assert (Hout1 : output_file st1 = false) by (rewrite Ha; exact Hout).
  pose proof (dispatch_quiet st1 r Hout1) as Hd.
  pose proof (dispatch_output_file st1 r) as Ho.
  destruct (dispatch st1 r) as [[ret st2] evs]. cbn [snd] in Hd.
  destruct (ret <? 0); [exact Hd |].
  assert (Hout2 : output_file st2 = false) by (rewrite Ho; exact Hout1).
  specialize (IH st2 Hout2).
  destruct (receive_loop st2 drain q) as [[[ret' st3] q3] evs'].
  cbn [snd] in *. rewrite forallb_app, Hd, IH. reflexivity.
Qed.

Lemma decode_write_quiet (st : state) (avctx : AVCodecContext)
      (packet : AVPacket) :
  output_file st = false ->
  forallb is_quiet (snd (decode_write st avctx packet)) = true.
Proof.
  intros Hout. unfold decode_write.
  destruct (avcodec_send_packet avctx packet) as [ret avctx1].
  destruct (ret <? 0); [reflexivity |].
  pose proof (receive_loop_quiet (draining avctx1) (pending avctx1) st Hout)
    as H.
  destruct (receive_loop st (draining avctx1) (pending avctx1))
    as [[[ret' st'] q] evs].
  exact H.
Qed.

Lemma read_loop_quiet (video_stream : Z) (pkts : list AVPacket) :
  forall st avctx,
    output_file st = false ->
    forallb is_quiet (snd (read_loop video_stream st avctx pkts)) = true.
Proof.
  induction pkts as [|packet rest IH]; intros st avctx Hout; cbn [read_loop];
    [reflexivity |].
  assert (H : let '(_, st', _, evs) :=
                  (if video_stream =? stream_index packet
                   then decode_write st avctx packet
                   else (0, st, avctx, [])) in
              output_file st' = false /\ forallb is_quiet evs = true).
  { destruct (video_stream =? stream_index packet); [| split; auto].
    pose proof (decode_write_output_file st avctx packet) as Ho.
    pose proof (decode_write_quiet st avctx packet Hout) as Hq.
    destruct (decode_write st avctx packet) as [[[ret st1] avctx1] evs].
    split; [rewrite Ho; exact Hout | exact Hq]. }
  destruct (if video_stream =? stream_index packet
            then decode_write st avctx packet else (0, st, avctx, []))
    as [[[ret st1] avctx1] evs].
  destruct H as [Hout1 Hq]. destruct (ret >=? 0); [| exact Hq].
  specialize (IH st1 avctx1 Hout1).
  destruct (read_loop video_stream st1 avctx1 rest)
    as [[[[ret' st2] avctx2] rest'] evs'].
  cbn [snd] in *. rewrite forallb_app, Hq, IH. reflexivity.
Qed.

Lemma open_pass_output_file (env : environment) (type : Z) (o : options)
      (pe : pass_env) (st : state) (video_stream : Z) (st1 : state)
      (evs : list event) :
  open_pass env type o pe st = Go (video_stream, st1) evs ->
  output_file st1 = output_file st.
Proof.
  unfold open_pass, bind, emit, leave_if, hw_decoder_init, negotiate.
  destruct (negb (open_input_ret pe =? 0)); [discriminate |].
  destruct (find_stream_info_ret pe <? 0); [discriminate |].
  destruct (find_best_stream_ret pe <? 0); [discriminate |].
  destruct (id (best_decoder pe) =? AV_CODEC_ID_H264).
  - destruct (m2m_decoder env); [| discriminate].
    destruct (negb (alloc_context_ok pe)); [discriminate |].
    destruct (parameters_to_context_ret pe <? 0); [discriminate |].
    destruct (hwdevice_ctx_create_ret pe <? 0); [discriminate |].
    destruct (open2_ret pe <? 0); [discriminate |].
    intros H. injection H as _ <- _. reflexivity.
  - destruct (scan_hw_configs type (hw_configs (best_decoder pe)));
      [| discriminate].
    destruct (negb (alloc_context_ok pe)); [discriminate |].
    destruct (parameters_to_context_ret pe <? 0); [discriminate |].
    destruct (hwdevice_ctx_create_ret pe <? 0); [discriminate |].
    destruct (open2_ret pe <? 0); [discriminate |].
    intros H. injection H as _ <- _. reflexivity.
Qed.

Lemma playback_pass_quiet (env : environment) (type : Z) (o : options)
      (pe : pass_env) (st : state) :
  output_file st = false ->
  match playback_pass env type o pe st with
  | Go st' evs => output_file st' = false /\ forallb is_quiet evs = true
  | Leave _ evs => forallb is_quiet evs = true
  end.
Proof.
  intros Hout. unfold playback_pass, bind.
  pose proof (open_pass_events env type o pe st) as Hev.
  pose proof (open_pass_output_file env type o pe st) as Hof.
  destruct (open_pass env type o pe st) as [[video_stream st1] evs0 | code evs0];
    apply setup_quiet in Hev; [| exact Hev].
  specialize (Hof video_stream st1 evs0 eq_refl). rewrite Hout in Hof.
  pose proof (decode_pass_output_file o pe video_stream st1) as Hd.
  rewrite Hof in Hd. unfold decode_pass in *.
  pose proof (read_loop_quiet video_stream (packets pe)
                (set_frames (frame_count o) st1) (mkCtx [] false) Hof) as Hr.
  pose proof (read_loop_output_file video_stream (packets pe)
                (set_frames (frame_count o) st1) (mkCtx [] false)) as Hro.
  destruct (read_loop video_stream (set_frames (frame_count o) st1)
              (mkCtx [] false) (packets pe))
    as [[[[ret st2] avctx] rest] evs_read].
  cbn [output_file set_frames] in Hro.
  assert (Hout2 : output_file st2 = false) by (rewrite Hro; exact Hof).
  pose proof (decode_write_quiet st2 avctx (flush_packet pe) Hout2) as Hf.
  destruct (decode_write st2 avctx (flush_packet pe))
    as [[[ret' st3] avctx'] evs_flush].
  cbn [fst snd] in *. split; [exact Hd |].
  rewrite Hd, !forallb_app, Hev, Hr, Hf. reflexivity.
Qed.

Lemma main_loop_quiet (env : environment) (type : Z) (o : options) :
  forall (fuel : nat) (count : Z) (i : nat) (st : state),
    output_file st = false ->
    let '(_, ps, ep) := main_loop fuel env type o count i st in
    forallb is_quiet (List.concat ps ++ ep) = true.
Proof.
  induction fuel as [|fuel IH]; intros count i st Hout; cbn [main_loop];
    [reflexivity |].
  pose proof (playback_pass_quiet env type o (pass env i) st Hout) as Hp.
  destruct (playback_pass env type o (pass env i) st) as [st' evs | code evs].
  - destruct Hp as [Hout' Hq]. destruct (long_dec count >? 0).
    + specialize (IH (long_dec count) (S i) st' Hout').
      destruct (main_loop fuel env type o (long_dec count) (S i) st')
        as [[s ps] ep].
      cbn [List.concat]. rewrite <- app_assoc, forallb_app, Hq, IH.
      reflexivity.
    + cbn [List.concat]. rewrite app_nil_r, forallb_app, Hq. reflexivity.
  - cbn [List.concat]. rewrite !app_nil_r. exact Hp.
Qed.

(** The first pass of a run with a dump file, up to the second. *)
Lemma single_pass_open_file (env : environment) (type : Z) (o : options)
      (pe : pass_env) (st : state) :
  match playback_pass env type o pe st with
  | Go _ evs | Leave _ evs => uses_after_close Open evs = O
  end.
Proof.
  unfold playback_pass, bind.
  pose proof (open_pass_events env type o pe st) as Hev.
  destruct (open_pass env type o pe st) as [[video_stream st1] evs0 | code evs0];
    [| apply setup_open_file; exact Hev].
  destruct (decode_pass_shape o pe video_stream st1) as [body [Hb Hd]].
  destruct (decode_pass o pe video_stream st1) as [st2 evs].
  cbn [fst snd] in Hb. subst evs.
  rewrite !uses_after_close_app, (setup_open_file evs0 Hev).
  rewrite (setup_keeps_file Open evs0 Hev), (decode_open_file body Hd).
  rewrite (decode_keeps_file Open body Hd).
  destruct (output_file st2); reflexivity.
Qed.

Lemma list_device_types_quiet (types : list Z) :
  forallb is_quiet (list_device_types types) = true.
Proof.
  induction types as [|type rest IH]; [reflexivity |].
  cbn [list_device_types].
  destruct (type =? AV_HWDEVICE_TYPE_NONE); [reflexivity | exact IH].
Qed.

(** The runs that are the program's to their end. *)
Lemma run_without_closed_file_use (fuel : nat) (env : environment)
      (o : options) :
  out_name o = None \/ LONG_MIN < loop_count o <= 1 ->
  uses_after_close NeverOpened (trace (playback fuel env o)) = O.
Proof.
  intros Hcase. unfold playback.
  destruct (drm_device_type env =? AV_HWDEVICE_TYPE_NONE).
  { apply uses_after_close_quiet. unfold trace.
    cbn [prologue passes epilogue List.concat app forallb is_quiet].
    rewrite app_nil_r, forallb_app, list_device_types_quiet. reflexivity. }
  destruct (negb (out_new_ok env)); [reflexivity |].
  destruct (out_name o) as [path|].
  - destruct Hcase as [Hnone | Hcount]; [discriminate |].
    destruct (fopen_ok env); [| reflexivity].
    destruct fuel as [|fuel]; [reflexivity |]. cbn [main_loop].
    pose proof (single_pass_open_file env (drm_device_type env) o (pass env 0)
                  (set_output_file true (initial_state env))) as Hp.
    destruct (playback_pass env (drm_device_type env) o (pass env 0)
                (set_output_file true (initial_state env)))
      as [st' evs | code evs].
    + rewrite long_dec_in_range by (pose proof LONG_MAX_pos; lia).
      assert (E : (loop_count o - 1 >? 0) = false).
      { rewrite Z.gtb_ltb. apply Z.ltb_ge. lia. }
      rewrite E. unfold trace. cbn [prologue passes epilogue List.concat].
      cbn [app uses_after_close file_step]. rewrite app_nil_r.
      rewrite uses_after_close_app, Hp.
      destruct (file_status_after Open evs); reflexivity.
    + unfold trace. cbn [prologue passes epilogue List.concat].
      cbn [app uses_after_close file_step]. rewrite !app_nil_r. exact Hp.
  - pose proof (main_loop_quiet env (drm_device_type env) o fuel
                  (loop_count o) 0 (initial_state env) eq_refl) as Hq.
    destruct (main_loop fuel env (drm_device_type env) o (loop_count o) 0
                        (initial_state env)) as [[s ps] ep].
    unfold trace. cbn [prologue passes epilogue].
    apply uses_after_close_quiet. cbn [app forallb is_quiet]. exact Hq.
Qed.

(** A run without dump file, and a run of one pass, make no call on a
    closed dump file. *)
Theorem no_use_of_closed_file_without_dump_or_replay
  (fuel : nat) (env : environment) (o : options)
  (Hcase : out_name o = None \/ LONG_MIN < loop_count o <= 1) :
  uses_after_close NeverOpened (trace (playback fuel env o)) = O.
Proof.
  exact (run_without_closed_file_use fuel env o Hcase).
Qed.

(** *** The command lines [main] accepts *)

Lemma parse_loop_last (last : string) (o : options) :
  known_option last = false ->
  parse_loop [last] 1 o
  = ParseOk (set_in_file (if starts_with_dash last then None else Some last)
                         o).
Proof.
  intros Hk. rewrite parse_loop_pos by lia.
  destruct (unknown_option_breaks last Hk) as [E1 [E2 E3]].
  rewrite E1, E2, E3. destruct (starts_with_dash last); reflexivity.
Qed.

Lemma not_dash_unknown (arg : string) :
  starts_with_dash arg = false -> known_option arg = false.
Proof.
  intros Hd. destruct (known_option arg) eqn:Hk; [| reflexivity].
  rewrite (known_option_dash arg Hk) in Hd. discriminate.
Qed.

(** The loop over a stretch of known options does what [read_options]
    does, and goes on with what follows the stretch. *)
Lemma parse_loop_read_options (opts : list string) :
  option_pairs opts ->
  forall rest o,
    parse_loop (opts ++ rest) (Z.of_nat (List.length (opts ++ rest))) o
    = match read_options opts o with
      | Some o' => parse_loop rest (Z.of_nat (List.length rest)) o'
      | None => ParseUsage
      end.
Proof.
  induction 1 as [|flag value opts Hk _ IH]; intros rest o.
  - reflexivity.
  - cbn [app List.length read_options].
    rewrite parse_loop_pos by lia.
    rewrite (known_option_dash flag Hk).
    replace (Z.of_nat (S (S (List.length (opts ++ rest)))) - 1 - 1)
      with (Z.of_nat (List.length (opts ++ rest))) by lia.
    assert (E : (Z.of_nat (S (S (List.length (opts ++ rest)))) - 1 =? 0)
                = false) by (apply Z.eqb_neq; lia).
    rewrite E.
    unfold known_option in Hk.
    destruct (String.eqb flag "-l"), (String.eqb flag "--loop"),
      (String.eqb flag "-f"), (String.eqb flag "--frames"),
      (String.eqb flag "-o"); cbn [orb] in *; try discriminate;
      try apply IH;
      destruct (strtol value 0) as [x e];
      (destruct (nonempty e); [reflexivity | apply IH]).
Qed.

(** X8: the argument loop keeps its counter in step with its pointer: on
    every command line it ends in [usage] or with the options read, and
    never by reading through the NULL that ends argv. *)
Theorem argument_loop_stays_within_argv (argv : list string) :
  parse_args argv = ParseUsage \/ exists o, parse_args argv = ParseOk o.
Proof.
  pose proof (parse_args_defined argv) as H.
  destruct (parse_args argv) as [| |o].
  - left. reflexivity.
  - exfalso. apply H. reflexivity.
  - right. exists o. reflexivity.
Qed.

Lemma parse_end_accepts (a : list string) (n : Z) (o0 o : options) :
  parse_end a n o0 = ParseOk o -> n = 0 /\ o = set_in_file (hd_error a) o0.
Proof.
  unfold parse_end. destruct (n =? 0) eqn:E; cbn [negb]; [| discriminate].
  intros H. injection H as H. apply Z.eqb_eq in E. auto.
Qed.

Lemma parse_loop_accepts (k : nat) :
  forall a o0 o,
    (List.length a <= k)%nat ->
    parse_loop a (Z.of_nat (List.length a)) o0 = ParseOk o ->
    exists opts last o',
      a = opts ++ [last]
      /\ option_pairs opts
      /\ known_option last = false
      /\ read_options opts o0 = Some o'
      /\ o = set_in_file (if starts_with_dash last then None else Some last)
                         o'.
Proof.
  induction k as [|k IH]; intros a o0 o Hk Hp.
  - destruct a as [|arg a1]; [discriminate | cbn [List.length] in Hk; lia].
  - destruct a as [|arg a1]; [discriminate |].
    rewrite parse_loop_pos in Hp by (cbn [List.length]; lia).
    cbn [List.length] in *.
    replace (Z.of_nat (S (List.length a1)) - 1)
      with (Z.of_nat (List.length a1)) in Hp by lia.
    assert (Hpair : forall flag (set : string -> option options),
               known_option flag = true ->
               (forall v rest,
                   read_options (flag :: v :: rest) o0
                   = match set v with
                     | Some o1 => read_options rest o1
                     | None => None
                     end) ->
               (if Z.of_nat (List.length a1) =? 0 then ParseUsage
                else match a1 with
                     | [] => ParseNull
                     | v :: a2 =>
                         match set v with
                         | Some o1 =>
                             parse_loop a2 (Z.of_nat (List.length a1) - 1) o1
                         | None => ParseUsage
                         end
                     end) = ParseOk o ->
               exists opts last o',
                 flag :: a1 = opts ++ [last]
                 /\ option_pairs opts
                 /\ known_option last = false
                 /\ read_options opts o0 = Some o'
                 /\ o = set_in_file
                          (if starts_with_dash last then None else Some last)
                          o').
    { intros flag set Hflag Hread H.
      destruct a1 as [|v a2]; [discriminate H |].
      cbn [List.length] in H.
      assert (E : (Z.of_nat (S (List.length a2)) =? 0) = false)
        by (apply Z.eqb_neq; lia).
      rewrite E in H.
      replace (Z.of_nat (S (List.length a2)) - 1)
        with (Z.of_nat (List.length a2)) in H by lia.
      specialize (Hread v). destruct (set v) as [o1|]; [| discriminate H].
      destruct (IH a2 o1 o) as [opts [last [o' [Ha [Ho [Hl [Hr Hin]]]]]]].
      { cbn [List.length] in Hk. lia. }
      { exact H. }
      exists (flag :: v :: opts), last, o'. subst a2.
      split; [reflexivity |].
      split; [apply one_more_option; assumption |].
      split; [exact Hl |].
      split; [rewrite Hread; exact Hr | exact Hin]. }
    destruct (starts_with_dash arg) eqn:Hdash.
    + destruct (String.eqb arg "-l" || String.eqb arg "--loop") eqn:El.
      { apply (Hpair arg (fun v => let '(x, e) := strtol v 0 in
                                   if nonempty e then None
                                   else Some (set_loop_count x o0))).
        - unfold known_option. rewrite El. reflexivity.
        - intros v rest. cbn [read_options]. rewrite El.
          destruct (strtol v 0) as [x e]. destruct (nonempty e); reflexivity.
        - destruct (Z.of_nat (List.length a1) =? 0); [exact Hp |].
          destruct a1 as [|v a2]; [exact Hp |].
          destruct (strtol v 0) as [x e]. destruct (nonempty e); exact Hp. }
      destruct (String.eqb arg "-f" || String.eqb arg "--frames") eqn:Ef.
      { apply (Hpair arg (fun v => let '(x, e) := strtol v 0 in
                                   if nonempty e then None
                                   else Some (set_frame_count x o0))).
        - unfold known_option. apply orb_false_iff in El. destruct El as [E1 E2].
          rewrite E1, E2. cbn [orb]. rewrite Ef. reflexivity.
        - intros v rest. cbn [read_options]. rewrite El, Ef.
          destruct (strtol v 0) as [x e]. destruct (nonempty e); reflexivity.
        - destruct (Z.of_nat (List.length a1) =? 0); [exact Hp |].
          destruct a1 as [|v a2]; [exact Hp |].
          destruct (strtol v 0) as [x e]. destruct (nonempty e); exact Hp. }
      destruct (String.eqb arg "-o") eqn:Eo.
      { apply (Hpair arg (fun v => Some (set_out_name v o0))).
        - unfold known_option. apply orb_false_iff in El. destruct El as [E1 E2].
          apply orb_false_iff in Ef. destruct Ef as [E3 E4].
          rewrite E1, E2, E3, E4, Eo. reflexivity.
        - intros v rest. cbn [read_options]. rewrite El, Ef, Eo. reflexivity.
        - exact Hp. }
      apply parse_end_accepts in Hp. destruct Hp as [Hn Ho].
      destruct a1 as [|x a2]; [| cbn [List.length] in Hn; lia].
      exists [], arg, o0. rewrite Hdash.
      split; [reflexivity |].
      split; [apply no_option |].
      split.
      { unfold known_option. apply orb_false_iff in El. destruct El as [E1 E2].
        apply orb_false_iff in Ef. destruct Ef as [E3 E4].
        rewrite E1, E2, E3, E4, Eo. reflexivity. }
      split; [reflexivity | exact Ho].
    + apply parse_end_accepts in Hp. destruct Hp as [Hn Ho].
      destruct a1 as [|x a2]; [| cbn [List.length] in Hn; lia].
      exists [], arg, o0. rewrite Hdash.
      split; [reflexivity |].
      split; [apply no_option |].
      split; [apply not_dash_unknown; exact Hdash |].
      split; [reflexivity | exact Ho].
Qed.

(** X9: a command line [main] accepts is a stretch of known options with
    their values, read from left to right, and one last argument: the input
    file when it does not start with '-', and otherwise an argument that is
    no known option, which leaves [in_file] NULL. *)
Theorem accepted_command_line_shape (argv : list string) (o : options)
  (Hok : parse_args argv = ParseOk o) :
  exists opts last o',
    argv = opts ++ [last]
    /\ option_pairs opts
    /\ known_option last = false
    /\ read_options opts default_options = Some o'
    /\ o = set_in_file (if starts_with_dash last then None else Some last) o'.
Proof.
  apply (parse_loop_accepts (List.length argv)); [apply le_n | exact Hok].
Qed.

(** X10: the options are read from left to right, each value replacing
    the one an earlier use of the option gave, and the last argument is the
    input file: after known options with their values, a last argument that
    is no known option is accepted with the options [read_options] gives,
    unless [strtol] does not take one of the numbers whole. *)
Theorem options_read_left_to_right (opts : list string) (last : string)
  (Hopts : option_pairs opts)
  (Hlast : known_option last = false) :
  parse_args (opts ++ [last])
  = match read_options opts default_options with
    | Some o =>
        ParseOk (set_in_file
                   (if starts_with_dash last then None else Some last) o)
    | None => ParseUsage
    end.
Proof.
  unfold parse_args. rewrite (parse_loop_read_options opts Hopts).
  destruct (read_options opts default_options) as [o|]; [| reflexivity].
  apply parse_loop_last. exact Hlast.
Qed.

(** X5: the case the loop misses.  After known options whose values
    [strtol] takes, a last argument that starts with '-' and is no known
    option is consumed as if it were one: [usage] is not called, the options
    read so far stand, and [main] goes on with [in_file = NULL]. *)
Theorem trailing_unknown_option_accepted
  (opts : list string) (arg : string) (o : options)
  (Hopts : option_pairs opts)
  (Hdash : starts_with_dash arg = true)
  (Hunknown : known_option arg = false)
  (Hvalues : read_options opts default_options = Some o) :
  parse_args (opts ++ [arg]) = ParseOk (set_in_file None o)
  /\ in_file (set_in_file None o) = None
  /\ forall fuel env,
       main fuel env (opts ++ [arg]) = playback fuel env (set_in_file None o).
Proof.
  assert (H : parse_args (opts ++ [arg]) = ParseOk (set_in_file None o)).
  { unfold parse_args.
    rewrite (parse_loop_read_options opts Hopts), Hvalues.
    pose proof (parse_loop_last arg o Hunknown) as Hl.
    rewrite Hdash in Hl. exact Hl. }
  split; [exact H |]. split; [reflexivity |].
  intros fuel env. unfold main. rewrite H. reflexivity.
Qed.

(** *** What [decode_write] leaves of the variables *)

Lemma decoded_from_refl (st : state) : decoded_from st st.
Proof.
  split; [reflexivity |]. split; [reflexivity |]. exists O. reflexivity.
Qed.

Lemma decoded_from_trans (st1 st2 st3 : state) :
  decoded_from st1 st2 -> decoded_from st2 st3 -> decoded_from st1 st3.
Proof.
  intros [H1 [H2 [k1 H3]]] [H4 [H5 [k2 H6]]].
  split; [rewrite H4; exact H1 |].
  split; [rewrite H5; exact H2 |].
  exists (k2 + k1)%nat. rewrite H6, H3. apply skipn_skipn.
Qed.

Lemma av_frame_alloc_decoded_from (st : state) :
  decoded_from st (snd (av_frame_alloc st)).
Proof.
  unfold av_frame_alloc. destruct (frame_allocs st) as [|b l] eqn:E.
  - apply decoded_from_refl.
  - split; [reflexivity |]. split; [reflexivity |].
    exists 1%nat. cbn [snd set_frame_allocs frame_allocs]. rewrite E.
    reflexivity.
Qed.

Lemma dispatch_decoded_from (st : state) (r : received) :
  decoded_from st (snd (fst (dispatch st r))).
Proof.
  unfold dispatch.
  destruct (if output_file st then dump st r else (Next (receive_ret r), []))
    as [[ret | ret] evs].
  - destruct (frames st =? 0); [apply decoded_from_refl |].
    destruct (frames (set_frames (long_dec (frames st)) st) =? 0);
      (split; [reflexivity |]; split; [reflexivity |]; exists O; reflexivity).
  - apply decoded_from_refl.
Qed.

Lemma receive_loop_decoded_from (drain : bool) (q : list received) :
  forall st,
    let '(_, st', _, _) := receive_loop st drain q in decoded_from st st'.
Proof.
  induction q as [|r q IH]; intros st; cbn [receive_loop];
    pose proof (av_frame_alloc_decoded_from st) as Ha;
    destruct (av_frame_alloc st) as [[|] st1]; cbn [negb snd] in *;
    try exact Ha.
  destruct ((receive_ret r =? AVERROR EAGAIN) || (receive_ret r =? AVERROR_EOF));
    [exact Ha |].
  destruct (receive_ret r <? 0); [exact Ha |].
  pose proof (dispatch_decoded_from st1 r) as Hd.
  destruct (dispatch st1 r) as [[ret st2] evs]. cbn [fst snd] in Hd.
  destruct (ret <? 0); [exact (decoded_from_trans _ _ _ Ha Hd) |].
  specialize (IH st2).
  destruct (receive_loop st2 drain q) as [[[ret' st3] q3] evs'].
  exact (decoded_from_trans _ _ _ Ha (decoded_from_trans _ _ _ Hd IH)).
Qed.

Lemma decode_write_decoded_from (st : state) (avctx : AVCodecContext)
      (packet : AVPacket) :
  let '(_, st', _, _) := decode_write st avctx packet in decoded_from st st'.
Proof.
  unfold decode_write.
  destruct (avcodec_send_packet avctx packet) as [ret avctx1].
  destruct (ret <? 0); [apply decoded_from_refl |].
  pose proof (receive_loop_decoded_from (draining avctx1) (pending avctx1) st)
    as H.
  destruct (receive_loop st (draining avctx1) (pending avctx1))
    as [[[ret' st'] q] evs].
  exact H.
Qed.

Lemma read_loop_decoded_from (video_stream : Z) (pkts : list AVPacket) :
  forall st avctx,
    let '(_, st', _, _, _) := read_loop video_stream st avctx pkts in
    decoded_from st st'.
Proof.
  induction pkts as [|packet rest IH]; intros st avctx; cbn [read_loop];
    [apply decoded_from_refl |].
  assert (H : let '(_, st1, _, _) :=
                if video_stream =? stream_index packet
                then decode_write st avctx packet
                else (0, st, avctx, []) in decoded_from st st1).
  { destruct (video_stream =? stream_index packet);
      [apply decode_write_decoded_from | apply decoded_from_refl]. }
  destruct (if video_stream =? stream_index packet
            then decode_write st avctx packet else (0, st, avctx, []))
    as [[[ret st1] avctx1] evs].
  destruct (ret >=? 0); [| exact H].
  specialize (IH st1 avctx1).
  destruct (read_loop video_stream st1 avctx1 rest)
    as [[[[ret' st2] avctx2] rest'] evs'].
  exact (decoded_from_trans _ _ _ H IH).
Qed.

Lemma decode_pass_decoded_from (o : options) (pe : pass_env)
      (video_stream : Z) (st : state) :
  decoded_from st (fst (decode_pass o pe video_stream st)).
Proof.
  unfold decode_pass.
  pose proof (read_loop_decoded_from video_stream (packets pe)
                (set_frames (frame_count o) st) (mkCtx [] false)) as Hr.
  destruct (read_loop video_stream (set_frames (frame_count o) st)
                      (mkCtx [] false) (packets pe))
    as [[[[ret st1] avctx] rest] evs_read].
  pose proof (decode_write_decoded_from st1 avctx (flush_packet pe)) as Hf.
  destruct (decode_write st1 avctx (flush_packet pe))
    as [[[ret' st2] avctx'] evs_flush].
  cbn [fst].
  apply (decoded_from_trans _ (set_frames (frame_count o) st)).
  - split; [reflexivity |]. split; [reflexivity |]. exists O. reflexivity.
  - exact (decoded_from_trans _ _ _ Hr Hf).
Qed.

(** The set-up reaches [avcodec_open2] only through the negotiation, and
    assigns [hw_pix_fmt] there and nothing else. *)
Lemma open_pass_go (env : environment) (type : Z) (o : options)
      (pe : pass_env) (st st1 : state) (video_stream : Z)
      (evs : list event) :
  open_pass env type o pe st = Go (video_stream, st1) evs ->
  video_stream = find_best_stream_ret pe
  /\ st1 = set_hw_pix_fmt (hw_pix_fmt st1) st
  /\ exists d, negotiate env type (best_decoder pe) st = Go (d, st1) [].
Proof.
  unfold open_pass, bind, emit, leave_if, hw_decoder_init.
  destruct (negb (open_input_ret pe =? 0)); [discriminate |].
  destruct (find_stream_info_ret pe <? 0); [discriminate |].
  destruct (find_best_stream_ret pe <? 0); [discriminate |].
  assert (Hn : forall d st', negotiate env type (best_decoder pe) st
                             = Go (d, st') [] ->
                             st' = set_hw_pix_fmt (hw_pix_fmt st') st).
  { unfold negotiate. intros d st'.
    destruct (id (best_decoder pe) =? AV_CODEC_ID_H264).
    - destruct (m2m_decoder env); [| discriminate].
      intros H. injection H as _ H. subst st'. reflexivity.
    - destruct (scan_hw_configs type (hw_configs (best_decoder pe)));
        [| discriminate].
      intros H. injection H as _ H. subst st'. reflexivity. }
  assert (Hev : forall a evs', negotiate env type (best_decoder pe) st
                               = Go a evs' -> evs' = []).
  { unfold negotiate. intros a evs'.
    destruct (id (best_decoder pe) =? AV_CODEC_ID_H264).
    - destruct (m2m_decoder env); [| discriminate].
      intros H. injection H as _ H. symmetry. exact H.
    - destruct (scan_hw_configs type (hw_configs (best_decoder pe)));
        [| discriminate].
      intros H. injection H as _ H. symmetry. exact H. }
  destruct (negotiate env type (best_decoder pe) st) as [[d st'] evs' | c evs']
    eqn:Eneg; [| discriminate].
  pose proof (Hev _ _ eq_refl) as He. subst evs'.
  specialize (Hn d st' eq_refl).
  destruct (negb (alloc_context_ok pe)); [discriminate |].
  destruct (parameters_to_context_ret pe <? 0); [discriminate |].
  destruct (hwdevice_ctx_create_ret pe <? 0); [discriminate |].
  destruct (open2_ret pe <? 0); [discriminate |].
  intros H. injection H as H1 H2 H3. subst st1.
  split; [symmetry; exact H1 |]. split; [exact Hn |]. exists d. reflexivity.
Qed.

Lemma playback_pass_go (env : environment) (type : Z) (o : options)
      (pe : pass_env) (st st' : state) (evs : list event) :
  playback_pass env type o pe st = Go st' evs ->
  exists st1 evs0,
    open_pass env type o pe st = Go (find_best_stream_ret pe, st1) evs0
    /\ st' = fst (decode_pass o pe (find_best_stream_ret pe) st1)
    /\ evs = evs0 ++ snd (decode_pass o pe (find_best_stream_ret pe) st1).
Proof.
  unfold playback_pass, bind.
  destruct (open_pass env type o pe st) as [[video_stream st1] evs0 | c evs0]
    eqn:Eopen; [| discriminate].
  destruct (open_pass_go _ _ _ _ _ _ _ _ Eopen) as [Hv _]. subst video_stream.
  destruct (decode_pass o pe (find_best_stream_ret pe) st1) as [st2 evs2]
    eqn:Ed.
  intros H. injection H as H1 H2. subst st' evs.
  exists st1, evs0. rewrite Ed. split; [reflexivity |]. split; reflexivity.
Qed.

Lemma playback_pass_state (env : environment) (type : Z) (o : options)
      (pe : pass_env) (st st' : state) (evs : list event) :
  playback_pass env type o pe st = Go st' evs ->
  output_file st' = output_file st
  /\ (exists k, frame_allocs st' = skipn k (frame_allocs st))
  /\ exists d,
       negotiate env type (best_decoder pe) st
       = Go (d, set_hw_pix_fmt (hw_pix_fmt st') st) [].
Proof.
  intros Hpass.
  destruct (playback_pass_go _ _ _ _ _ _ _ Hpass)
    as [st1 [evs0 [Hopen [Hst _]]]].
  destruct (open_pass_go _ _ _ _ _ _ _ _ Hopen) as [_ [Hst1 [d Hneg]]].
  destruct (decode_pass_decoded_from o pe (find_best_stream_ret pe) st1)
    as [Hhw [Hfile [k Hallocs]]].
  rewrite <- Hst in Hhw, Hfile, Hallocs.
  split; [rewrite Hfile, Hst1; reflexivity |].
  split; [exists k; rewrite Hallocs, Hst1; reflexivity |].
  exists d. rewrite Hhw, <- Hst1. exact Hneg.
Qed.

(** X12: a pass that ends leaves [hw_pix_fmt] as its negotiation set it
    and [output_file] as the pass found it ([fclose] does not reset it), and
    has taken the answers of the allocator in order: between the negotiation
    and the end of the pass only [frames] is assigned. *)
Theorem pass_assigns_only_the_frame_counter
  (env : environment) (type : Z) (o : options) (pe : pass_env)
  (st st' : state) (evs : list event)
  (Hpass : playback_pass env type o pe st = Go st' evs) :
  output_file st' = output_file st
  /\ (exists k, frame_allocs st' = skipn k (frame_allocs st))
  /\ exists d,
       negotiate env type (best_decoder pe) st
       = Go (d, set_hw_pix_fmt (hw_pix_fmt st') st) [].
Proof.
  exact (playback_pass_state env type o pe st st' evs Hpass).
Qed.

(** *** Packets of other streams *)

Lemma read_loop_of_stream (video_stream : Z) (pkts : list AVPacket) :
  forall st avctx,
    read_loop video_stream st avctx (of_stream video_stream pkts)
    = let '(ret, st', avctx', rest, evs) :=
        read_loop video_stream st avctx pkts in
      (ret, st', avctx', of_stream video_stream rest, evs).
Proof.
  induction pkts as [|packet rest IH]; intros st avctx; [reflexivity |].
  cbn [of_stream filter read_loop].
  destruct (video_stream =? stream_index packet) eqn:E.
  - cbn [read_loop]. rewrite E.
    destruct (decode_write st avctx packet) as [[[ret st1] avctx1] evs].
    destruct (ret >=? 0); [| reflexivity].
    fold (of_stream video_stream rest). rewrite IH.
    destruct (read_loop video_stream st1 avctx1 rest)
      as [[[[ret' st2] avctx2] rest'] evs'].
    reflexivity.
  - cbn [Z.geb Z.compare]. fold (of_stream video_stream rest). rewrite IH.
    destruct (read_loop video_stream st avctx rest)
      as [[[[ret' st2] avctx2] rest'] evs'].
    reflexivity.
Qed.

(** X11: the read loop hands only the packets of the video stream to the
    decoder: the packets of the other streams change neither what is
    returned, nor the variables, nor the decoder, nor what is displayed and
    dumped, nor the frame budget; a pass over the whole file does what the
    pass over its video packets does. *)
Theorem other_streams_are_skipped (o : options) (pe : pass_env)
        (video_stream : Z) (st : state) (avctx : AVCodecContext) :
  read_loop video_stream st avctx (of_stream video_stream (packets pe))
  = (let '(ret, st', avctx', rest, evs) :=
       read_loop video_stream st avctx (packets pe) in
     (ret, st', avctx', of_stream video_stream rest, evs))
  /\ decode_pass o (set_packets (of_stream video_stream (packets pe)) pe)
                 video_stream st
     = decode_pass o pe video_stream st.
Proof.
  split; [apply read_loop_of_stream |].
  unfold decode_pass. cbn [packets set_packets].
  rewrite read_loop_of_stream.
  destruct (read_loop video_stream (set_frames (frame_count o) st)
                      (mkCtx [] false) (packets pe))
    as [[[[ret st1] avctx1] rest] evs].
  reflexivity.
Qed.

(** *** The bytes of the dump *)

Lemma bytes_written_app (a b : list event) :
  bytes_written (a ++ b) = bytes_written a + bytes_written b.
Proof.
  induction a as [|e a IH]; [reflexivity |].
  destruct e; cbn [app bytes_written]; rewrite IH; lia.
Qed.

Lemma fills_app (size : Z) (a b : list event) :
  fills size a -> fills size b -> fills size (a ++ b).
Proof.
  unfold fills. intros Ha Hb.
  rewrite bytes_written_app, frames_dispatched_app, Nat2Z.inj_add,
    Z.mul_add_distr_l, Ha, Hb.
  reflexivity.
Qed.

Lemma fills_silent (size : Z) (evs : list event) :
  forallb (fun e => negb (is_decode e) || match e with
                                          | EvStderr _ => true
                                          | _ => false
                                          end) evs = true ->
  fills size evs.
Proof.
  unfold fills, frames_dispatched.
  induction evs as [|e evs IH]; cbn [forallb]; [intros _; cbn; lia |].
  rewrite andb_true_iff. intros [He H]. specialize (IH H).
  destruct e; cbn [is_decode negb orb] in He; try discriminate He;
    cbn [bytes_written filter is_display]; exact IH.
Qed.

Lemma dispatch_whole (hw size : Z) (st : state) (r : received) :
  hw_pix_fmt st = hw ->
  output_file st = true ->
  0 <= size < 2 ^ 31 ->
  dumps_whole hw size r = true ->
  snd (dispatch st r) = [EvDisplay (frame r); EvFwrite size size].
Proof.
  intros Hhw Hfile Hsize. unfold dumps_whole.
  rewrite !andb_true_iff, !Z.eqb_eq, Z.leb_le.
  intros [[[[Ht Hm] Hc] Hs] Hw].
  assert (Hwrite : forall tmp,
             av_image_get_buffer_size (format tmp) (width tmp) (height tmp) 1
             = size ->
             write_frame tmp r = (Next size, [EvFwrite size size])).
  { intros tmp E. unfold write_frame. rewrite E, Hm, Hw. cbn [negb].
    assert (E1 : (copy_ret r <? 0) = false) by (apply Z.ltb_ge; lia).
    rewrite E1, (int_of_size_t_small size Hsize).
    assert (E2 : (size <? 0) = false) by (apply Z.ltb_ge; lia).
    rewrite E2. reflexivity. }
  unfold dispatch, dump. rewrite Hfile, Hhw.
  destruct (format (frame r) =? hw).
  - cbn [negb orb] in Ht. apply Z.leb_le in Ht.
    assert (E : (transfer_ret r <? 0) = false) by (apply Z.ltb_ge; lia).
    rewrite E, (Hwrite _ Hs).
    destruct (frames st =? 0); [reflexivity |].
    destruct (frames (set_frames (long_dec (frames st)) st) =? 0); reflexivity.
  - rewrite (Hwrite _ Hs).
    destruct (frames st =? 0); [reflexivity |].
    destruct (frames (set_frames (long_dec (frames st)) st) =? 0); reflexivity.
Qed.

Lemma fills_frame (size : Z) (f : AVFrame) :
  fills size [EvDisplay f; EvFwrite size size].
Proof.
  unfold fills, frames_dispatched.
  cbn [bytes_written filter is_display List.length]. lia.
Qed.

Lemma receive_loop_whole (hw size : Z) (drain : bool) (q : list received) :
  0 <= size < 2 ^ 31 ->
  forall st,
    hw_pix_fmt st = hw ->
    output_file st = true ->
    forallb (dumps_whole hw size) q = true ->
    let '(_, _, q', evs) := receive_loop st drain q in
    fills size evs /\ forallb (dumps_whole hw size) q' = true.
Proof.
  intros Hsize.
  induction q as [|r q IH]; intros st Hhw Hfile Hq; cbn [receive_loop];
    destruct (av_frame_alloc_decoded_from st) as [Hhw1 [Hfile1 _]];
    destruct (av_frame_alloc st) as [[|] st1]; cbn [negb snd] in *;
    try (split; [apply fills_silent; reflexivity | exact Hq]).
  cbn [forallb] in Hq. apply andb_true_iff in Hq. destruct Hq as [Hr Hq].
  destruct ((receive_ret r =? AVERROR EAGAIN) || (receive_ret r =? AVERROR_EOF));
    [split; [apply fills_silent; reflexivity | exact Hq] |].
  destruct (receive_ret r <? 0);
    [split; [apply fills_silent; reflexivity | exact Hq] |].
  assert (Hhw' : hw_pix_fmt st1 = hw) by (rewrite Hhw1; exact Hhw).
  assert (Hfile' : output_file st1 = true) by (rewrite Hfile1; exact Hfile).
  pose proof (dispatch_whole hw size st1 r Hhw' Hfile' Hsize Hr) as Hd.
  destruct (dispatch_decoded_from st1 r) as [Hhw2 [Hfile2 _]].
  destruct (dispatch st1 r) as [[ret st2] evs]. cbn [fst snd] in *.
  subst evs.
  destruct (ret <? 0); [split; [apply fills_frame | exact Hq] |].
  specialize (IH st2).
  destruct (receive_loop st2 drain q) as [[[ret' st3] q3] evs'].
  destruct IH as [Hf Hq3].
  - rewrite Hhw2. exact Hhw'.
  - rewrite Hfile2. exact Hfile'.
  - exact Hq.
  - split; [| exact Hq3].
    apply (fills_app size [EvDisplay (frame r); EvFwrite size size] evs');
      [apply fills_frame | exact Hf].
Qed.

Lemma decode_write_whole (hw size : Z) (st : state) (avctx : AVCodecContext)
      (packet : AVPacket) :
  0 <= size < 2 ^ 31 ->
  hw_pix_fmt st = hw ->
  output_file st = true ->
  forallb (dumps_whole hw size) (pending avctx) = true ->
  forallb (dumps_whole hw size) (decoded packet) = true ->
  let '(_, _, avctx', evs) := decode_write st avctx packet in
  fills size evs /\ forallb (dumps_whole hw size) (pending avctx') = true.
Proof.
  intros Hsize Hhw Hfile Hp Hd. unfold decode_write, avcodec_send_packet.
  destruct (send_ret packet <? 0) eqn:E; cbv beta iota; rewrite E;
    cbv beta iota;
    [split; [apply fills_silent; reflexivity | exact Hp] |].
  cbn [pending draining].
  pose proof (receive_loop_whole hw size
                (draining avctx || data_null packet)
                (pending avctx ++ decoded packet) Hsize st Hhw Hfile) as H.
  destruct (receive_loop st (draining avctx || data_null packet)
                         (pending avctx ++ decoded packet))
    as [[[ret st'] q] evs].
  cbn [pending]. apply H. rewrite forallb_app, Hp, Hd. reflexivity.
Qed.

Lemma read_loop_whole (hw size : Z) (video_stream : Z)
      (pkts : list AVPacket) :
  0 <= size < 2 ^ 31 ->
  forall st avctx,
    hw_pix_fmt st = hw ->
    output_file st = true ->
    forallb (dumps_whole hw size) (pending avctx) = true ->
    forallb (dumps_whole hw size) (video_frames video_stream pkts) = true ->
    let '(_, st', avctx', _, evs) := read_loop video_stream st avctx pkts in
    fills size evs /\ forallb (dumps_whole hw size) (pending avctx') = true.
Proof.
  intros Hsize.
  induction pkts as [|packet rest IH]; intros st avctx Hhw Hfile Hp Hv;
    cbn [read_loop]; [split; [apply fills_silent; reflexivity | exact Hp] |].
  unfold video_frames in Hv. cbn [flat_map] in Hv.
  fold (video_frames video_stream rest) in Hv.
  rewrite forallb_app in Hv. apply andb_true_iff in Hv.
  destruct Hv as [Hd Hv].
  assert (H : let '(_, st1, avctx1, evs) :=
                if video_stream =? stream_index packet
                then decode_write st avctx packet
                else (0, st, avctx, []) in
              (fills size evs
               /\ forallb (dumps_whole hw size) (pending avctx1) = true)
              /\ decoded_from st st1).
  { destruct (video_stream =? stream_index packet).
    - pose proof (decode_write_whole hw size st avctx packet Hsize Hhw Hfile
                                     Hp Hd) as H.
      pose proof (decode_write_decoded_from st avctx packet) as H'.
      destruct (decode_write st avctx packet) as [[[ret st1] avctx1] evs].
      split; assumption.
    - split; [| apply decoded_from_refl].
      split; [apply fills_silent; reflexivity | exact Hp]. }
  destruct (if video_stream =? stream_index packet
            then decode_write st avctx packet else (0, st, avctx, []))
    as [[[ret st1] avctx1] evs].
  destruct H as [[Hf Hp1] [Hhw1 [Hfile1 _]]].
  destruct (ret >=? 0); [| split; assumption].
  specialize (IH st1 avctx1).
  destruct (read_loop video_stream st1 avctx1 rest)
    as [[[[ret' st2] avctx2] rest'] evs'].
  destruct IH as [Hf' Hp2].
  - rewrite Hhw1. exact Hhw.
  - rewrite Hfile1. exact Hfile.
  - exact Hp1.
  - exact Hv.
  - split; [apply fills_app; assumption | exact Hp2].
Qed.

(** X14: in a pass with a dump file in which the dump of every frame the
    decoder gives goes through, each frame an image of [size] bytes that
    [fwrite] writes whole, the bytes written are [size] times the number of
    frames displayed, whatever the frame budget, and whatever packets the
    decoder refuses or frames it fails to give. *)
Theorem dump_holds_every_displayed_frame
  (o : options) (pe : pass_env) (video_stream : Z) (st : state) (size : Z)
  (Hfile : output_file st = true)
  (Hsize : 0 <= size < 2 ^ 31)
  (Hread : forallb (dumps_whole (hw_pix_fmt st) size)
                   (video_frames video_stream (packets pe)) = true)
  (Hflush : forallb (dumps_whole (hw_pix_fmt st) size) (flush_decoded pe)
            = true) :
  bytes_written (snd (decode_pass o pe video_stream st))
  = size * Z.of_nat (frames_dispatched (snd (decode_pass o pe video_stream st))).
Proof.
  change (fills size (snd (decode_pass o pe video_stream st))).
  unfold decode_pass.
  pose proof (read_loop_whole (hw_pix_fmt st) size video_stream (packets pe)
                Hsize (set_frames (frame_count o) st) (mkCtx [] false)
                eq_refl Hfile eq_refl Hread) as Hr.
  pose proof (read_loop_decoded_from video_stream (packets pe)
                (set_frames (frame_count o) st) (mkCtx [] false)) as Hs.
  destruct (read_loop video_stream (set_frames (frame_count o) st)
                      (mkCtx [] false) (packets pe))
    as [[[[ret st1] avctx] rest] evs_read].
  destruct Hr as [Hf Hp]. destruct Hs as [Hhw1 [Hfile1 _]].
  cbn [hw_pix_fmt output_file set_frames] in Hhw1, Hfile1.
  pose proof (decode_write_whole (hw_pix_fmt st) size st1 avctx
                (flush_packet pe) Hsize Hhw1) as Hw.
  destruct (decode_write st1 avctx (flush_packet pe))
    as [[[ret' st2] avctx'] evs_flush].
  destruct Hw as [Hf' _].
  - rewrite Hfile1. exact Hfile.
  - exact Hp.
  - exact Hflush.
  - cbn [snd]. apply fills_app; [exact Hf |].
    apply fills_app; [exact Hf' |].
    apply fills_silent. destruct (output_file st2); reflexivity.
Qed.

(** *** The order of the frames *)

Lemma in_order_refl {A : Type} (l : list A) : in_order l l.
Proof.
  induction l as [|x l IH]; [apply in_order_nil | apply in_order_take; exact IH].
Qed.

Lemma in_order_app {A : Type} (a a' b b' : list A) :
  in_order a a' -> in_order b b' -> in_order (a ++ b) (a' ++ b').
Proof.
  intros Ha Hb. induction Ha as [|x l l' _ IH|x l l' _ IH]; cbn [app].
  - exact Hb.
  - apply in_order_skip. exact IH.
  - apply in_order_take. exact IH.
Qed.

Lemma in_order_trans {A : Type} (a b c : list A) :
  in_order a b -> in_order b c -> in_order a c.
Proof.
  intros Hab Hbc. revert a Hab.
  induction Hbc as [|x l l' _ IH|x l l' _ IH]; intros a Hab.
  - exact Hab.
  - apply in_order_skip. apply IH. exact Hab.
  - inversion Hab as [|y m m' Hm|y m m' Hm]; subst.
    + apply in_order_skip. apply IH. exact Hm.
    + apply in_order_take. apply IH. exact Hm.
Qed.

Lemma in_order_empty {A : Type} (l : list A) : in_order [] l.
Proof.
  induction l as [|x l IH]; [apply in_order_nil | apply in_order_skip; exact IH].
Qed.

Lemma displayed_app (a b : list event) :
  displayed (a ++ b) = displayed a ++ displayed b.
Proof.
  induction a as [|e a IH]; [reflexivity |].
  destruct e; cbn [app displayed]; rewrite IH; reflexivity.
Qed.

Lemma frames_dispatched_displayed (evs : list event) :
  frames_dispatched evs = List.length (displayed evs).
Proof.
  unfold frames_dispatched.
  induction evs as [|e evs IH]; [reflexivity |].
  destruct e; cbn [filter is_display displayed List.length]; rewrite ?IH;
    reflexivity.
Qed.

Lemma write_frame_displayed (tmp : AVFrame) (r : received) :
  displayed (snd (write_frame tmp r)) = [].
Proof.
  unfold write_frame. destruct (negb (malloc_ok r)); [reflexivity |].
  destruct (copy_ret r <? 0); [reflexivity |].
  destruct (int_of_size_t (fwrite_ret r) <? 0); reflexivity.
Qed.

(** Each turn of the loop that gets as far as the display hands the frame it
    received to the display, once. *)
Lemma dispatch_displayed (st : state) (r : received) :
  displayed (snd (dispatch st r)) = [frame r].
Proof.
  unfold dispatch.
  assert (H : displayed (snd (if output_file st then dump st r
                              else (Next (receive_ret r), []))) = []).
  { destruct (output_file st); [| reflexivity]. unfold dump.
    destruct (format (frame r) =? hw_pix_fmt st).
    - destruct (transfer_ret r <? 0); [reflexivity |].
      apply write_frame_displayed.
    - apply write_frame_displayed. }
  destruct (if output_file st then dump st r else (Next (receive_ret r), []))
    as [fl evs].
  cbn [snd] in H. destruct fl as [ret | ret].
  - destruct (frames st =? 0); cbn [snd displayed]; [rewrite H; reflexivity |].
    destruct (frames (set_frames (long_dec (frames st)) st) =? 0);
      cbn [snd displayed]; rewrite H; reflexivity.
  - cbn [snd displayed]. rewrite H. reflexivity.
Qed.

Lemma receive_loop_in_order (drain : bool) (q : list received) :
  forall st,
    let '(_, _, q', evs) := receive_loop st drain q in
    in_order (displayed evs ++ map frame q') (map frame q).
Proof.
  induction q as [|r q IH]; intros st; cbn [receive_loop];
    destruct (av_frame_alloc st) as [[|] st1]; cbn [negb];
    try apply in_order_refl.
  destruct ((receive_ret r =? AVERROR EAGAIN) || (receive_ret r =? AVERROR_EOF));
    [apply in_order_skip, in_order_refl |].
  destruct (receive_ret r <? 0); [apply in_order_skip, in_order_refl |].
  pose proof (dispatch_displayed st1 r) as Hd.
  destruct (dispatch st1 r) as [[ret st2] evs]. cbn [snd] in Hd.
  destruct (ret <? 0).
  - rewrite Hd. apply in_order_refl.
  - specialize (IH st2).
    destruct (receive_loop st2 drain q) as [[[ret' st3] q3] evs'].
    rewrite displayed_app, Hd. cbn [app map]. apply in_order_take. exact IH.
Qed.

Lemma decode_write_in_order (st : state) (avctx : AVCodecContext)
      (packet : AVPacket) :
  let '(_, _, avctx', evs) := decode_write st avctx packet in
  in_order (displayed evs ++ map frame (pending avctx'))
           (map frame (pending avctx ++ decoded packet)).
Proof.
  unfold decode_write, avcodec_send_packet.
  destruct (send_ret packet <? 0) eqn:E; cbv beta iota; rewrite E;
    cbv beta iota.
  - cbn [displayed app]. rewrite map_app.
    rewrite <- (app_nil_r (map frame (pending avctx))) at 1.
    apply in_order_app; [apply in_order_refl | apply in_order_empty].
  - cbn [pending draining].
    pose proof (receive_loop_in_order (draining avctx || data_null packet)
                  (pending avctx ++ decoded packet) st) as H.
    destruct (receive_loop st (draining avctx || data_null packet)
                           (pending avctx ++ decoded packet))
      as [[[ret st'] q] evs].
    exact H.
Qed.

Lemma read_loop_in_order (video_stream : Z) (pkts : list AVPacket) :
  forall st avctx,
    let '(_, _, avctx', _, evs) := read_loop video_stream st avctx pkts in
    in_order (displayed evs ++ map frame (pending avctx'))
             (map frame (pending avctx ++ video_frames video_stream pkts)).
Proof.
  induction pkts as [|packet rest IH]; intros st avctx; cbn [read_loop].
  - cbn [displayed app]. unfold video_frames. cbn [flat_map].
    rewrite app_nil_r. apply in_order_refl.
  - unfold video_frames. cbn [flat_map].
    fold (video_frames video_stream rest).
    assert (H : let '(_, _, avctx1, evs) :=
                  if video_stream =? stream_index packet
                  then decode_write st avctx packet
                  else (0, st, avctx, []) in
                in_order (displayed evs ++ map frame (pending avctx1))
                         (map frame
                            (pending avctx
                             ++ (if video_stream =? stream_index packet
                                 then decoded packet else [])))).
    { destruct (video_stream =? stream_index packet).
      - apply decode_write_in_order.
      - cbn [displayed app]. rewrite app_nil_r. apply in_order_refl. }
    destruct (if video_stream =? stream_index packet
              then decode_write st avctx packet else (0, st, avctx, []))
      as [[[ret st1] avctx1] evs].
    rewrite app_assoc, map_app.
    destruct (ret >=? 0).
    + specialize (IH st1 avctx1).
      destruct (read_loop video_stream st1 avctx1 rest)
        as [[[[ret' st2] avctx2] rest'] evs'].
      rewrite displayed_app, <- app_assoc.
      apply (in_order_trans _ (displayed evs
                               ++ map frame (pending avctx1
                                             ++ video_frames video_stream rest))).
      * apply in_order_app; [apply in_order_refl | exact IH].
      * rewrite map_app, app_assoc.
        apply in_order_app; [exact H | apply in_order_refl].
    + rewrite <- (app_nil_r (displayed evs ++ map frame (pending avctx1))).
      apply in_order_app; [exact H | apply in_order_empty].
Qed.

(** X17: the frames a pass displays are frames the decoder gave for the
    packets of the video stream and for the flush, in the order it gave
    them, and none is displayed twice. *)
Theorem frames_displayed_in_decoder_order
  (o : options) (pe : pass_env) (video_stream : Z) (st : state) :
  in_order (displayed (snd (decode_pass o pe video_stream st)))
           (map frame (video_frames video_stream (packets pe)
                       ++ flush_decoded pe))
  /\ frames_dispatched (snd (decode_pass o pe video_stream st))
     = List.length (displayed (snd (decode_pass o pe video_stream st))).
Proof.
  split; [| apply frames_dispatched_displayed].
  unfold decode_pass.
  pose proof (read_loop_in_order video_stream (packets pe)
                (set_frames (frame_count o) st) (mkCtx [] false)) as Hr.
  destruct (read_loop video_stream (set_frames (frame_count o) st)
                      (mkCtx [] false) (packets pe))
    as [[[[ret st1] avctx] rest] evs_read].
  cbn [pending app] in Hr.
  pose proof (decode_write_in_order st1 avctx (flush_packet pe)) as Hf.
  destruct (decode_write st1 avctx (flush_packet pe))
    as [[[ret' st2] avctx'] evs_flush].
  cbn [decoded flush_packet] in Hf.
  cbn [snd]. rewrite !displayed_app.
  assert (Htail : displayed ((if output_file st2 then [EvFclose] else [])
                             ++ [EvFreeContext; EvCloseInput; EvBufferUnref])
                  = []).
  { destruct (output_file st2); reflexivity. }
  rewrite <- displayed_app, Htail, app_nil_r.
  apply (in_order_trans _ (displayed evs_read
                           ++ map frame (pending avctx ++ flush_decoded pe))).
  - apply in_order_app; [apply in_order_refl |].
    apply (in_order_trans _ (displayed evs_flush
                             ++ map frame (pending avctx'))); [| exact Hf].
    rewrite <- (app_nil_r (displayed evs_flush)) at 1.
    apply in_order_app; [apply in_order_refl | apply in_order_empty].
  - rewrite !map_app, app_assoc.
    apply in_order_app; [exact Hr | apply in_order_refl].
Qed.

(** *** Where the frame budget stops a pass *)

Lemma dump_clean (st : state) (r : received) :
  dispatches_cleanly r = true ->
  exists ret evs,
    (if output_file st then dump st r else (Next (receive_ret r), []))
    = (Next ret, evs)
    /\ 0 <= ret /\ frames_dispatched evs = O.
Proof.
  intros Hclean. destruct (output_file st).
  - unfold dump.
    assert (Et : (transfer_ret r <? 0) = false).
    { unfold dispatches_cleanly in Hclean.
      rewrite !andb_true_iff, !Z.leb_le in Hclean. apply Z.ltb_ge.
      destruct Hclean as [[[[[_ H] _] _] _] _]. exact H. }
    rewrite Et.
    destruct (format (frame r) =? hw_pix_fmt st);
      apply write_frame_clean; exact Hclean.
  - exists (receive_ret r), []. split; [reflexivity |].
    unfold dispatches_cleanly in Hclean.
    rewrite !andb_true_iff, !Z.leb_le in Hclean.
    destruct Hclean as [[[[[H _] _] _] _] _].
    split; [exact H | reflexivity].
Qed.

(** A frame dispatched cleanly under a budget: it is displayed, and the
    loop goes on when more than one frame was left to count. *)
Lemma dispatch_counted (st : state) (r : received) :
  0 <= frames st <= LONG_MAX ->
  dispatches_cleanly r = true ->
  exists ret st' evs,
    dispatch st r = (ret, st', evs)
    /\ frames_dispatched evs = 1%nat
    /\ frame_allocs st' = frame_allocs st
    /\ ((frames st <= 1 /\ ret < 0 /\ frames st' = 0)
        \/ (1 < frames st /\ 0 <= ret /\ frames st' = frames st - 1)).
Proof.
  intros Hf Hclean.
  destruct (dump_clean st r Hclean) as [ret [evs [E [Hret Hd]]]].
  assert (Hone : frames_dispatched (EvDisplay (frame r) :: evs) = 1%nat).
  { unfold frames_dispatched in *. cbn [filter is_display List.length]. lia. }
  unfold dispatch. rewrite E.
  destruct (frames st =? 0) eqn:E0.
  - apply Z.eqb_eq in E0. exists (-1), st, (EvDisplay (frame r) :: evs).
    split; [reflexivity |]. split; [exact Hone |]. split; [reflexivity |].
    left. lia.
  - apply Z.eqb_neq in E0. cbn [frames set_frames].
    rewrite long_dec_in_range by (pose proof LONG_MIN_neg; lia).
    destruct (frames st - 1 =? 0) eqn:E1.
    + apply Z.eqb_eq in E1.
      exists (-1), (set_frames (frames st - 1) st),
        (EvDisplay (frame r) :: evs).
      split; [reflexivity |]. split; [exact Hone |]. split; [reflexivity |].
      left. cbn [frames set_frames]. lia.
    + apply Z.eqb_neq in E1.
      exists ret, (set_frames (frames st - 1) st),
        (EvDisplay (frame r) :: evs).
      split; [reflexivity |]. split; [exact Hone |]. split; [reflexivity |].
      right. cbn [frames set_frames]. lia.
Qed.

Lemma receive_loop_counted (drain : bool) (q : list received) :
  forall st,
    frame_allocs st = [] ->
    0 <= frames st <= LONG_MAX ->
    forallb dispatches_cleanly q = true ->
    exists ret st' q' evs,
      receive_loop st drain q = (ret, st', q', evs)
      /\ frame_allocs st' = []
      /\ forallb dispatches_cleanly q' = true
      /\ ((Z.of_nat (List.length q) < Z.max (frames st) 1
           /\ ret = 0
           /\ frames st' = frames st - Z.of_nat (List.length q)
           /\ frames_dispatched evs = List.length q
           /\ q' = [])
          \/ (Z.max (frames st) 1 <= Z.of_nat (List.length q)
              /\ ret < 0
              /\ frames st' = 0
              /\ Z.of_nat (frames_dispatched evs) = Z.max (frames st) 1)).
Proof.
  induction q as [|r q IH]; intros st Ha Hf Hclean;
    cbn [receive_loop]; unfold av_frame_alloc; rewrite Ha; cbn [negb].
  - exists 0, st, [], []. split; [reflexivity |]. split; [exact Ha |].
    split; [reflexivity |]. left. cbn [List.length Z.of_nat].
    split; [lia |]. split; [reflexivity |]. split; [lia |].
    split; reflexivity.
  - cbn [forallb] in Hclean. apply andb_true_iff in Hclean.
    destruct Hclean as [Hr Hq].
    assert (Hrecv : 0 <= receive_ret r).
    { unfold dispatches_cleanly in Hr.
      rewrite !andb_true_iff, !Z.leb_le in Hr.
      destruct Hr as [[[[[H _] _] _] _] _]. exact H. }
    assert (E1 : (receive_ret r =? AVERROR EAGAIN) = false).
    { apply Z.eqb_neq. pose proof AVERROR_EAGAIN_neg. lia. }
    assert (E2 : (receive_ret r =? AVERROR_EOF) = false).
    { apply Z.eqb_neq. pose proof AVERROR_EOF_neg. lia. }
    assert (E3 : (receive_ret r <? 0) = false) by (apply Z.ltb_ge; lia).
    rewrite E1, E2, E3. cbn [orb].
    destruct (dispatch_counted st r Hf Hr)
      as [ret [st2 [evs [Hd [Hone [Ha2 Hcase]]]]]].
    rewrite Hd. rewrite Ha in Ha2.
    destruct Hcase as [[Hlow [Hret Hf2]] | [Hhigh [Hret Hf2]]].
    + assert (E4 : (ret <? 0) = true) by (apply Z.ltb_lt; exact Hret).
      rewrite E4. exists ret, st2, q, evs.
      split; [reflexivity |]. split; [exact Ha2 |]. split; [exact Hq |].
      right. cbn [List.length]. rewrite Hone.
      split; [lia |]. split; [exact Hret |]. split; [exact Hf2 | lia].
    + assert (E4 : (ret <? 0) = false) by (apply Z.ltb_ge; exact Hret).
      rewrite E4.
      destruct (IH st2 Ha2) as [ret' [st3 [q3 [evs' [Hloop [Ha3 [Hq3 Hcase]]]]]]];
        [lia | exact Hq |].
      rewrite Hloop. exists ret', st3, q3, (evs ++ evs').
      split; [reflexivity |]. split; [exact Ha3 |]. split; [exact Hq3 |].
      rewrite frames_dispatched_app, Hone. cbn [List.length].
      destruct Hcase as [[Hn [Hr' [Hf3 [Hd' Hq']]]] | [Hn [Hr' [Hf3 Hd']]]].
      * left. split; [lia |]. split; [exact Hr' |]. split; [lia |].
        split; [lia | exact Hq'].
      * right. split; [lia |]. split; [exact Hr' |]. split; [exact Hf3 | lia].
Qed.

Lemma decode_write_counted (st : state) (avctx : AVCodecContext)
      (packet : AVPacket) :
  frame_allocs st = [] ->
  0 <= frames st <= LONG_MAX ->
  forallb dispatches_cleanly (pending avctx) = true ->
  decodes_cleanly packet = true ->
  exists ret st' avctx' evs,
    decode_write st avctx packet = (ret, st', avctx', evs)
    /\ frame_allocs st' = []
    /\ forallb dispatches_cleanly (pending avctx') = true
    /\ ((Z.of_nat (List.length (pending avctx ++ decoded packet))
         < Z.max (frames st) 1
         /\ ret = 0
         /\ frames st'
            = frames st
              - Z.of_nat (List.length (pending avctx ++ decoded packet))
         /\ frames_dispatched evs
            = List.length (pending avctx ++ decoded packet)
         /\ pending avctx' = [])
        \/ (Z.max (frames st) 1
            <= Z.of_nat (List.length (pending avctx ++ decoded packet))
            /\ ret < 0
            /\ frames st' = 0
            /\ Z.of_nat (frames_dispatched evs) = Z.max (frames st) 1)).
Proof.
  intros Ha Hf Hp Hclean. unfold decodes_cleanly in Hclean.
  apply andb_true_iff in Hclean. destruct Hclean as [Hs Hq].
  apply Z.leb_le in Hs. rewrite (decode_write_sent st avctx packet Hs).
  cbv zeta.
  destruct (receive_loop_counted (draining avctx || data_null packet)
              (pending avctx ++ decoded packet) st Ha Hf)
    as [ret [st' [q' [evs [Hloop [Ha' [Hq' Hcase]]]]]]].
  { rewrite forallb_app, Hp, Hq. reflexivity. }
  rewrite Hloop.
  exists ret, st', (mkCtx q' (draining avctx || data_null packet)), evs.
  split; [reflexivity |]. split; [exact Ha' |]. split; [exact Hq' |].
  exact Hcase.
Qed.

Lemma read_loop_counted (video_stream : Z) (pkts : list AVPacket) :
  forall st avctx,
    pending avctx = [] ->
    frame_allocs st = [] ->
    0 <= frames st <= LONG_MAX ->
    forallb (fun packet => negb (video_stream =? stream_index packet)
                           || decodes_cleanly packet) pkts = true ->
    exists ret st' avctx' rest evs,
      read_loop video_stream st avctx pkts = (ret, st', avctx', rest, evs)
      /\ frame_allocs st' = []
      /\ forallb dispatches_cleanly (pending avctx') = true
      /\ ((Z.of_nat (List.length (video_frames video_stream pkts))
           < Z.max (frames st) 1
           /\ frames st'
              = frames st
                - Z.of_nat (List.length (video_frames video_stream pkts))
           /\ frames_dispatched evs
              = List.length (video_frames video_stream pkts)
           /\ pending avctx' = [])
          \/ (Z.max (frames st) 1
              <= Z.of_nat (List.length (video_frames video_stream pkts))
              /\ frames st' = 0
              /\ Z.of_nat (frames_dispatched evs) = Z.max (frames st) 1)).
Proof.
  induction pkts as [|packet rest IH]; intros st avctx Hp Ha Hf Hclean;
    cbn [read_loop].
  - exists AVERROR_EOF, st, avctx, [], [].
    split; [reflexivity |]. split; [exact Ha |].
    split; [rewrite Hp; reflexivity |]. left.
    unfold video_frames. cbn [flat_map List.length Z.of_nat].
    split; [lia |]. split; [lia |]. split; [reflexivity | exact Hp].
  - cbn [forallb] in Hclean. apply andb_true_iff in Hclean.
    destruct Hclean as [Hpacket Hrest].
    unfold video_frames. cbn [flat_map].
    fold (video_frames video_stream rest). rewrite length_app.
    destruct (video_stream =? stream_index packet) eqn:Ev;
      cbn [negb orb] in Hpacket.
    + destruct (decode_write_counted st avctx packet Ha Hf)
        as [ret [st1 [avctx1 [evs [Hw [Ha1 [Hp1 Hcase]]]]]]];
        [rewrite Hp; reflexivity | exact Hpacket |].
      rewrite Hw. rewrite Hp in Hcase. cbn [app] in Hcase.
      destruct Hcase as [[Hn [Hret [Hf1 [Hd Hq]]]] | [Hn [Hret [Hf1 Hd]]]].
      * subst ret. cbn [Z.geb Z.compare].
        destruct (IH st1 avctx1 Hq Ha1)
          as [ret' [st2 [avctx2 [rest' [evs' [Hloop [Ha2 [Hp2 Hcase]]]]]]]];
          [lia | exact Hrest |].
        rewrite Hloop. exists ret', st2, avctx2, rest', (evs ++ evs').
        split; [reflexivity |]. split; [exact Ha2 |]. split; [exact Hp2 |].
        rewrite frames_dispatched_app, Hd.
        destruct Hcase as [[Hm [Hf2 [Hd' Hq']]] | [Hm [Hf2 Hd']]].
        -- left. split; [lia |]. split; [lia |]. split; [lia | exact Hq'].
        -- right. split; [lia |]. split; [exact Hf2 | lia].
      * assert (E : (ret >=? 0) = false).
        { rewrite Z.geb_leb. apply Z.leb_gt. exact Hret. }
        rewrite E. exists ret, st1, avctx1, rest, evs.
        split; [reflexivity |]. split; [exact Ha1 |]. split; [exact Hp1 |].
        right. split; [lia |]. split; [exact Hf1 | exact Hd].
    + cbn [Z.geb Z.compare].
      destruct (IH st avctx Hp Ha Hf Hrest)
        as [ret' [st2 [avctx2 [rest' [evs' [Hloop [Ha2 [Hp2 Hcase]]]]]]]].
      rewrite Hloop. exists ret', st2, avctx2, rest', evs'.
      split; [reflexivity |]. split; [exact Ha2 |]. split; [exact Hp2 |].
      cbn [List.length Nat.add app]. exact Hcase.
Qed.

(** X19: where the frame budget stops a pass in which every call
    succeeds.  With [b = max(frame_count, 1)], [n] frames for the packets of
    the video stream and [m] frames released by the flush: when [n < b] the
    read loop displays its [n] frames and the pass [min(n + m, b)]; when
    [b <= n] the read loop displays [b] frames and stops, and the flush
    that follows displays one frame more whenever the decoder has one: the
    pass displays [b + 1] frames. *)
Theorem frame_budget_overrun_by_one
  (o : options) (pe : pass_env) (video_stream : Z) (st : state)
  (Hk : 0 <= frame_count o <= LONG_MAX)
  (Hallocs : frame_allocs st = [])
  (Hpackets : forallb (fun packet =>
                         negb (video_stream =? stream_index packet)
                         || decodes_cleanly packet) (packets pe) = true)
  (Hflush : decodes_cleanly (flush_packet pe) = true) :
  let b := Z.max (frame_count o) 1 in
  let n := Z.of_nat (List.length (video_frames video_stream (packets pe))) in
  let m := Z.of_nat (List.length (flush_decoded pe)) in
  (n < b ->
   Z.of_nat (frames_dispatched (snd (decode_pass o pe video_stream st)))
   = Z.min (n + m) b)
  /\ (b <= n ->
      Z.of_nat (frames_dispatched
                  (snd (read_loop video_stream
                                  (set_frames (frame_count o) st)
                                  (mkCtx [] false) (packets pe)))) = b
      /\ (1 <= m ->
          Z.of_nat (frames_dispatched (snd (decode_pass o pe video_stream st)))
          = b + 1)).
Proof.
  intros b n m. subst b n m.
  destruct (read_loop_counted video_stream (packets pe)
              (set_frames (frame_count o) st) (mkCtx [] false)
              eq_refl Hallocs Hk Hpackets)
    as [ret [st1 [avctx [rest [evs [Hread [Ha1 [Hp1 Hcase]]]]]]]].
  cbn [frames set_frames] in Hcase.
  assert (Htail : forall st2 evs_flush,
             frames_dispatched
               (evs ++ evs_flush
                ++ (if output_file st2 then [EvFclose] else [])
                ++ [EvFreeContext; EvCloseInput; EvBufferUnref])
             = (frames_dispatched evs + frames_dispatched evs_flush)%nat).
  { intros st2 evs_flush. rewrite !frames_dispatched_app.
    destruct (output_file st2); unfold frames_dispatched;
      cbn [filter is_display List.length]; lia. }
  unfold decode_pass. rewrite Hread. cbn [snd].
  destruct Hcase as [[Hn [Hf1 [Hd Hq]]] | [Hn [Hf1 Hd]]].
  - split; [intros _ | intros Hb; exfalso; lia].
    destruct (decode_write_counted st1 avctx (flush_packet pe) Ha1)
      as [ret' [st2 [avctx' [evs' [Hw [_ [_ Hcase]]]]]]];
      [lia | exact Hp1 | exact Hflush |].
    rewrite Hw. cbn [snd]. rewrite Htail.
    rewrite Hq in Hcase. cbn [app decoded flush_packet] in Hcase.
    destruct Hcase as [[Hm [_ [_ [Hd' _]]]] | [Hm [_ [_ Hd']]]]; lia.
  - split; [intros Hb; exfalso; lia | intros _].
    split; [exact Hd |]. intros Hm.
    destruct (decode_write_counted st1 avctx (flush_packet pe) Ha1)
      as [ret' [st2 [avctx' [evs' [Hw [_ [_ Hcase]]]]]]];
      [lia | exact Hp1 | exact Hflush |].
    rewrite Hw. cbn [snd]. rewrite Htail.
    rewrite length_app in Hcase. cbn [decoded flush_packet] in Hcase.
    rewrite Hf1 in Hcase. cbn [Z.max Z.compare] in Hcase.
    destruct Hcase as [[Hlt _] | [_ [_ [_ Hd']]]]; lia.
Qed.

(** *** How a run ends *)

Lemma negotiate_leave (env : environment) (type : Z) (decoder : AVCodec)
      (st : state) (code : Z) (evs : list event) :
  negotiate env type decoder st = Leave code evs -> code = -1.
Proof.
  unfold negotiate. destruct (id decoder =? AV_CODEC_ID_H264).
  - destruct (m2m_decoder env); [discriminate |].
    intros H. injection H as H _. symmetry. exact H.
  - destruct (scan_hw_configs type (hw_configs decoder)); [discriminate |].
    intros H. injection H as H _. symmetry. exact H.
Qed.

(** The values [main] returns from the set-up of a pass. *)
Lemma open_pass_leave (env : environment) (type : Z) (o : options)
      (pe : pass_env) (st : state) (code : Z) (evs : list event) :
  open_pass env type o pe st = Leave code evs ->
  code = -1 \/ code = AVERROR ENOMEM.
Proof.
  unfold open_pass, bind, emit, leave_if, hw_decoder_init.
  destruct (negb (open_input_ret pe =? 0));
    [intros H; injection H as H _; left; symmetry; exact H |].
  destruct (find_stream_info_ret pe <? 0);
    [intros H; injection H as H _; left; symmetry; exact H |].
  destruct (find_best_stream_ret pe <? 0);
    [intros H; injection H as H _; left; symmetry; exact H |].
  destruct (negotiate env type (best_decoder pe) st)
    as [[d st1] evs1 | c evs1] eqn:Eneg.
  - destruct (negb (alloc_context_ok pe));
      [intros H; injection H as H _; right; symmetry; exact H |].
    destruct (parameters_to_context_ret pe <? 0);
      [intros H; injection H as H _; left; symmetry; exact H |].
    destruct (hwdevice_ctx_create_ret pe <? 0);
      [intros H; injection H as H _; left; symmetry; exact H |].
    destruct (open2_ret pe <? 0);
      [intros H; injection H as H _; left; symmetry; exact H |].
    discriminate.
  - apply negotiate_leave in Eneg. subst c.
    intros H. injection H as H _. left. symmetry. exact H.
Qed.

Lemma negotiate_go (env : environment) (type : Z) (decoder : AVCodec)
      (st : state) (a : AVCodec * state) (evs : list event) :
  negotiate env type decoder st = Go a evs ->
  negotiable env type decoder = true.
Proof.
  unfold negotiate, negotiable. destruct (id decoder =? AV_CODEC_ID_H264).
  - destruct (m2m_decoder env); [reflexivity | discriminate].
  - destruct (scan_hw_configs type (hw_configs decoder));
      [reflexivity | discriminate].
Qed.

(** A set-up in which a call fails does not reach [avcodec_open2]. *)
Lemma open_pass_fails (env : environment) (type : Z) (o : options)
      (pe : pass_env) (st : state) :
  setup_ok env type pe = false ->
  exists code evs, open_pass env type o pe st = Leave code evs.
Proof.
  intros Hfail.
  destruct (open_pass env type o pe st) as [[vs st1] evs | code evs] eqn:E;
    [| exists code, evs; reflexivity].
  exfalso. revert E Hfail.
  unfold open_pass, setup_ok, bind, emit, leave_if, hw_decoder_init.
  rewrite !Z.geb_leb, !Z.ltb_antisym.
  destruct (open_input_ret pe =? 0); cbn [negb andb]; [| discriminate].
  destruct (0 <=? find_stream_info_ret pe); cbn [negb andb]; [| discriminate].
  destruct (0 <=? find_best_stream_ret pe); cbn [negb andb]; [| discriminate].
  destruct (negotiate env type (best_decoder pe) st)
    as [[d st'] evs1 | c evs1] eqn:Eneg; [| discriminate].
  rewrite (negotiate_go _ _ _ _ _ _ Eneg).
  destruct (alloc_context_ok pe); cbn [negb andb]; [| discriminate].
  destruct (0 <=? parameters_to_context_ret pe); cbn [negb andb];
    [| discriminate].
  destruct (0 <=? hwdevice_ctx_create_ret pe); cbn [negb andb];
    [| discriminate].
  destruct (0 <=? open2_ret pe); cbn [negb andb]; discriminate.
Qed.

Lemma playback_pass_leave (env : environment) (type : Z) (o : options)
      (pe : pass_env) (st : state) (code : Z) (evs : list event) :
  playback_pass env type o pe st = Leave code evs <->
  open_pass env type o pe st = Leave code evs.
Proof.
  unfold playback_pass, bind.
  destruct (open_pass env type o pe st) as [[vs st1] evs0 | c evs0].
  - destruct (decode_pass o pe vs st1) as [st2 evs2].
    split; discriminate.
  - split; intros H; injection H as H1 H2; subst c evs0; reflexivity.
Qed.

(** The passes up to one whose set-up fails. *)
Lemma main_loop_aborts (env : environment) (type : Z) (o : options) :
  forall (k fuel : nat) (count : Z) (i : nat) (st : state),
    LONG_MIN < count <= LONG_MAX ->
    (k < Z.to_nat (Z.max count 1))%nat ->
    (forall j, (i <= j < i + k)%nat ->
               setup_ok env type (pass env j) = true) ->
    setup_ok env type (pass env (i + k)) = false ->
    (k < fuel)%nat ->
    exists code done failed,
      main_loop fuel env type o count i st
      = (Returned code, done ++ [failed], [])
      /\ (code = -1 \/ code = AVERROR ENOMEM)
      /\ List.length done = k
      /\ Forall (fun evs => In EvCloseInput evs
                            /\ uses_after_close Open evs = O) done
      /\ forallb is_setup failed = true.
Proof.
  induction k as [|k IH]; intros fuel count i st Hrange Hk Hbefore Hfail Hfuel;
    (destruct fuel as [|fuel]; [exfalso; lia |]); cbn [main_loop].
  - rewrite Nat.add_0_r in Hfail.
    destruct (open_pass_fails env type o (pass env i) st Hfail)
      as [code [evs Hopen]].
    pose proof (open_pass_events env type o (pass env i) st) as Hev.
    rewrite Hopen in Hev.
    pose proof (open_pass_leave _ _ _ _ _ _ _ Hopen) as Hcode.
    apply playback_pass_leave in Hopen. rewrite Hopen.
    exists code, [], evs.
    split; [reflexivity |]. split; [exact Hcode |].
    split; [reflexivity |]. split; [constructor | exact Hev].
  - destruct (playback_pass_ok env type o (pass env i) st)
      as [st' [evs [Hp Hin]]].
    { apply Hbefore. lia. }
    pose proof (single_pass_open_file env type o (pass env i) st) as Hopen.
    rewrite Hp in Hopen.
    rewrite Hp, (long_dec_in_range count Hrange).
    assert (Hcount : (count - 1 >? 0) = true).
    { rewrite Z.gtb_ltb. apply Z.ltb_lt. lia. }
    rewrite Hcount.
    destruct (IH fuel (count - 1) (S i) st')
      as [code [done [failed [Hloop [Hcode [Hlen [Hdone Hfailed]]]]]]].
    + unfold LONG_MIN, LONG_MAX in *. lia.
    + lia.
    + intros j Hj. apply Hbefore. lia.
    + replace (S i + k)%nat with (i + S k)%nat by lia. exact Hfail.
    + lia.
    + rewrite Hloop. exists code, (evs :: done), failed.
      split; [reflexivity |]. split; [exact Hcode |].
      split; [cbn [List.length]; lia |].
      split; [constructor; [split |]; assumption | exact Hfailed].
Qed.

(** X15: when the set-up of a pass fails, after [k] passes that went
    through, [main] returns from there with -1 or [AVERROR(ENOMEM)]: the
    run has [k] passes with their teardown and ends with the events of the
    failed set-up, without teardown, without the passes that were left and
    without [drmprime_out_delete].  This is for the runs that get there
    without a call on a closed dump file: those without dump file, and with
    one those whose first or second pass fails. *)
Theorem failed_setup_ends_the_run
  (fuel : nat) (env : environment) (o : options) (k : nat)
  (Hrange : LONG_MIN < loop_count o <= LONG_MAX)
  (Htype : drm_device_type env <> AV_HWDEVICE_TYPE_NONE)
  (Hout : out_new_ok env = true)
  (Hfopen : out_name o = None \/ fopen_ok env = true)
  (Hfile : out_name o = None \/ (k <= 1)%nat)
  (Hk : (k < Z.to_nat (Z.max (loop_count o) 1))%nat)
  (Hbefore : forall i, (i < k)%nat ->
                       setup_ok env (drm_device_type env) (pass env i) = true)
  (Hfail : setup_ok env (drm_device_type env) (pass env k) = false)
  (Hfuel : (k < fuel)%nat) :
  uses_after_close NeverOpened (trace (playback fuel env o)) = O
  /\ exists code done failed,
       status (playback fuel env o) = Returned code
       /\ (code = -1 \/ code = AVERROR ENOMEM)
       /\ passes (playback fuel env o) = done ++ [failed]
       /\ List.length done = k
       /\ Forall (fun evs => In EvCloseInput evs) done
       /\ forallb is_setup failed = true
       /\ existsb is_teardown failed = false
       /\ epilogue (playback fuel env o) = [].
Proof.
  assert (Hloop : forall st,
             exists code done failed,
               main_loop fuel env (drm_device_type env) o (loop_count o) 0 st
               = (Returned code, done ++ [failed], [])
               /\ (code = -1 \/ code = AVERROR ENOMEM)
               /\ List.length done = k
               /\ Forall (fun evs => In EvCloseInput evs
                                     /\ uses_after_close Open evs = O) done
               /\ forallb is_setup failed = true).
  { intros st. apply main_loop_aborts;
      [exact Hrange | exact Hk | | exact Hfail | exact Hfuel].
    intros j Hj. apply Hbefore. lia. }
  assert (Hin : forall done : list (list event),
             Forall (fun evs => In EvCloseInput evs
                                /\ uses_after_close Open evs = O) done ->
             Forall (fun evs => In EvCloseInput evs) done).
  { intros done H. induction H as [|evs done [H1 _] _ IH]; constructor;
      assumption. }
  split.
  - destruct (out_name o) as [path|] eqn:Hpath;
      [| apply run_without_closed_file_use; left; exact Hpath].
    destruct Hfopen as [Hnone | Hopen]; [discriminate |].
    destruct Hfile as [Hnone | Hk1]; [discriminate |].
    unfold playback. apply Z.eqb_neq in Htype.
    rewrite Htype, Hout, Hpath, Hopen. cbn [negb].
    destruct (Hloop (set_output_file true (initial_state env)))
      as [code [done [failed [E [_ [Hl [Hd Hf]]]]]]].
    rewrite E. unfold trace. cbn [prologue passes epilogue].
    cbn [app uses_after_close file_step]. rewrite app_nil_r.
    apply setup_quiet in Hf.
    destruct done as [|d [|d' done]]; cbn [List.length] in Hl; [| | lia].
    + cbn [app List.concat]. rewrite app_nil_r.
      apply uses_after_close_quiet. exact Hf.
    + cbn [app List.concat]. rewrite app_nil_r.
      inversion Hd as [|x l [_ Hu] _]; subst.
      rewrite uses_after_close_app, Hu.
      apply uses_after_close_quiet. exact Hf.
  - unfold playback. apply Z.eqb_neq in Htype. rewrite Htype, Hout.
    cbn [negb].
    assert (Hend : forall st path,
               exists code done failed,
                 status (let '(s, ps, ep) :=
                           main_loop fuel env (drm_device_type env) o
                                     (loop_count o) 0 st in
                         mkRun s path ps ep) = Returned code
                 /\ (code = -1 \/ code = AVERROR ENOMEM)
                 /\ passes (let '(s, ps, ep) :=
                              main_loop fuel env (drm_device_type env) o
                                        (loop_count o) 0 st in
                            mkRun s path ps ep) = done ++ [failed]
                 /\ List.length done = k
                 /\ Forall (fun evs => In EvCloseInput evs) done
                 /\ forallb is_setup failed = true
                 /\ existsb is_teardown failed = false
                 /\ epilogue (let '(s, ps, ep) :=
                                main_loop fuel env (drm_device_type env) o
                                          (loop_count o) 0 st in
                              mkRun s path ps ep) = []).
    { intros st path.
      destruct (Hloop st) as [code [done [failed [E [Hc [Hl [Hd Hf]]]]]]].
      rewrite E. exists code, done, failed. cbn [status passes epilogue].
      split; [reflexivity |]. split; [exact Hc |]. split; [reflexivity |].
      split; [exact Hl |]. split; [apply Hin; exact Hd |].
      split; [exact Hf |].
      split; [apply setup_no_teardown; exact Hf | reflexivity]. }
    destruct (out_name o) as [path|].
    + destruct Hfopen as [Hnone | Hopen]; [discriminate |]. rewrite Hopen.
      apply Hend.
    + apply Hend.
Qed.

(** Among the first [n] passes the set-up of one fails first, or of none. *)
Lemma first_failed_setup (env : environment) (type : Z) (i n : nat) :
  (exists k, (k < n)%nat
             /\ (forall j, (i <= j < i + k)%nat ->
                           setup_ok env type (pass env j) = true)
             /\ setup_ok env type (pass env (i + k)) = false)
  \/ (forall j, (i <= j < i + n)%nat ->
                setup_ok env type (pass env j) = true).
Proof.
  induction n as [|n IH].
  - right. intros j Hj. lia.
  - destruct IH as [[k [Hk [Hb Hf]]] | Hall].
    + left. exists k. split; [lia |]. split; assumption.
    + destruct (setup_ok env type (pass env (i + n))) eqn:E.
      * right. intros j Hj.
        destruct (Nat.eq_dec j (i + n)) as [-> | Hne]; [exact E |].
        apply Hall. lia.
      * left. exists n. split; [lia |]. split; assumption.
Qed.

(** X16: how a run ends is settled before the loop and by the set-ups of
    its passes, whatever the decode steps do.  The code before [loopy]
    returns -1, 1 or -1 ([prologue_code]); otherwise either the set-up of
    some pass [k] below the replay count is the first to fail, and [main]
    returns -1 or [AVERROR(ENOMEM)] from there after [k] whole passes,
    without [drmprime_out_delete]; or no set-up fails, and [main] returns 0
    after [max(loop_count, 1)] passes and [drmprime_out_delete].  No value
    returned by [decode_write] is returned by [main].  (For runs without a
    call on a closed dump file: without dump file, or of one pass.) *)
Theorem run_ends_within_the_replay_count
  (fuel : nat) (env : environment) (o : options)
  (Hrange : LONG_MIN < loop_count o <= LONG_MAX)
  (Hfile : out_name o = None \/ loop_count o <= 1)
  (Hfuel : (Z.to_nat (Z.max (loop_count o) 1) <= fuel)%nat) :
  uses_after_close NeverOpened (trace (playback fuel env o)) = O
  /\ match prologue_code env o with
     | Some code =>
         status (playback fuel env o) = Returned code
         /\ passes (playback fuel env o) = []
         /\ epilogue (playback fuel env o) = []
     | None =>
         (exists k code done failed,
             (k < Z.to_nat (Z.max (loop_count o) 1))%nat
             /\ (forall j, (j < k)%nat ->
                           setup_ok env (drm_device_type env) (pass env j)
                           = true)
             /\ setup_ok env (drm_device_type env) (pass env k) = false
             /\ status (playback fuel env o) = Returned code
             /\ (code = -1 \/ code = AVERROR ENOMEM)
             /\ passes (playback fuel env o) = done ++ [failed]
             /\ List.length done = k
             /\ Forall (fun evs => In EvCloseInput evs) done
             /\ forallb is_setup failed = true
             /\ epilogue (playback fuel env o) = [])
         \/ ((forall j, (j < Z.to_nat (Z.max (loop_count o) 1))%nat ->
                        setup_ok env (drm_device_type env) (pass env j) = true)
             /\ status (playback fuel env o) = Returned 0
             /\ List.length (passes (playback fuel env o))
                = Z.to_nat (Z.max (loop_count o) 1)
             /\ Forall (fun evs => In EvCloseInput evs)
                       (passes (playback fuel env o))
             /\ epilogue (playback fuel env o) = [EvOutDelete])
     end.
Proof.
  split.
  { apply run_without_closed_file_use.
    destruct Hfile as [H | H]; [left; exact H | right; lia]. }
  assert (Hin : forall done : list (list event),
             Forall (fun evs => In EvCloseInput evs
                                /\ uses_after_close Open evs = O) done ->
             Forall (fun evs => In EvCloseInput evs) done).
  { intros done H. induction H as [|evs done [H1 _] _ IH]; constructor;
      assumption. }
  assert (Hloop : forall st path,
             (exists k code done failed,
                 (k < Z.to_nat (Z.max (loop_count o) 1))%nat
                 /\ (forall j, (j < k)%nat ->
                               setup_ok env (drm_device_type env) (pass env j)
                               = true)
                 /\ setup_ok env (drm_device_type env) (pass env k) = false
                 /\ status (let '(s, ps, ep) :=
                              main_loop fuel env (drm_device_type env) o
                                        (loop_count o) 0 st in
                            mkRun s path ps ep) = Returned code
                 /\ (code = -1 \/ code = AVERROR ENOMEM)
                 /\ passes (let '(s, ps, ep) :=
                              main_loop fuel env (drm_device_type env) o
                                        (loop_count o) 0 st in
                            mkRun s path ps ep) = done ++ [failed]
                 /\ List.length done = k
                 /\ Forall (fun evs => In EvCloseInput evs) done
                 /\ forallb is_setup failed = true
                 /\ epilogue (let '(s, ps, ep) :=
                                main_loop fuel env (drm_device_type env) o
                                          (loop_count o) 0 st in
                              mkRun s path ps ep) = [])
             \/ ((forall j, (j < Z.to_nat (Z.max (loop_count o) 1))%nat ->
                            setup_ok env (drm_device_type env) (pass env j)
                            = true)
                 /\ status (let '(s, ps, ep) :=
                              main_loop fuel env (drm_device_type env) o
                                        (loop_count o) 0 st in
                            mkRun s path ps ep) = Returned 0
                 /\ List.length
                      (passes (let '(s, ps, ep) :=
                                 main_loop fuel env (drm_device_type env) o
                                           (loop_count o) 0 st in
                               mkRun s path ps ep))
                    = Z.to_nat (Z.max (loop_count o) 1)
                 /\ Forall (fun evs => In EvCloseInput evs)
                           (passes (let '(s, ps, ep) :=
                                      main_loop fuel env (drm_device_type env)
                                                o (loop_count o) 0 st in
                                    mkRun s path ps ep))
                 /\ epilogue (let '(s, ps, ep) :=
                                main_loop fuel env (drm_device_type env) o
                                          (loop_count o) 0 st in
                              mkRun s path ps ep) = [EvOutDelete])).
  { intros st path.
    destruct (first_failed_setup env (drm_device_type env) 0
                                 (Z.to_nat (Z.max (loop_count o) 1)))
      as [[k [Hk [Hb Hf]]] | Hall].
    - left.
      destruct (main_loop_aborts env (drm_device_type env) o k fuel
                                 (loop_count o) 0%nat st Hrange Hk Hb Hf)
        as [code [done [failed [E [Hc [Hl [Hd Hs]]]]]]]; [lia |].
      rewrite E. exists k, code, done, failed. cbn [status passes epilogue].
      split; [exact Hk |].
      split; [intros j Hj; apply Hb; lia |].
      split; [exact Hf |]. split; [reflexivity |]. split; [exact Hc |].
      split; [reflexivity |]. split; [exact Hl |].
      split; [apply Hin; exact Hd |]. split; [exact Hs | reflexivity].
    - right.
      destruct (main_loop_passes env (drm_device_type env) o fuel
                                 (loop_count o) 0%nat st Hrange Hall Hfuel)
        as [ps [E [Hl Hd]]].
      rewrite E. cbn [status passes epilogue].
      split; [intros j Hj; apply Hall; lia |].
      split; [reflexivity |]. split; [exact Hl |].
      split; [exact Hd | reflexivity]. }
  unfold prologue_code, playback.
  destruct (drm_device_type env =? AV_HWDEVICE_TYPE_NONE).
  { cbn [status passes epilogue]. repeat split. }
  destruct (out_new_ok env); cbn [negb];
    [| cbn [status passes epilogue]; repeat split].
  destruct (out_name o) as [path|].
  - destruct (fopen_ok env);
      [apply Hloop | cbn [status passes epilogue]; repeat split].
  - apply Hloop.
Qed.

(** *** Replays *)

(** The set-up reads [in_file] and the answers of the libraries, and no
    variable. *)
Lemma open_pass_start (env : environment) (type : Z) (o : options)
      (pe : pass_env) (st st' : state) :
  open_pass env type o pe st
  = match open_pass env type o pe st' with
    | Go (video_stream, st1) evs =>
        Go (video_stream, set_hw_pix_fmt (hw_pix_fmt st1) st) evs
    | Leave code evs => Leave code evs
    end.
Proof.
  unfold open_pass, bind, emit, leave_if, hw_decoder_init, negotiate.
  destruct (negb (open_input_ret pe =? 0)); [reflexivity |].
  destruct (find_stream_info_ret pe <? 0); [reflexivity |].
  destruct (find_best_stream_ret pe <? 0); [reflexivity |].
  destruct (id (best_decoder pe) =? AV_CODEC_ID_H264).
  - destruct (m2m_decoder env); [| reflexivity].
    destruct (negb (alloc_context_ok pe)); [reflexivity |].
    destruct (parameters_to_context_ret pe <? 0); [reflexivity |].
    destruct (hwdevice_ctx_create_ret pe <? 0); [reflexivity |].
    destruct (open2_ret pe <? 0); reflexivity.
  - destruct (scan_hw_configs type (hw_configs (best_decoder pe)));
      [| reflexivity].
    destruct (negb (alloc_context_ok pe)); [reflexivity |].
    destruct (parameters_to_context_ret pe <? 0); [reflexivity |].
    destruct (hwdevice_ctx_create_ret pe <? 0); [reflexivity |].
    destruct (open2_ret pe <? 0); reflexivity.
Qed.

(** A pass assigns [hw_pix_fmt] and [frames] before it reads them: what it
    does depends on [output_file] and on the answers of the allocator, and
    not on what the pass before left in the other variables. *)
Lemma playback_pass_start (env : environment) (type : Z) (o : options)
      (pe : pass_env) (st st' : state) :
  output_file st = output_file st' ->
  frame_allocs st = frame_allocs st' ->
  playback_pass env type o pe st = playback_pass env type o pe st'.
Proof.
  intros Hfile Hallocs. unfold playback_pass, bind.
  rewrite (open_pass_start env type o pe st st').
  destruct (open_pass env type o pe st') as [[vs st1] evs | code evs] eqn:E;
    [| reflexivity].
  destruct (open_pass_go _ _ _ _ _ _ _ _ E) as [_ [Hst1 _]].
  assert (Hd : decode_pass o pe vs (set_hw_pix_fmt (hw_pix_fmt st1) st)
               = decode_pass o pe vs st1).
  { unfold decode_pass.
    replace (set_frames (frame_count o) (set_hw_pix_fmt (hw_pix_fmt st1) st))
      with (set_frames (frame_count o) st1); [reflexivity |].
    rewrite Hst1 at 1. unfold set_frames, set_hw_pix_fmt.
    cbn [hw_pix_fmt output_file frames frame_allocs].
    rewrite Hfile, Hallocs. reflexivity. }
  rewrite Hd. reflexivity.
Qed.

Lemma main_loop_replays (env : environment) (type : Z) (o : options)
      (pe : pass_env) :
  (forall i, pass env i = pe) ->
  forall (fuel : nat) (count : Z) (i : nat) (st : state),
    frame_allocs st = [] ->
    let '(_, ps, _) := main_loop fuel env type o count i st in
    Forall (fun evs => evs = events_of (playback_pass env type o pe st)) ps.
Proof.
  intros Hsame.
  induction fuel as [|fuel IH]; intros count i st Hallocs; cbn [main_loop];
    [constructor |].
  rewrite Hsame.
  destruct (playback_pass env type o pe st) as [st' evs | code evs] eqn:Hp;
    cbn [events_of].
  - destruct (playback_pass_state _ _ _ _ _ _ _ Hp) as [Hfile [[k Hk] _]].
    rewrite Hallocs, skipn_nil in Hk.
    destruct (long_dec count >? 0);
      [| constructor; [reflexivity | constructor]].
    specialize (IH (long_dec count) (S i) st' Hk).
    destruct (main_loop fuel env type o (long_dec count) (S i) st')
      as [[s ps] ep].
    constructor; [reflexivity |].
    rewrite (playback_pass_start env type o pe st' st), Hp in IH;
      [exact IH | exact Hfile | rewrite Hk, Hallocs; reflexivity].
  - constructor; [reflexivity | constructor].
Qed.

(** X13: in a run without dump file, when the libraries answer each pass
    as they answer the first and the allocator does not fail, every pass is
    the first pass again, event by event: [frames] is set to the budget and
    [hw_pix_fmt] negotiated anew at each pass, and nothing else is carried
    over. *)
Theorem replayed_passes_repeat_the_first
  (fuel : nat) (env : environment) (o : options) (pe : pass_env)
  (Hnone : out_name o = None)
  (Hallocs : allocs env = [])
  (Hsame : forall i, pass env i = pe) :
  Forall (fun evs =>
            evs = events_of (playback_pass env (drm_device_type env) o pe
                                           (initial_state env)))
         (passes (playback fuel env o))
  /\ uses_after_close NeverOpened (trace (playback fuel env o)) = O.
Proof.
  split; [| apply run_without_closed_file_use; left; exact Hnone].
  unfold playback. rewrite Hnone.
  destruct (drm_device_type env =? AV_HWDEVICE_TYPE_NONE); [constructor |].
  destruct (out_new_ok env); cbn [negb]; [| constructor].
  pose proof (main_loop_replays env (drm_device_type env) o pe Hsame fuel
                                (loop_count o) 0%nat (initial_state env)
                                Hallocs) as H.
  destruct (main_loop fuel env (drm_device_type env) o (loop_count o) 0
                      (initial_state env)) as [[s ps] ep].
  exact H.
Qed.

(** X18: the dump file is opened before the input: in a run with a dump
    file whose first pass fails in its set-up (the input cannot be opened,
    say), [fopen] has been called on the dump file with mode "w+", and
    [main] returns with the file open. *)
Theorem dump_file_opened_before_the_input
  (fuel : nat) (env : environment) (o : options) (path : string)
  (Hpath : out_name o = Some path)
  (Htype : drm_device_type env <> AV_HWDEVICE_TYPE_NONE)
  (Hout : out_new_ok env = true)
  (Hfopen : fopen_ok env = true)
  (Hfail : setup_ok env (drm_device_type env) (pass env 0) = false)
  (Hfuel : (1 <= fuel)%nat) :
  exists code failed,
    playback fuel env o
    = mkRun (Returned code) [EvOutNew; EvFopen path] [failed] []
    /\ forallb is_setup failed = true
    /\ file_status_after NeverOpened (trace (playback fuel env o)) = Open.
Proof.
  unfold playback. apply Z.eqb_neq in Htype.
  rewrite Htype, Hout, Hpath, Hfopen. cbn [negb].
  destruct fuel as [|fuel]; [exfalso; lia |]. cbn [main_loop].
  destruct (open_pass_fails env (drm_device_type env) o (pass env 0)
              (set_output_file true (initial_state env)) Hfail)
    as [code [evs Hopen]].
  pose proof (open_pass_events env (drm_device_type env) o (pass env 0)
                (set_output_file true (initial_state env))) as Hev.
  rewrite Hopen in Hev.
  apply playback_pass_leave in Hopen. rewrite Hopen.
  exists code, evs. split; [reflexivity |]. split; [exact Hev |].
  unfold trace. cbn [prologue passes epilogue List.concat].
  rewrite !app_nil_r. unfold file_status_after at 1.
  cbn [app fold_left file_step].
  apply (setup_keeps_file Open evs Hev).
Qed.

(** *** The passes of the runs that are the program's *)

(** A pass that gets through its set-up ends with the teardown, and has no
    event of the teardown before. *)
Lemma playback_pass_shape (env : environment) (type : Z) (o : options)
      (pe : pass_env) (st st' : state) (evs : list event) :
  playback_pass env type o pe st = Go st' evs ->
  exists body,
    evs = body ++ [EvFreeContext; EvCloseInput; EvBufferUnref]
    /\ existsb is_teardown body = false.
Proof.
  intros Hp.
  destruct (playback_pass_go _ _ _ _ _ _ _ Hp) as [st1 [evs0 [Hopen [_ Hevs]]]].
  pose proof (open_pass_events env type o pe st) as Hno.
  rewrite Hopen in Hno. apply setup_no_teardown in Hno.
  destruct (decode_pass_teardown o pe (find_best_stream_ret pe) st1)
    as [body [Hb Hnb]].
  exists (evs0 ++ body). split.
  - rewrite Hevs, Hb, app_assoc. reflexivity.
  - rewrite existsb_app, Hno, Hnb. reflexivity.
Qed.

(** Before the dump file is closed, [NeverOpened] and [Open] count alike. *)
Lemma uses_after_close_never_opened (evs : list event) :
  uses_after_close NeverOpened evs = uses_after_close Open evs.
Proof.
  induction evs as [|e evs IH]; [reflexivity |].
  destruct e; cbn [uses_after_close file_step Nat.add]; try exact IH;
    reflexivity.
Qed.

(** Pass number [k] of the loop entered at pass [i]: the pass [i + k] of the
    environment, whole when its set-up goes through and the last of the run
    when it does not. *)
Lemma main_loop_nth (env : environment) (type : Z) (o : options) :
  forall (fuel : nat) (count : Z) (i : nat) (st : state) (s : exit_status)
         (ps : list (list event)) (ep : list event) (k : nat)
         (evs : list event),
    main_loop fuel env type o count i st = (s, ps, ep) ->
    nth_error ps k = Some evs ->
    uses_after_close Open evs = O
    /\ (setup_ok env type (pass env (i + k)) = true ->
        exists body,
          evs = body ++ [EvFreeContext; EvCloseInput; EvBufferUnref]
          /\ existsb is_teardown body = false)
    /\ (setup_ok env type (pass env (i + k)) = false ->
        forallb is_setup evs = true
        /\ exists code,
             s = Returned code
             /\ (code = -1 \/ code = AVERROR ENOMEM)
             /\ ps = firstn k ps ++ [evs]
             /\ ep = []).
Proof.
  induction fuel as [|fuel IH]; intros count i st s ps ep k evs Hloop Hnth;
    cbn [main_loop] in Hloop.
  - injection Hloop as _ Hps _. subst ps. destruct k; discriminate Hnth.
  - pose proof (single_pass_open_file env type o (pass env i) st) as Hopen.
    assert (Hhere : forall st' evs0,
               playback_pass env type o (pass env i) st = Go st' evs0 ->
               uses_after_close Open evs0 = O
               /\ (setup_ok env type (pass env (i + 0)) = true ->
                   exists body,
                     evs0 = body ++ [EvFreeContext; EvCloseInput; EvBufferUnref]
                     /\ existsb is_teardown body = false)
               /\ (setup_ok env type (pass env (i + 0)) = false ->
                   forallb is_setup evs0 = true
                   /\ exists code,
                        s = Returned code
                        /\ (code = -1 \/ code = AVERROR ENOMEM)
                        /\ ps = firstn 0 ps ++ [evs0]
                        /\ ep = [])).
    { intros st' evs0 Hp. rewrite Hp in Hopen. split; [exact Hopen |].
      split.
      - intros _. apply (playback_pass_shape _ _ _ _ _ _ _ Hp).
      - rewrite Nat.add_0_r. intros Hfail. exfalso.
        destruct (open_pass_fails env type o (pass env i) st Hfail)
          as [code [evs' Hl]].
        apply playback_pass_leave in Hl. rewrite Hl in Hp. discriminate Hp. }
    destruct (playback_pass env type o (pass env i) st)
      as [st' evs0 | code evs0] eqn:Hp.
    + destruct (long_dec count >? 0).
      * destruct (main_loop fuel env type o (long_dec count) (S i) st')
          as [[s' ps'] ep'] eqn:Hrec.
        injection Hloop as Hs Hps Hep. subst s' ps ep'.
        destruct k as [|k]; cbn [nth_error] in Hnth.
        -- injection Hnth as Hnth. subst evs0.
           destruct (Hhere st' evs eq_refl) as [H1 [H2 H3]].
           split; [exact H1 |]. split; [exact H2 |].
           intros Hfail. exfalso. rewrite Nat.add_0_r in Hfail.
           destruct (open_pass_fails env type o (pass env i) st Hfail)
             as [code [evs' Hl]].
           apply playback_pass_leave in Hl. rewrite Hl in Hp. discriminate Hp.
        -- destruct (IH _ _ _ _ _ _ k evs Hrec Hnth) as [H1 [H2 H3]].
           replace (i + S k)%nat with (S i + k)%nat by lia.
           split; [exact H1 |]. split; [exact H2 |].
           intros Hfail. destruct (H3 Hfail) as [Hs [code [Hc [Hv [Hf He]]]]].
           split; [exact Hs |]. exists code. split; [exact Hc |].
           split; [exact Hv |]. split; [| exact He].
           cbn [firstn app]. rewrite <- Hf. reflexivity.
      * injection Hloop as Hs Hps Hep. subst ps.
        destruct k as [|[|k]]; cbn [nth_error] in Hnth; try discriminate Hnth.
        injection Hnth as Hnth. subst evs0.
        destruct (Hhere st' evs eq_refl) as [H1 [H2 H3]].
        split; [exact H1 |]. split; [exact H2 |].
        intros Hfail. exfalso. rewrite Nat.add_0_r in Hfail.
        destruct (open_pass_fails env type o (pass env i) st Hfail)
          as [code' [evs' Hl]].
        apply playback_pass_leave in Hl. rewrite Hl in Hp. discriminate Hp.
    + injection Hloop as Hs Hps Hep. subst s ps ep.
      destruct k as [|[|k]]; cbn [nth_error] in Hnth; try discriminate Hnth.
      injection Hnth as Hnth. subst evs0. rewrite Nat.add_0_r.
      split; [exact Hopen |]. split.
      * intros Hok. exfalso.
        destruct (playback_pass_ok env type o (pass env i) st Hok)
          as [st' [evs' [Hgo _]]].
        rewrite Hgo in Hp. discriminate Hp.
      * intros _. apply playback_pass_leave in Hp.
        pose proof (open_pass_events env type o (pass env i) st) as Hev.
        rewrite Hp in Hev. split; [exact Hev |].
        exists code. split; [reflexivity |].
        split; [apply (open_pass_leave _ _ _ _ _ _ _ Hp) |].
        split; reflexivity.
Qed.

(** C6, as the code has it.  Take a pass of a run that begins before any
    call on a closed dump file.  If its set-up goes through [avcodec_open2]
    and the dump file is not closed when it begins (no dump file, or the
    first pass), the pass runs the teardown once, at its end, however its
    two decode steps ended: [avcodec_free_context] (which drops the hardware
    device context held by the codec context), [avformat_close_input] and
    [av_buffer_unref]; and it makes no call on a closed file.  If its set-up
    fails, [main] returns from there with its code: the pass has none of
    the three, no pass follows and [drmprime_out_delete] is not called. *)
Theorem teardown_after_setup
  (fuel : nat) (env : environment) (o : options) (i : nat) (evs : list event)
  (Hpass : nth_error (passes (playback fuel env o)) i = Some evs)
  (Hbefore : uses_after_close NeverOpened
               (events_before (playback fuel env o) i) = O) :
  (setup_ok env (drm_device_type env) (pass env i) = true ->
   file_status_after NeverOpened (events_before (playback fuel env o) i)
   <> Closed ->
   exists body,
     evs = body ++ [EvFreeContext; EvCloseInput; EvBufferUnref]
     /\ existsb is_teardown body = false
     /\ uses_after_close NeverOpened
          (events_before (playback fuel env o) i ++ evs) = O)
  /\ (setup_ok env (drm_device_type env) (pass env i) = false ->
      existsb is_teardown evs = false
      /\ exists code,
           status (playback fuel env o) = Returned code
           /\ (code = -1 \/ code = AVERROR ENOMEM)
           /\ passes (playback fuel env o)
              = firstn i (passes (playback fuel env o)) ++ [evs]
           /\ epilogue (playback fuel env o) = []).
Proof.
  assert (Hrun : exists s ps ep st,
             main_loop fuel env (drm_device_type env) o (loop_count o) 0 st
             = (s, ps, ep)
             /\ status (playback fuel env o) = s
             /\ passes (playback fuel env o) = ps
             /\ epilogue (playback fuel env o) = ep).
  { revert Hpass. unfold playback.
    destruct (drm_device_type env =? AV_HWDEVICE_TYPE_NONE);
      [destruct i; discriminate |].
    destruct (negb (out_new_ok env)); [destruct i; discriminate |].
    destruct (out_name o) as [path|].
    - destruct (fopen_ok env); [| destruct i; discriminate].
      intros _.
      destruct (main_loop fuel env (drm_device_type env) o (loop_count o) 0
                          (set_output_file true (initial_state env)))
        as [[s ps] ep] eqn:E.
      exists s, ps, ep, (set_output_file true (initial_state env)).
      split; [exact E |]. split; [| split]; reflexivity.
    - intros _.
      destruct (main_loop fuel env (drm_device_type env) o (loop_count o) 0
                          (initial_state env)) as [[s ps] ep] eqn:E.
      exists s, ps, ep, (initial_state env).
      split; [exact E |]. split; [| split]; reflexivity. }
  destruct Hrun as [s [ps [ep [st [Hloop [Hs [Hps Hep]]]]]]].
  rewrite Hps in Hpass.
  destruct (main_loop_nth env (drm_device_type env) o fuel (loop_count o) 0 st
                          s ps ep i evs Hloop Hpass) as [Hopen [Hgo Hleave]].
  cbn [Nat.add] in Hgo, Hleave.
  split.
  - intros Hok Hstatus. destruct (Hgo Hok) as [body [Hevs Hno]].
    exists body. split; [exact Hevs |]. split; [exact Hno |].
    rewrite uses_after_close_app, Hbefore. cbn [Nat.add].
    destruct (file_status_after NeverOpened
                (events_before (playback fuel env o) i)).
    + rewrite uses_after_close_never_opened. exact Hopen.
    + exact Hopen.
    + exfalso. apply Hstatus. reflexivity.
  - intros Hfail. destruct (Hleave Hfail) as [Hsetup [code [Hc [Hv [Hf He]]]]].
    split; [apply setup_no_teardown; exact Hsetup |].
    exists code. rewrite Hs, Hps, Hep.
    split; [exact Hc |]. split; [exact Hv |]. split; [exact Hf | exact He].
Qed.

(** C1: a run in which the set-up of every pass succeeds executes
    [max(loop_count, 1)] passes, each through its teardown, and returns 0:
    one pass for the default 0, [N] passes for [N >= 1].  (The count is a
    [long]; [LONG_MIN] is left out, whose decrement overflows.  A run with a
    dump file is taken with one pass: from the second pass on it calls
    [fwrite] and [fclose] on the closed file.  The runs taken make no such
    call.) *)
Theorem replay_count_passes
  (fuel : nat) (env : environment) (o : options)
  (Hrange : LONG_MIN < loop_count o <= LONG_MAX)
  (Htype : drm_device_type env <> AV_HWDEVICE_TYPE_NONE)
  (Hout : out_new_ok env = true)
  (Hfopen : out_name o = None \/ fopen_ok env = true)
  (Hfile : out_name o = None \/ loop_count o <= 1)
  (Hsetup : forall i, (i < Z.to_nat (Z.max (loop_count o) 1))%nat ->
                      setup_ok env (drm_device_type env) (pass env i) = true)
  (Hfuel : (Z.to_nat (Z.max (loop_count o) 1) <= fuel)%nat) :
  status (playback fuel env o) = Returned 0
  /\ List.length (passes (playback fuel env o))
     = Z.to_nat (Z.max (loop_count o) 1)
  /\ Forall (fun evs => In EvCloseInput evs) (passes (playback fuel env o))
  /\ uses_after_close NeverOpened (trace (playback fuel env o)) = O.
Proof.
  assert (Hdefined : uses_after_close NeverOpened (trace (playback fuel env o))
                     = O).
  { apply run_without_closed_file_use.
    destruct Hfile as [H | H]; [left; exact H | right; lia]. }
  revert Hdefined.
  unfold playback. apply Z.eqb_neq in Htype. rewrite Htype, Hout. cbn [negb].
  assert (Hloop : forall st,
             exists ps,
               main_loop fuel env (drm_device_type env) o (loop_count o) 0 st
               = (Returned 0, ps, [EvOutDelete])
               /\ List.length ps = Z.to_nat (Z.max (loop_count o) 1)
               /\ Forall (fun evs => In EvCloseInput evs) ps).
  { intros st. apply main_loop_passes; [exact Hrange | | exact Hfuel].
    intros j Hj. apply Hsetup. lia. }
  destruct (out_name o) as [path|].
  - destruct Hfopen as [Hnone | Hopen]; [discriminate |]. rewrite Hopen.
    destruct (Hloop (set_output_file true (initial_state env)))
      as [ps [E [Hlen Hall]]].
    rewrite E. cbn [status passes]. auto.
  - destruct (Hloop (initial_state env)) as [ps [E [Hlen Hall]]].
    rewrite E. cbn [status passes]. auto.
Qed.

(** *** The dump file in a run of two passes *)

(** After set-up and decode events, [fclose] comes: the first call on the
    dump file is an [fwrite] among them, or that [fclose]. *)
Lemma first_dump_call (l1 l2 : list event) :
  forallb (fun e => is_setup e || is_decode e) l1 = true ->
  exists mid e post,
    l1 ++ EvFclose :: l2 = mid ++ e :: post
    /\ forallb is_quiet mid = true
    /\ is_dump_call e = true.
Proof.
  induction l1 as [|a l1 IH]; cbn [forallb].
  - intros _. exists [], EvFclose, l2. repeat split.
  - rewrite andb_true_iff. intros [Ha Hl].
    destruct (is_quiet a) eqn:Hq.
    + destruct (IH Hl) as [mid [e [post [E [Hm He]]]]].
      exists (a :: mid), e, post. cbn [app forallb]. rewrite E, Hq, Hm.
      repeat split. exact He.
    + exists [], a, (l1 ++ EvFclose :: l2).
      split; [reflexivity |]. split; [reflexivity |].
      destruct a; try discriminate Hq; try reflexivity; discriminate Ha.
Qed.

(** X6: in every run with a dump file whose first two passes get through
    their set-up (loop count at least 2), the first pass ends with the dump
    file closed, without a call on a closed file so far; the run then goes
    on into the second pass, and after events that are no call on the dump
    file it calls [fwrite] or [fclose] on the closed file. *)
Theorem second_pass_uses_closed_dump_file
  (fuel : nat) (env : environment) (o : options) (path : string)
  (Hpath : out_name o = Some path)
  (Hfopen : fopen_ok env = true)
  (Htype : drm_device_type env <> AV_HWDEVICE_TYPE_NONE)
  (Hout : out_new_ok env = true)
  (Hcount : 1 < loop_count o <= LONG_MAX)
  (Hfirst : setup_ok env (drm_device_type env) (pass env 0) = true)
  (Hsecond : setup_ok env (drm_device_type env) (pass env 1) = true)
  (Hfuel : (2 <= fuel)%nat) :
  exists first mid e post,
    hd_error (passes (playback fuel env o)) = Some first
    /\ trace (playback fuel env o)
       = (prologue (playback fuel env o) ++ first) ++ mid ++ e :: post
    /\ uses_after_close NeverOpened (prologue (playback fuel env o) ++ first)
       = O
    /\ file_status_after NeverOpened (prologue (playback fuel env o) ++ first)
       = Closed
    /\ forallb is_quiet mid = true
    /\ is_dump_call e = true
    /\ (1 <= uses_after_close NeverOpened (trace (playback fuel env o)))%nat.
Proof.
  destruct fuel as [|[|fuel]]; [lia | lia |].
  unfold playback. apply Z.eqb_neq in Htype.
  rewrite Htype, Hout, Hpath, Hfopen. cbn [negb main_loop].
  pose proof (single_pass_open_file env (drm_device_type env) o (pass env 0)
                (set_output_file true (initial_state env))) as Huse.
  destruct (playback_pass_closes_dump env (drm_device_type env) o (pass env 0)
              (set_output_file true (initial_state env)) Hfirst eq_refl)
    as [st1 [evs0 [body [Hp1 [Hs1 [Hd1 Hof1]]]]]].
  rewrite Hp1 in Huse.
  rewrite Hp1, long_dec_in_range by (pose proof LONG_MIN_neg; lia).
  assert (E : (loop_count o - 1 >? 0) = true)
    by (rewrite Z.gtb_ltb; apply Z.ltb_lt; lia).
  rewrite E.
  destruct (playback_pass_closes_dump env (drm_device_type env) o (pass env 1)
              st1 Hsecond Hof1)
    as [st2 [evs0' [body' [Hp2 [Hs2 [Hd2 Hof2]]]]]].
  rewrite Hp2.
  assert (H1 : forall s,
             file_status_after s
               (evs0 ++ body
                ++ [EvFclose; EvFreeContext; EvCloseInput; EvBufferUnref])
             = Closed).
  { intros s. apply closed_after_pass; assumption. }
  pose proof (closed_file_used_by_pass evs0' body' Hs2 Hd2) as H2.
  assert (Hgen : forall (s : exit_status) (rest : list (list event))
                        (ep : list event),
             exists first mid e post,
               hd_error
                 (passes
                    (mkRun s [EvOutNew; EvFopen path]
                       ((evs0 ++ body
                         ++ [EvFclose; EvFreeContext; EvCloseInput;
                             EvBufferUnref])
                        :: (evs0' ++ body'
                            ++ [EvFclose; EvFreeContext; EvCloseInput;
                                EvBufferUnref])
                        :: rest) ep)) = Some first
               /\ trace
                    (mkRun s [EvOutNew; EvFopen path]
                       ((evs0 ++ body
                         ++ [EvFclose; EvFreeContext; EvCloseInput;
                             EvBufferUnref])
                        :: (evs0' ++ body'
                            ++ [EvFclose; EvFreeContext; EvCloseInput;
                                EvBufferUnref])
                        :: rest) ep)
                  = ([EvOutNew; EvFopen path] ++ first) ++ mid ++ e :: post
               /\ uses_after_close NeverOpened
                    ([EvOutNew; EvFopen path] ++ first) = O
               /\ file_status_after NeverOpened
                    ([EvOutNew; EvFopen path] ++ first) = Closed
               /\ forallb is_quiet mid = true
               /\ is_dump_call e = true
               /\ (1 <= uses_after_close NeverOpened
                          (trace
                             (mkRun s [EvOutNew; EvFopen path]
                                ((evs0 ++ body
                                  ++ [EvFclose; EvFreeContext; EvCloseInput;
                                      EvBufferUnref])
                                 :: (evs0' ++ body'
                                     ++ [EvFclose; EvFreeContext;
                                         EvCloseInput; EvBufferUnref])
                                 :: rest) ep)))%nat).
  { intros s rest ep.
    destruct (first_dump_call
                (evs0' ++ body')
                ([EvFreeContext; EvCloseInput; EvBufferUnref]
                 ++ List.concat rest ++ ep))
      as [mid [e [post [Esplit [Hmid He]]]]].
    { rewrite forallb_app. apply andb_true_iff. split.
      - clear - Hs2. induction evs0' as [|a l IH]; [reflexivity |].
        cbn [forallb] in *. apply andb_true_iff in Hs2.
        destruct Hs2 as [Ha Hl]. rewrite Ha, (IH Hl). reflexivity.
      - clear - Hd2. induction body' as [|a l IH]; [reflexivity |].
        cbn [forallb] in *. apply andb_true_iff in Hd2.
        destruct Hd2 as [Ha Hl]. rewrite Ha, (IH Hl), orb_true_r.
        reflexivity. }
    exists (evs0 ++ body
            ++ [EvFclose; EvFreeContext; EvCloseInput; EvBufferUnref]),
      mid, e, post.
    split; [reflexivity |]. split.
    { unfold trace. cbn [prologue passes epilogue List.concat].
      rewrite <- Esplit. rewrite <- !app_assoc. cbn [app]. reflexivity. }
    split.
    { cbn [app uses_after_close file_step Nat.add]. exact Huse. }
    split; [rewrite file_status_after_app; apply H1 |].
    split; [exact Hmid |]. split; [exact He |].
    unfold trace. cbn [prologue passes epilogue List.concat].
    apply closed_file_used_in_trace; assumption. }
  destruct (long_dec (loop_count o - 1) >? 0).
  - destruct (main_loop fuel env (drm_device_type env) o
                        (long_dec (loop_count o - 1)) 2 st2)
      as [[s ps] ep].
    apply Hgen.
  - apply Hgen.
Qed.


End Program.

(** ** The properties on concrete runs *)

(** The program with the enumerators of one release of the headers, the
    4:2:0 buffer size and the decimal [strtol]. *)
Abbreviation hello_drmprime := (main 178 27 yuv420_size strtol_dec).

Lemma get_hw_format_negotiated_or_none_witness :
  exists fmt,
    get_hw_format 5 ([3; 5; 8] ++ AV_PIX_FMT_NONE :: [42]) = Some fmt
    /\ (fmt = 5 <-> In 5 [3; 5; 8])
    /\ (~ In 5 [3; 5; 8] -> fmt = AV_PIX_FMT_NONE)
    /\ (fmt = 5 \/ fmt = AV_PIX_FMT_NONE).
Proof.
  apply (get_hw_format_negotiated_or_none 5 [3; 5; 8] [42]).
  - repeat (apply Forall_cons; [unfold AV_PIX_FMT_NONE; lia |]).
    apply Forall_nil.
  - unfold AV_PIX_FMT_NONE. lia.
Defined.

Lemma transient_receive_is_not_an_error_witness :
  decode_write yuv420_size plain_state (mkCtx [] false)
               (mkPacket 0 false 0 [got 1 384])
  = (0, set_frames (-2) plain_state, mkCtx [] false, [EvDisplay (hw_frame 1)])
  /\ decode_write yuv420_size plain_state (mkCtx [] false) broken_packet
     = (-22, set_frames (-2) plain_state, mkCtx [] false,
        [EvDisplay (hw_frame 1); EvStderr "Error while decoding\n"]).
Proof.
  assert (Hturns : forall rest,
             turns yuv420_size plain_state (got 1 384 :: rest)
                   (set_frames (-2) plain_state) rest
                   ([EvDisplay (hw_frame 1)] ++ [])).
  { intros rest.
    apply (turns_next yuv420_size plain_state plain_state (got 1 384) rest 0
                      (set_frames (-2) plain_state) [EvDisplay (hw_frame 1)]).
    - reflexivity.
    - simpl. lia.
    - reflexivity.
    - lia.
    - apply turns_here. }
  split.
  - destruct (transient_receive_is_not_an_error
                yuv420_size plain_state (set_frames (-2) plain_state)
                (set_frames (-2) plain_state) (mkCtx [] false)
                (mkPacket 0 false 0 [got 1 384]) [] []
                [EvDisplay (hw_frame 1)] (AVERROR EAGAIN) None) as [Ht _].
    + simpl. lia.
    + apply Hturns.
    + reflexivity.
    + reflexivity.
    + reflexivity.
    + apply Ht. left. reflexivity.
  - destruct (transient_receive_is_not_an_error
                yuv420_size plain_state (set_frames (-2) plain_state)
                (set_frames (-2) plain_state) (mkCtx [] false)
                broken_packet
                [mkReceived (-22) (hw_frame 2) 0 (hw_frame 2) true 0 0] []
                [EvDisplay (hw_frame 1)] (-22)
                (Some (mkReceived (-22) (hw_frame 2) 0 (hw_frame 2) true 0 0)))
      as [_ Hf].
    + simpl. lia.
    + apply Hturns.
    + reflexivity.
    + reflexivity.
    + reflexivity.
    + apply Hf; unfold AVERROR, EAGAIN, AVERROR_EOF; simpl; lia.
Defined.

Lemma format_negotiation_witness :
  negotiate 178 27 (env_m2m 27) 7 (h264 27) plain_state
  = Go (h264_v4l2m2m 27, set_hw_pix_fmt 178 plain_state) []
  /\ negotiate 178 27 (env_of three_frames) 7 hevc plain_state
     = Go (hevc, set_hw_pix_fmt 5 plain_state) []
  /\ main_loop 178 27 yuv420_size 1 (env_of no_config) 7
               (mkOptions 0 (-1) None (Some "in.mkv")) 0 0 plain_state
     = (Returned (-1),
        [[EvOpenInput (Some "in.mkv");
          EvStderr "Decoder %s does not support device type %s.\n"]],
        []).
Proof.
  split; [| split].
  - destruct (format_negotiation 178 27 yuv420_size (env_m2m 27) 7 plain_state)
      as [Hm2m _].
    apply Hm2m; reflexivity.
  - destruct (format_negotiation 178 27 yuv420_size (env_of three_frames) 7
                                 plain_state) as [_ [Hscan _]].
    apply (Hscan hevc [mkHWConfig 9 2 7] (mkHWConfig 5 1 7) []).
    + simpl. lia.
    + reflexivity.
    + apply Forall_cons; [reflexivity | apply Forall_nil].
    + reflexivity.
  - destruct (format_negotiation 178 27 yuv420_size (env_of no_config) 7
                                 plain_state) as [_ [_ Hnone]].
    destruct (Hnone vp9) as [_ Hmain].
    + simpl. lia.
    + repeat (apply Forall_cons; [reflexivity |]). apply Forall_nil.
    + apply Hmain; try reflexivity; simpl; lia.
Defined.

Lemma replay_count_passes_witness :
  (status (hello_drmprime 1 (env_of three_frames) ["in.mkv"]) = Returned 0
   /\ List.length (passes (hello_drmprime 1 (env_of three_frames) ["in.mkv"]))
      = 1%nat)
  /\ (status (hello_drmprime 3 (env_of three_frames) ["-l"; "3"; "in.mkv"])
      = Returned 0
      /\ List.length
           (passes (hello_drmprime 3 (env_of three_frames)
                                   ["-l"; "3"; "in.mkv"]))
         = 3%nat).
Proof.
  split.
  - destruct (replay_count_passes 178 27 yuv420_size 1 (env_of three_frames)
                (mkOptions 0 (-1) None (Some "in.mkv"))) as [Hs [Hl _]].
    + vm_compute. split; [reflexivity | discriminate].
    + vm_compute. discriminate.
    + reflexivity.
    + left. reflexivity.
    + left. reflexivity.
    + intros i _. reflexivity.
    + vm_compute. apply le_n.
    + split; [exact Hs | exact Hl].
  - destruct (replay_count_passes 178 27 yuv420_size 3 (env_of three_frames)
                (mkOptions 3 (-1) None (Some "in.mkv"))) as [Hs [Hl _]].
    + vm_compute. split; [reflexivity | discriminate].
    + vm_compute. discriminate.
    + reflexivity.
    + left. reflexivity.
    + left. reflexivity.
    + intros i _. reflexivity.
    + vm_compute. apply le_n.
    + split; [exact Hs | exact Hl].
Defined.

(** C6, at a failed set-up: when [avcodec_open2] or
    [av_hwdevice_ctx_create] fails, [main] returns -1 and the run has no
    event of the teardown. *)
Lemma setup_failure_skips_teardown :
  hello_drmprime 1 (env_of codec_open_fails) ["in.mkv"]
  = mkRun (Returned (-1)) [EvOutNew]
          [[EvOpenInput (Some "in.mkv"); EvHwDeviceCreate;
            EvStderr "Failed to open codec for stream #%u\n"]] []
  /\ hello_drmprime 1 (env_of device_init_fails) ["in.mkv"]
     = mkRun (Returned (-1)) [EvOutNew]
             [[EvOpenInput (Some "in.mkv");
               EvStderr "Failed to create specified HW device.\n"]] []
  /\ existsb is_teardown
             (trace (hello_drmprime 1 (env_of codec_open_fails) ["in.mkv"]))
     = false
  /\ existsb is_teardown
             (trace (hello_drmprime 1 (env_of device_init_fails) ["in.mkv"]))
     = false.
Proof. repeat split; vm_compute; reflexivity. Qed.

Lemma teardown_after_setup_witness :
  (exists body,
      [EvOpenInput (Some "in.mkv"); EvHwDeviceCreate; EvCodecOpen;
       EvDisplay (hw_frame 1); EvFwrite 384 384;
       EvDisplay (hw_frame 2); EvFwrite 768 768;
       EvDisplay (hw_frame 3); EvFwrite 1152 1152;
       EvFclose; EvFreeContext; EvCloseInput; EvBufferUnref]
      = body ++ [EvFreeContext; EvCloseInput; EvBufferUnref]
      /\ existsb is_teardown body = false
      /\ uses_after_close NeverOpened
           (events_before (hello_drmprime 1 (env_of three_frames)
                                          ["-o"; "out.yuv"; "in.mkv"]) 0
            ++ [EvOpenInput (Some "in.mkv"); EvHwDeviceCreate; EvCodecOpen;
                EvDisplay (hw_frame 1); EvFwrite 384 384;
                EvDisplay (hw_frame 2); EvFwrite 768 768;
                EvDisplay (hw_frame 3); EvFwrite 1152 1152;
                EvFclose; EvFreeContext; EvCloseInput; EvBufferUnref])
         = O)
  /\ (existsb is_teardown
              [EvOpenInput (Some "in.mkv");
               EvStderr "Cannot open input file '%s'\n"] = false
      /\ exists code,
           status (hello_drmprime 2 input_lost_after_first_pass
                                  ["-l"; "3"; "in.mkv"]) = Returned code
           /\ (code = -1 \/ code = AVERROR ENOMEM)
           /\ passes (hello_drmprime 2 input_lost_after_first_pass
                                     ["-l"; "3"; "in.mkv"])
              = firstn 1 (passes (hello_drmprime 2 input_lost_after_first_pass
                                                 ["-l"; "3"; "in.mkv"]))
                ++ [[EvOpenInput (Some "in.mkv");
                     EvStderr "Cannot open input file '%s'\n"]]
           /\ epilogue (hello_drmprime 2 input_lost_after_first_pass
                                       ["-l"; "3"; "in.mkv"]) = []).
Proof.
  split.
  - destruct (teardown_after_setup
                178 27 yuv420_size 1 (env_of three_frames)
                (mkOptions 0 (-1) (Some "out.yuv") (Some "in.mkv")) 0
                [EvOpenInput (Some "in.mkv"); EvHwDeviceCreate; EvCodecOpen;
                 EvDisplay (hw_frame 1); EvFwrite 384 384;
                 EvDisplay (hw_frame 2); EvFwrite 768 768;
                 EvDisplay (hw_frame 3); EvFwrite 1152 1152;
                 EvFclose; EvFreeContext; EvCloseInput; EvBufferUnref])
      as [Hgo _].
    + reflexivity.
    + reflexivity.
    + apply Hgo; [reflexivity |]. vm_compute. discriminate.
  - destruct (teardown_after_setup
                178 27 yuv420_size 2 input_lost_after_first_pass
                (mkOptions 3 (-1) None (Some "in.mkv")) 1
                [EvOpenInput (Some "in.mkv");
                 EvStderr "Cannot open input file '%s'\n"])
      as [_ Hleave].
    + reflexivity.
    + reflexivity.
    + apply Hleave. reflexivity.
Defined.

(** C2, at [-f 1]: the read loop stops after the first frame,
    and the flush then displays the frame the decoder still holds: two
    frames are dispatched in the pass. *)
Lemma frame_budget_exceeded_by_flush :
  passes (hello_drmprime 1 (env_of three_frames) ["-f"; "1"; "in.mkv"])
  = [[EvOpenInput (Some "in.mkv"); EvHwDeviceCreate; EvCodecOpen;
      EvDisplay (hw_frame 1); EvDisplay (hw_frame 2);
      EvFreeContext; EvCloseInput; EvBufferUnref]]
  /\ map frames_dispatched
         (passes (hello_drmprime 1 (env_of three_frames)
                                 ["-f"; "1"; "in.mkv"]))
     = [2%nat].
Proof. split; vm_compute; reflexivity. Qed.

(** C8, at [-f 0]: the read loop stops after the first frame and the flush
    displays one more, two frames in the pass; with [-f -1] and without
    [-f] all three frames are displayed. *)
Lemma frame_budget_zero_dispatches_two :
  map frames_dispatched
      (passes (hello_drmprime 1 (env_of three_frames) ["-f"; "0"; "in.mkv"]))
  = [2%nat]
  /\ map frames_dispatched
         (passes (hello_drmprime 1 (env_of three_frames)
                                 ["-f"; "-1"; "in.mkv"]))
     = [3%nat]
  /\ map frames_dispatched
         (passes (hello_drmprime 1 (env_of three_frames) ["in.mkv"]))
     = [3%nat].
Proof. repeat split; vm_compute; reflexivity. Qed.

(** C4, at [-l 2 -o out.yuv]: the file is opened once, closed
    at the end of the first pass, and the second pass calls [fwrite] three
    times and [fclose] once on the closed file. *)
Lemma dump_file_closed_between_passes :
  trace (hello_drmprime 2 (env_of three_frames)
                        ["-l"; "2"; "-o"; "out.yuv"; "in.mkv"])
  = [EvOutNew; EvFopen "out.yuv";
     EvOpenInput (Some "in.mkv"); EvHwDeviceCreate; EvCodecOpen;
     EvDisplay (hw_frame 1); EvFwrite 384 384;
     EvDisplay (hw_frame 2); EvFwrite 768 768;
     EvDisplay (hw_frame 3); EvFwrite 1152 1152;
     EvFclose; EvFreeContext; EvCloseInput; EvBufferUnref;
     EvOpenInput (Some "in.mkv"); EvHwDeviceCreate; EvCodecOpen;
     EvDisplay (hw_frame 1); EvFwrite 384 384;
     EvDisplay (hw_frame 2); EvFwrite 768 768;
     EvDisplay (hw_frame 3); EvFwrite 1152 1152;
     EvFclose; EvFreeContext; EvCloseInput; EvBufferUnref;
     EvOutDelete]
  /\ uses_after_close NeverOpened
       (trace (hello_drmprime 2 (env_of three_frames)
                              ["-l"; "2"; "-o"; "out.yuv"; "in.mkv"]))
     = 4%nat.
Proof. split; vm_compute; reflexivity. Qed.

(** C7, on a full disk: [fwrite] takes 100 of the 768 bytes of the second frame
    and none of the third; [decode_write] goes on, nothing is reported and
    [main] returns 0. *)
Lemma short_write_goes_unnoticed :
  hello_drmprime 1 (env_of short_writes) ["-o"; "out.yuv"; "in.mkv"]
  = mkRun (Returned 0) [EvOutNew; EvFopen "out.yuv"]
          [[EvOpenInput (Some "in.mkv"); EvHwDeviceCreate; EvCodecOpen;
            EvDisplay (hw_frame 1); EvFwrite 384 384;
            EvDisplay (hw_frame 2); EvFwrite 768 100;
            EvDisplay (hw_frame 3); EvFwrite 1152 0;
            EvFclose; EvFreeContext; EvCloseInput; EvBufferUnref]]
          [EvOutDelete].
Proof. vm_compute. reflexivity. Qed.

(** C9, at the command lines [--help] and [-l 2 --verbose], which name no
    input file: the loop takes the last argument as an option, leaves with
    [n = 0], and [in_file] is the NULL that ends argv; [usage] is not
    called, and [main] goes on to open the output and the input. *)
Lemma unknown_last_option_is_not_a_usage_error :
  parse_args strtol_dec ["--help"] = ParseOk (mkOptions 0 (-1) None None)
  /\ parse_args strtol_dec ["-l"; "2"; "--verbose"]
     = ParseOk (mkOptions 2 (-1) None None)
  /\ hello_drmprime 1 (env_of no_input) ["--help"]
     = mkRun (Returned (-1)) [EvOutNew]
             [[EvOpenInput None; EvStderr "Cannot open input file '%s'\n"]]
             [].
Proof. repeat split; vm_compute; reflexivity. Qed.

Lemma frames_of_a_pass_within_budget_plus_one_witness :
  Z.of_nat (frames_dispatched
              (snd (read_loop yuv420_size 0 (set_frames 1 plain_state)
                              (mkCtx [] false) (packets three_frames))))
  <= Z.max 1 1
  /\ match playback_pass 178 27 yuv420_size (env_of three_frames) 7
                         (mkOptions 0 1 None (Some "in.mkv")) three_frames
                         plain_state with
     | Go _ evs | Leave _ evs => Z.of_nat (frames_dispatched evs) <= Z.max 1 1 + 1
     end.
Proof.
  destruct (frames_of_a_pass_within_budget_plus_one
              178 27 yuv420_size (env_of three_frames) 7
              (mkOptions 0 1 None (Some "in.mkv")) three_frames plain_state)
    as [Hread Hpass].
  - vm_compute. split; discriminate.
  - split; [apply (Hread 0 plain_state) | exact Hpass].
Defined.

Lemma unbounded_budget_dispatches_every_frame_witness :
  frames_dispatched
    (snd (decode_pass yuv420_size (mkOptions 0 (-1) None (Some "in.mkv"))
                      three_frames 0 plain_state))
  = 3%nat.
Proof.
  apply (unbounded_budget_dispatches_every_frame
           yuv420_size (mkOptions 0 (-1) None (Some "in.mkv")) three_frames 0
           plain_state).
  - reflexivity.
  - vm_compute. discriminate.
  - reflexivity.
  - reflexivity.
  - reflexivity.
Defined.

Lemma fwrite_count_is_never_an_error_witness :
  write_frame yuv420_size (mkFrame 0 16 32) (got 2 100)
  = (Next 100, [EvFwrite 768 100]).
Proof.
  apply (fwrite_count_is_never_an_error yuv420_size (mkFrame 0 16 32)
                                        (got 2 100)).
  - reflexivity.
  - simpl. lia.
  - vm_compute. split; discriminate.
  - reflexivity.
Defined.

Lemma usage_errors_reported_witness :
  parse_args strtol_dec ["-l"; "2"] = ParseUsage
  /\ parse_args strtol_dec ["-l"; "2"; "-x"; "in.mkv"] = ParseUsage
  /\ parse_args strtol_dec ["-l"; "2"; "in.mkv"; "more"] = ParseUsage
  /\ hello_drmprime 1 (env_of three_frames) []
     = mkRun (Exited 1) [EvStderr usage_text] [] [].
Proof.
  assert (Hopts : option_pairs ["-l"; "2"]).
  { apply one_more_option; [reflexivity | apply no_option]. }
  destruct (usage_errors_reported 178 27 yuv420_size strtol_dec ["-l"; "2"]
                                  Hopts)
    as [Habsent [Hunknown [Hmore _]]].
  destruct (usage_errors_reported 178 27 yuv420_size strtol_dec [] no_option)
    as [Hnone [_ [_ Hmain]]].
  split; [exact Habsent |].
  split; [apply (Hunknown "-x" "in.mkv" []); reflexivity |].
  split; [apply (Hmore "in.mkv" "more" []); reflexivity |].
  apply Hmain. exact Hnone.
Defined.

Lemma trailing_unknown_option_accepted_witness :
  parse_args strtol_dec (["-l"; "2"] ++ ["-x"])
  = ParseOk (mkOptions 2 (-1) None None)
  /\ hello_drmprime 1 (env_of no_input) (["-l"; "2"] ++ ["-x"])
     = mkRun (Returned (-1)) [EvOutNew]
             [[EvOpenInput None; EvStderr "Cannot open input file '%s'\n"]]
             [].
Proof.
  destruct (trailing_unknown_option_accepted
              178 27 yuv420_size strtol_dec ["-l"; "2"] "-x"
              (mkOptions 2 (-1) None None))
    as [Hparse [_ Hmain]].
  - apply one_more_option; [reflexivity | apply no_option].
  - reflexivity.
  - reflexivity.
  - reflexivity.
  - split; [exact Hparse |]. rewrite Hmain. reflexivity.
Defined.

Lemma second_pass_uses_closed_dump_file_witness :
  exists first mid e post,
    hd_error (passes (hello_drmprime 2 (env_of three_frames)
                                     ["-l"; "2"; "-o"; "out.yuv"; "in.mkv"]))
    = Some first
    /\ trace (hello_drmprime 2 (env_of three_frames)
                             ["-l"; "2"; "-o"; "out.yuv"; "in.mkv"])
       = (prologue (hello_drmprime 2 (env_of three_frames)
                                   ["-l"; "2"; "-o"; "out.yuv"; "in.mkv"])
          ++ first) ++ mid ++ e :: post
    /\ uses_after_close NeverOpened
         (prologue (hello_drmprime 2 (env_of three_frames)
                                   ["-l"; "2"; "-o"; "out.yuv"; "in.mkv"])
          ++ first) = O
    /\ file_status_after NeverOpened
         (prologue (hello_drmprime 2 (env_of three_frames)
                                   ["-l"; "2"; "-o"; "out.yuv"; "in.mkv"])
          ++ first) = Closed
    /\ forallb is_quiet mid = true
    /\ is_dump_call e = true
    /\ (1 <= uses_after_close NeverOpened
               (trace (hello_drmprime 2 (env_of three_frames)
                                      ["-l"; "2"; "-o"; "out.yuv"; "in.mkv"])))%nat.
Proof.
  apply (second_pass_uses_closed_dump_file
           178 27 yuv420_size 2 (env_of three_frames)
           (mkOptions 2 (-1) (Some "out.yuv") (Some "in.mkv")) "out.yuv").
  - reflexivity.
  - reflexivity.
  - vm_compute. discriminate.
  - reflexivity.
  - vm_compute. split; [reflexivity | discriminate].
  - reflexivity.
  - reflexivity.
  - apply le_n.
Defined.

Lemma no_use_of_closed_file_without_dump_or_replay_witness :
  uses_after_close NeverOpened
    (trace (hello_drmprime 3 (env_of three_frames) ["-l"; "3"; "in.mkv"]))
  = O
  /\ uses_after_close NeverOpened
       (trace (hello_drmprime 1 (env_of three_frames)
                              ["-o"; "out.yuv"; "in.mkv"]))
     = O.
Proof.
  split.
  - apply (no_use_of_closed_file_without_dump_or_replay
             178 27 yuv420_size 3 (env_of three_frames)
             (mkOptions 3 (-1) None (Some "in.mkv"))).
    left. reflexivity.
  - apply (no_use_of_closed_file_without_dump_or_replay
             178 27 yuv420_size 1 (env_of three_frames)
             (mkOptions 0 (-1) (Some "out.yuv") (Some "in.mkv"))).
    right. vm_compute. split; [reflexivity | discriminate].
Defined.

Lemma accepted_command_line_shape_witness :
  exists opts last o',
    ["-l"; "2"; "in.mkv"] = opts ++ [last]
    /\ option_pairs opts
    /\ known_option last = false
    /\ read_options strtol_dec opts default_options = Some o'
    /\ mkOptions 2 (-1) None (Some "in.mkv")
       = set_in_file (if starts_with_dash last then None else Some last) o'.
Proof.
  apply (accepted_command_line_shape strtol_dec ["-l"; "2"; "in.mkv"]
                                     (mkOptions 2 (-1) None (Some "in.mkv"))).
  reflexivity.
Defined.

Lemma options_read_left_to_right_witness :
  parse_args strtol_dec
             (["-l"; "2"; "-f"; "10"; "--loop"; "3"; "-o"; "out.yuv"]
              ++ ["in.mkv"])
  = ParseOk (mkOptions 3 10 (Some "out.yuv") (Some "in.mkv")).
Proof.
  apply (options_read_left_to_right
           strtol_dec ["-l"; "2"; "-f"; "10"; "--loop"; "3"; "-o"; "out.yuv"]
           "in.mkv").
  - repeat (apply one_more_option; [reflexivity |]). apply no_option.
  - reflexivity.
Defined.

Lemma pass_assigns_only_the_frame_counter_witness :
  output_file (mkState 5 false (-4) []) = false
  /\ (exists k, @nil bool = skipn k [])
  /\ exists d,
       negotiate 178 27 (env_of three_frames) 7 hevc
                 (initial_state (env_of three_frames))
       = Go (d, mkState 5 false 0 []) [].
Proof.
  apply (pass_assigns_only_the_frame_counter
           178 27 yuv420_size (env_of three_frames) 7
           (mkOptions 0 (-1) None (Some "in.mkv")) three_frames
           (initial_state (env_of three_frames))
           (mkState 5 false (-4) [])
           [EvOpenInput (Some "in.mkv"); EvHwDeviceCreate; EvCodecOpen;
            EvDisplay (hw_frame 1); EvDisplay (hw_frame 2);
            EvDisplay (hw_frame 3);
            EvFreeContext; EvCloseInput; EvBufferUnref]).
  reflexivity.
Defined.

Lemma replayed_passes_repeat_the_first_witness :
  Forall (fun evs =>
            evs = [EvOpenInput (Some "in.mkv"); EvHwDeviceCreate; EvCodecOpen;
                   EvDisplay (hw_frame 1); EvDisplay (hw_frame 2);
                   EvDisplay (hw_frame 3);
                   EvFreeContext; EvCloseInput; EvBufferUnref])
         (passes (hello_drmprime 3 (env_of three_frames)
                                 ["-l"; "3"; "in.mkv"]))
  /\ uses_after_close NeverOpened
       (trace (hello_drmprime 3 (env_of three_frames) ["-l"; "3"; "in.mkv"]))
     = O.
Proof.
  apply (replayed_passes_repeat_the_first
           178 27 yuv420_size 3 (env_of three_frames)
           (mkOptions 3 (-1) None (Some "in.mkv")) three_frames).
  - reflexivity.
  - reflexivity.
  - intros i. reflexivity.
Defined.

Lemma dump_holds_every_displayed_frame_witness :
  bytes_written
    (snd (decode_pass yuv420_size (mkOptions 0 2 (Some "out.yuv")
                                             (Some "in.mkv"))
                      steady_frames 0 dump_state))
  = 384 * Z.of_nat (frames_dispatched
                      (snd (decode_pass yuv420_size
                                        (mkOptions 0 2 (Some "out.yuv")
                                                   (Some "in.mkv"))
                                        steady_frames 0 dump_state))).
Proof.
  apply (dump_holds_every_displayed_frame
           yuv420_size (mkOptions 0 2 (Some "out.yuv") (Some "in.mkv"))
           steady_frames 0 dump_state 384).
  - reflexivity.
  - vm_compute. split; [discriminate | reflexivity].
  - reflexivity.
  - reflexivity.
Defined.

Lemma failed_setup_ends_the_run_witness :
  uses_after_close NeverOpened
    (trace (hello_drmprime 2 input_lost_after_first_pass
                           ["-l"; "3"; "-o"; "out.yuv"; "in.mkv"])) = O
  /\ exists code done failed,
       status (hello_drmprime 2 input_lost_after_first_pass
                              ["-l"; "3"; "-o"; "out.yuv"; "in.mkv"])
       = Returned code
       /\ (code = -1 \/ code = AVERROR ENOMEM)
       /\ passes (hello_drmprime 2 input_lost_after_first_pass
                                 ["-l"; "3"; "-o"; "out.yuv"; "in.mkv"])
          = done ++ [failed]
       /\ List.length done = 1%nat
       /\ Forall (fun evs => In EvCloseInput evs) done
       /\ forallb is_setup failed = true
       /\ existsb is_teardown failed = false
       /\ epilogue (hello_drmprime 2 input_lost_after_first_pass
                                   ["-l"; "3"; "-o"; "out.yuv"; "in.mkv"])
          = [].
Proof.
  apply (failed_setup_ends_the_run
           178 27 yuv420_size 2 input_lost_after_first_pass
           (mkOptions 3 (-1) (Some "out.yuv") (Some "in.mkv")) 1).
  - vm_compute. split; [reflexivity | discriminate].
  - vm_compute. discriminate.
  - reflexivity.
  - right. reflexivity.
  - right. apply le_n.
  - vm_compute. lia.
  - intros i Hi. destruct i as [|i]; [reflexivity | lia].
  - reflexivity.
  - lia.
Defined.

Lemma run_ends_within_the_replay_count_witness :
  uses_after_close NeverOpened
    (trace (hello_drmprime 2 input_lost_after_first_pass
                           ["-l"; "2"; "in.mkv"])) = O
  /\ ((exists k code done failed,
          (k < 2)%nat
          /\ (forall j, (j < k)%nat ->
                        setup_ok 27 input_lost_after_first_pass 7
                                 (pass input_lost_after_first_pass j) = true)
          /\ setup_ok 27 input_lost_after_first_pass 7
                      (pass input_lost_after_first_pass k) = false
          /\ status (hello_drmprime 2 input_lost_after_first_pass
                                    ["-l"; "2"; "in.mkv"]) = Returned code
          /\ (code = -1 \/ code = AVERROR ENOMEM)
          /\ passes (hello_drmprime 2 input_lost_after_first_pass
                                    ["-l"; "2"; "in.mkv"]) = done ++ [failed]
          /\ List.length done = k
          /\ Forall (fun evs => In EvCloseInput evs) done
          /\ forallb is_setup failed = true
          /\ epilogue (hello_drmprime 2 input_lost_after_first_pass
                                      ["-l"; "2"; "in.mkv"]) = [])
      \/ ((forall j, (j < 2)%nat ->
                     setup_ok 27 input_lost_after_first_pass 7
                              (pass input_lost_after_first_pass j) = true)
          /\ status (hello_drmprime 2 input_lost_after_first_pass
                                    ["-l"; "2"; "in.mkv"]) = Returned 0
          /\ List.length (passes (hello_drmprime 2 input_lost_after_first_pass
                                                 ["-l"; "2"; "in.mkv"]))
             = 2%nat
          /\ Forall (fun evs => In EvCloseInput evs)
                    (passes (hello_drmprime 2 input_lost_after_first_pass
                                            ["-l"; "2"; "in.mkv"]))
          /\ epilogue (hello_drmprime 2 input_lost_after_first_pass
                                      ["-l"; "2"; "in.mkv"]) = [EvOutDelete])).
Proof.
  apply (run_ends_within_the_replay_count
           178 27 yuv420_size 2 input_lost_after_first_pass
           (mkOptions 2 (-1) None (Some "in.mkv"))).
  - vm_compute. split; [reflexivity | discriminate].
  - left. reflexivity.
  - apply le_n.
Defined.

Lemma dump_file_opened_before_the_input_witness :
  exists code failed,
    hello_drmprime 1 (env_of no_input) ["-o"; "out.yuv"; "missing.mkv"]
    = mkRun (Returned code) [EvOutNew; EvFopen "out.yuv"] [failed] []
    /\ forallb is_setup failed = true
    /\ file_status_after NeverOpened
         (trace (hello_drmprime 1 (env_of no_input)
                                ["-o"; "out.yuv"; "missing.mkv"]))
       = Open.
Proof.
  apply (dump_file_opened_before_the_input
           178 27 yuv420_size 1 (env_of no_input)
           (mkOptions 0 (-1) (Some "out.yuv") (Some "missing.mkv"))
           "out.yuv").
  - reflexivity.
  - vm_compute. discriminate.
  - reflexivity.
  - reflexivity.
  - reflexivity.
  - apply le_n.
Defined.

Lemma frame_budget_overrun_by_one_witness :
  Z.of_nat (frames_dispatched
              (snd (read_loop yuv420_size 0 (set_frames 2 plain_state)
                              (mkCtx [] false) (packets steady_frames))))
  = 2
  /\ Z.of_nat (frames_dispatched
                 (snd (decode_pass yuv420_size
                                   (mkOptions 0 2 None (Some "in.mkv"))
                                   steady_frames 0 plain_state)))
     = 3.
Proof.
  destruct (frame_budget_overrun_by_one
              yuv420_size (mkOptions 0 2 None (Some "in.mkv")) steady_frames 0
              plain_state)
    as [_ Hstop].
  - vm_compute. split; discriminate.
  - reflexivity.
  - reflexivity.
  - reflexivity.
  - destruct Hstop as [Hread Hpass].
    + vm_compute. discriminate.
    + split; [exact Hread |]. apply Hpass. vm_compute. discriminate.
Defined.
